(** * bna-rentals-ts: the fetch / normalise / persist pipeline

    A shallow embedding of the pure and sequential parts of
    [src/lib/zillow/fetcher.ts] (with its error classes),
    [src/lib/zillow/types.ts], [src/lib/db/migrator.ts],
    [src/lib/supabase/client.ts], the migration script and the sync and
    cron routes, with the properties the specification states about them.

    Conventions of the embedding:
    - a JavaScript [number] that carries data (a price, a page number handed
      to [safePageNumber], a [totalPages] field) is an IEEE 754 binary64
      value, [spec_float] with [prec = 53] and [emax = 1024];
    - loop counters, retry counts and durations are integers far below
      [2^53], where binary64 arithmetic is exact: they are [Z];
    - a string is the sequence of its UTF-8 bytes ([string]);
    - an object is the list of its own entries in the order of their
      enumeration, an array a list, a [Map] the list of its entries in
      insertion order;
    - [await], [console.warn] and [setTimeout] become events of an explicit
      world that is threaded through the code;
    - what a library does that the sources do not fix (the answers of the
      API, [ToString] and [ToNumber] on objects, the numbers zod accepts,
      the database, [createClient]) is a variable of a section. *)

From Stdlib Require Import ZArith Bool List Lia String Ascii DecimalString.
From Stdlib Require Import DecimalNat.
From Stdlib Require Import Floats.SpecFloat.
Import ListNotations.

Local Open Scope Z_scope.

(** ** JavaScript numbers *)

Module JSNumber.

Definition prec : Z := 53.
Definition emax : Z := 1024.

Definition number : Type := spec_float.

Definition NaN : number := S754_nan.

(** Integers enter binary64 through round-to-nearest-even. *)
Definition of_Z (k : Z) : number := binary_normalize prec emax k 0 false.

Definition one : number := Eval vm_compute in of_Z 1.

Definition mul : number -> number -> number := SFmul prec emax.
Definition div : number -> number -> number := SFdiv prec emax.

(** The value of the literal [n / 10^d], as the parser rounds it. *)
Definition decimal (n : Z) (d : Z) : number := div (of_Z n) (of_Z (10 ^ d)).

Definition valid (x : number) : Prop := valid_binary prec emax x = true.

Definition ltb (x y : number) : bool := SFltb x y.
Definition leb (x y : number) : bool := SFleb x y.
(** [x >= y] *)
Definition geb (x y : number) : bool := SFleb y x.

(** [ToBoolean] on a number: [+0], [-0] and [NaN] are falsy. *)
Definition truthy (x : number) : bool :=
  match x with
  | S754_zero _ | S754_nan => false
  | _ => true
  end.

Definition is_nan (x : number) : bool :=
  match x with S754_nan => true | _ => false end.

(** The mantissa with its sign. *)
Definition signed (s : bool) (m : positive) : Z := cond_Zopp s (Zpos m).

(** The integers of binary64: a mantissa scaled by a non-negative power of
    two, or one whose fractional bits are all zero. *)
Definition is_integer (x : number) : bool :=
  match x with
  | S754_zero _ => true
  | S754_finite _ m e => (0 <=? e) || (Zpos m mod 2 ^ (- e) =? 0)
  | _ => false
  end.

(** The binary64 number of a signed integer of at most 53 bits, written
    out: the mantissa is shifted up to 53 bits. *)
Definition normal_of_pos (s : bool) (p : positive) : number :=
  match Zpos (digits2_pos p) - 53 with
  | Zneg n => S754_finite s (Pos.iter xO p n) (Zneg n)
  | _ => S754_finite s p 0
  end.

End JSNumber.

(** The [Math] object: the three functions the sources call. *)
Module Math.
Import JSNumber.

(** [Math.floor]: the greatest integral number not above [x]; zeros,
    infinities and [NaN] are returned as they are. *)
Definition floor (x : number) : number :=
  match x with
  | S754_finite s m e =>
      if 0 <=? e then x else of_Z (signed s m / 2 ^ (- e))
  | _ => x
  end.

(** [Math.round]: the integral number closest to [x], ties towards
    [+infinity]; a negative [x] that rounds to zero gives [-0]. *)
Definition round (x : number) : number :=
  match x with
  | S754_finite s m e =>
      if 0 <=? e then x
      else binary_normalize prec emax
             ((2 * signed s m + 2 ^ (- e)) / 2 ^ (1 - e)) 0 s
  | _ => x
  end.

(** [Math.max] of two numbers: [NaN] if either is, [+0] above [-0]. *)
Definition max (a b : number) : number :=
  match SFcompare a b with
  | None => NaN
  | Some Lt => b
  | Some Gt => a
  | Some Eq =>
      match a, b with
      | S754_zero true, S754_zero false => b
      | _, _ => a
      end
  end.

End Math.


(** ** JavaScript values *)

Module JS.
Import JSNumber.

(** The values [JSON.parse] produces, and [undefined]. *)
Local Unset Elimination Schemes.
Inductive value : Type :=
| Undefined
| Null
| Bool (b : bool)
| Num (n : number)
| Str (s : string)
| Arr (l : list value)
| Obj (o : list (string * value)).
Local Set Elimination Schemes.

(** Induction on a value, with the elements of an array and the values
    of a mapping as smaller values. *)
Section Induction.
Variable P : value -> Prop.
Hypothesis HUndefined : P Undefined.
Hypothesis HNull : P Null.
Hypothesis HBool : forall b, P (Bool b).
Hypothesis HNum : forall n, P (Num n).
Hypothesis HStr : forall s, P (Str s).
Hypothesis HArr : forall l, Forall P l -> P (Arr l).
Hypothesis HObj : forall o, Forall (fun kv => P (snd kv)) o -> P (Obj o).

Fixpoint value_ind (v : value) : P v :=
  match v with
  | Undefined => HUndefined
  | Null => HNull
  | Bool b => HBool b
  | Num n => HNum n
  | Str s => HStr s
  | Arr l =>
      HArr l
        ((fix elements (l : list value) : Forall P l :=
            match l with
            | [] => Forall_nil P
            | x :: xs => Forall_cons x (value_ind x) (elements xs)
            end) l)
  | Obj o =>
      HObj o
        ((fix entries (o : list (string * value))
            : Forall (fun kv => P (snd kv)) o :=
            match o with
            | [] => Forall_nil _
            | (k, x) :: rest =>
                Forall_cons (k, x) (value_ind x) (entries rest)
            end) o)
  end.
End Induction.

(** An object is the list of its own entries, keys distinct, in the order
    [Object.entries] enumerates them: the keys that are array indices
    first, in ascending order, then the other keys in the order of their
    creation.  The prototype of an object is not part of it: no property
    the sources read is found on a prototype. *)
Definition object : Type := list (string * value).

(** [o[k]] for an own property, [undefined] for a key that is absent. *)
Fixpoint get (o : object) (k : string) : value :=
  match o with
  | [] => Undefined
  | (k', v) :: o' => if String.eqb k' k then v else get o' k
  end.

(** [Object.hasOwn(o, k)] *)
Definition has (o : object) (k : string) : bool :=
  existsb (fun kv => String.eqb (fst kv) k) o.

(** An array index: the canonical numeral of an integer below
    [2^32 - 1]. *)
Definition arrayIndex (k : string) : option N :=
  match NilEmpty.uint_of_string k with
  | Some d =>
      let n := N.of_uint d in
      if String.eqb (NilEmpty.string_of_uint (N.to_uint n)) k
         && (n <? 4294967295)%N
      then Some n
      else None
  | None => None
  end.

(** The value of an own property replaced; the property keeps its
    place. *)
Fixpoint replace (o : object) (k : string) (v : value) : object :=
  match o with
  | [] => []
  | (k', v') :: o' =>
      if String.eqb k' k then (k', v) :: o' else (k', v') :: replace o' k v
  end.

(** The indices below [n] an object starts with. *)
Fixpoint below (n : N) (o : object) : nat :=
  match o with
  | [] => 0
  | (k', _) :: o' =>
      match arrayIndex k' with
      | Some m => if (m <? n)%N then S (below n o') else 0
      | None => 0
      end
  end.

(** The place a new property takes in the enumeration: an array index
    goes after the indices below it, any other key goes last. *)
Definition slot (o : object) (k : string) : nat :=
  match arrayIndex k with
  | Some n => below n o
  | None => List.length o
  end.

Definition create (o : object) (k : string) (v : value) : object :=
  (firstn (slot o k) o ++ (k, v) :: skipn (slot o k) o)%list.

(** [o[k] = v] on an object made by [{}], by a spread or by
    [JSON.parse]: the value of an own property is replaced; where there
    is none a property is created, except under the name [__proto__]:
    there the assignment runs the setter of [Object.prototype], which
    changes the prototype or nothing, and no property is created. *)
Definition set (o : object) (k : string) (v : value) : object :=
  if has o k then replace o k v
  else if String.eqb k "__proto__" then o
  else create o k v.

(** An entry that an assignment to a fresh object stores. *)
Definition stored (kv : string * value) : bool :=
  negb (String.eqb (fst kv) "__proto__").

(** The order of [Object.entries]: the array indices, ascending, then
    the other keys.  [least] is the least index that may come next, and
    [None] once a key that is no index was met. *)
Fixpoint enumeratedFrom (least : option N) (o : object) : bool :=
  match o with
  | [] => true
  | (k, _) :: o' =>
      match arrayIndex k, least with
      | Some n, Some lo => (lo <=? n)%N && enumeratedFrom (Some (N.succ n)) o'
      | Some _, None => false
      | None, _ => enumeratedFrom None o'
      end
  end.

Definition enumerated (o : object) : bool := enumeratedFrom (Some 0%N) o.

(** [Object.assign(target, source)]. *)
Definition assign (target source : object) : object :=
  fold_left (fun t kv => set t (fst kv) (snd kv)) source target.

(** [v.k] on a value that is not [null] or [undefined]: an own property
    of an object; arrays and primitives have no property of the names
    read here ([results], [props], [totalPages], [units], [price],
    [beds], [bathrooms]). *)
Definition member (v : value) (k : string) : value :=
  match v with
  | Obj o => get o k
  | _ => Undefined
  end.

(** [ToBoolean]. *)
Definition truthy (v : value) : bool :=
  match v with
  | Undefined | Null => false
  | Bool b => b
  | Num n => JSNumber.truthy n
  | Str s => negb (String.eqb s "")
  | Arr _ | Obj _ => true
  end.

(** [v && typeof v === 'object' && !Array.isArray(v)]. *)
Definition is_mapping (v : value) : bool :=
  match v with
  | Obj _ => true
  | _ => false
  end.

(** What the sources throw.  An error carries its HTTP status and the raw
    response payload; the text of its message is not modelled. *)
Inductive error : Type :=
| TypeError
| AuthenticationError (response : value)
| RateLimitError (response : value)
| ZillowAPIError (statusCode : option Z) (response : value)
| Thrown (e : value).

Inductive result (A : Type) : Type :=
| Return (a : A)
| Throw (e : error).
Arguments Return {A} a.
Arguments Throw {A} e.

Definition bind {A B : Type} (r : result A) (k : A -> result B) : result B :=
  match r with
  | Return a => k a
  | Throw e => Throw e
  end.

End JS.

(** ** [src/lib/zillow/errors.ts] *)

Module Errors.
Import JS.
Local Open Scope string_scope.

(** [typeof v === 'string'] *)
Definition is_string (v : value) : bool :=
  match v with
  | Str _ => true
  | _ => false
  end.

(** [Array.isArray(v)] *)
Definition is_array (v : value) : bool :=
  match v with
  | Arr _ => true
  | _ => false
  end.

(** [(e) => e.message || e], the callback of [map]: reading a property
    of [null] or [undefined] throws.  ([message] is no more a property
    of an array or of a primitive than the names [member] lists.) *)
Definition messageOrSelf (e : value) : result value :=
  match e with
  | Null | Undefined => Throw TypeError
  | _ =>
      Return (if truthy (member e "message") then member e "message" else e)
  end.

(** [l.map(f)]: the calls are made from left to right, and the first
    that throws ends the map. *)
Fixpoint Array_map (f : value -> result value) (l : list value)
    : result (list value) :=
  match l with
  | [] => Return []
  | x :: l' =>
      bind (f x) (fun y =>
      bind (Array_map f l') (fun ys => Return (y :: ys)))
  end.

(** The [statusCode] the constructors of the error classes set:
    [AuthenticationError] and [RateLimitError] pass a fixed code to
    [super], [ZillowAPIError] stores the status it is given; anything
    else thrown is not of these classes. *)
Definition statusCode (e : error) : option Z :=
  match e with
  | AuthenticationError _ => Some 401%Z
  | RateLimitError _ => Some 429%Z
  | ZillowAPIError status _ => status
  | TypeError | Thrown _ => None
  end.

(** What an entry of [errors] contributes to the message: itself when
    it is a string, its [message] when that is a non-empty string. *)
Definition says (e : value) (m : string) : Prop :=
  e = Str m \/ (member e "message" = Str m /\ m <> "").

Section Messages.
(** [ToString] on a value that is not a string, [null] or [undefined],
    as [join] applies it to an element: the text of a number, of a
    boolean, of an array, of an object; [None] when the conversion
    throws. *)
Variable ToString : value -> option string.

(** An element as [join] writes it: nothing for [null] and
    [undefined]. *)
Definition joined (x : value) : option string :=
  match x with
  | Undefined | Null => Some ""
  | Str s => Some s
  | _ => ToString x
  end.

Fixpoint joinedAll (l : list value) : option (list string) :=
  match l with
  | [] => Some []
  | x :: l' =>
      match joined x, joinedAll l' with
      | Some s, Some r => Some (s :: r)
      | _, _ => None
      end
  end.

(** [l.join(separator)] *)
Definition Array_join (separator : string) (l : list value)
    : result value :=
  match joinedAll l with
  | Some parts => Return (Str (String.concat separator parts))
  | None => Throw TypeError
  end.

(** [`${m}`], the text of a value in a template literal; [None] when
    the conversion throws. *)
Definition templated (m : value) : option string :=
  match m with
  | Str s => Some s
  | Undefined => Some "undefined"
  | Null => Some "null"
  | _ => ToString m
  end.

(** [ZillowAPIError.extractErrorMessage].  Declared to return a
    string, it returns whatever it finds under [message], [error] or
    [detail]. *)
Definition extractErrorMessage (response : value) : result value :=
  if is_string response then Return response
  else if truthy (member response "message") then
    Return (member response "message")
  else
    let error := member response "error" in
    if truthy error && is_string error then Return error
    else if truthy error && truthy (member error "message") then
      Return (member error "message")
    else
      let errors := member response "errors" in
      match errors with
      | Arr l => bind (Array_map messageOrSelf l) (Array_join "; ")
      | _ =>
          if truthy errors && is_string errors then Return errors
          else if truthy (member response "detail") then
            Return (member response "detail")
          else Return (Str "Unknown API error")
      end.

(** The message of an error about the payload [data] can be built:
    [extractErrorMessage] returns, and what it returns has a text. *)
Definition describable (data : value) : Prop :=
  exists m message,
    extractErrorMessage data = Return m /\ templated m = Some message.

(** [const message = ZillowAPIError.extractErrorMessage(data)] and the
    template literal that holds [message], in the argument of the
    constructor of an error: the text, or what is thrown before the
    error is made. *)
Definition messageText (data : value) : result string :=
  bind (extractErrorMessage data) (fun m =>
    match templated m with
    | Some text => Return text
    | None => Throw TypeError
    end).
End Messages.

End Errors.

(** ** [src/lib/zillow/types.ts]: the property schema *)

Module ZillowTypes.
Import JSNumber.

(** A field declared [.optional()] is a [T | undefined], one declared
    [.nullable().optional()] a [T | null | undefined]. *)
Inductive field (A : Type) : Type :=
| absent              (* undefined *)
| null
| present (a : A).
Arguments absent {A}.
Arguments null {A}.
Arguments present {A} a.

(** [x ?? null] *)
Definition or_null {A : Type} (x : field A) : option A :=
  match x with
  | present a => Some a
  | _ => None
  end.

Record ZillowUnit : Type := {
  unit_price : option number;
  unit_beds : option number;
  unit_bathrooms : option number
}.

Record ZillowProperty : Type := {
  longitude : field number;
  latitude : field number;
  detailUrl : string;
  price : field number;
  bedrooms : field number;
  bathrooms : field number;
  livingArea : field number;
  propertyType : field string;
  address : field string;
  units : field (list ZillowUnit)
}.

(** *** The zod combinators the schema is made of

    Modelled from zod's documentation: [parse] returns the typed value or
    throws; [z.object] reads the declared keys and strips the others. *)
Section Zod.
(** The numbers [z.number()] accepts: every number but [NaN]; whether
    the infinities pass depends on the zod release. *)
Variable z_number_accepts : number -> bool.

Definition z_number (v : JS.value) : option number :=
  match v with
  | JS.Num n => if z_number_accepts n then Some n else None
  | _ => None
  end.

Definition z_string (v : JS.value) : option string :=
  match v with
  | JS.Str s => Some s
  | _ => None
  end.

Definition z_optional {A : Type} (inner : JS.value -> option A)
    (v : JS.value) : option (option A) :=
  match v with
  | JS.Undefined => Some None
  | _ => option_map Some (inner v)
  end.

Definition z_nullable_optional {A : Type} (inner : JS.value -> option A)
    (v : JS.value) : option (field A) :=
  match v with
  | JS.Undefined => Some absent
  | JS.Null => Some null
  | _ => option_map present (inner v)
  end.

Fixpoint z_array {A : Type} (inner : JS.value -> option A)
    (l : list JS.value) : option (list A) :=
  match l with
  | [] => Some []
  | v :: l' =>
      match inner v, z_array inner l' with
      | Some a, Some r => Some (a :: r)
      | _, _ => None
      end
  end.

(** [UnitSchema.parse] *)
Definition UnitSchema (v : JS.value) : option ZillowUnit :=
  match v with
  | JS.Obj o =>
      match z_optional z_number (JS.get o "price"),
            z_optional z_number (JS.get o "beds"),
            z_optional z_number (JS.get o "bathrooms") with
      | Some p, Some b, Some ba =>
          Some {| unit_price := p; unit_beds := b; unit_bathrooms := ba |}
      | _, _, _ => None
      end
  | _ => None
  end.

Definition z_units (v : JS.value) : option (list ZillowUnit) :=
  match v with
  | JS.Arr l => z_array UnitSchema l
  | _ => None
  end.

(** [ZillowPropertySchema.parse], [None] when it throws. *)
Definition ZillowPropertySchema (o : JS.object) : option ZillowProperty :=
  match z_nullable_optional z_number (JS.get o "longitude"),
        z_nullable_optional z_number (JS.get o "latitude"),
        z_string (JS.get o "detailUrl"),
        z_nullable_optional z_number (JS.get o "price"),
        z_nullable_optional z_number (JS.get o "bedrooms") with
  | Some lon, Some lat, Some url, Some pr, Some bed =>
      match z_nullable_optional z_number (JS.get o "bathrooms"),
            z_nullable_optional z_number (JS.get o "livingArea"),
            z_nullable_optional z_string (JS.get o "propertyType"),
            z_nullable_optional z_string (JS.get o "address"),
            z_nullable_optional z_units (JS.get o "units") with
      | Some bath, Some area, Some ty, Some addr, Some us =>
          Some {| longitude := lon; latitude := lat; detailUrl := url;
                  price := pr; bedrooms := bed; bathrooms := bath;
                  livingArea := area; propertyType := ty;
                  address := addr; units := us |}
      | _, _, _, _, _ => None
      end
  | _, _, _, _, _ => None
  end.
End Zod.

(** A property that has a detail URL and a price, and nothing else. *)
Definition listing (url : string) (p : field number) : ZillowProperty :=
  {| longitude := absent; latitude := absent; detailUrl := url;
     price := p; bedrooms := absent; bathrooms := absent;
     livingArea := absent; propertyType := absent; address := absent;
     units := absent |}.

End ZillowTypes.

(** ** [src/lib/config/constants.ts] *)

Module Config.
Definition MAX_PAGES : Z := 10.
Definition RATE_LIMIT_WAIT_MS : Z := 5000.
Definition DEFAULT_RETRIES : Z := 4.
Definition PRIMARY_KEY_SOURCE_COLUMNS : list string := ["detail_url"%string].
End Config.

(** ** [src/lib/zillow/fetcher.ts] *)

Module Fetcher.
Import JSNumber JS ZillowTypes.
Local Open Scope string_scope.
Local Open Scope Z_scope.

(** [safePageNumber]: [Math.max(1, Math.floor(page))]. *)
Definition safePageNumber (page : number) : number :=
  Math.max one (Math.floor page).

(** *** The world of the client

    What [this.client.get] does with a request: it resolves with a
    response, rejects with an axios error (whose [response], when there is
    one, has a status and a body), or rejects with something else. *)
Inductive outcome : Type :=
| Response (data : value)
| AxiosError (status : option Z) (data : value)
| OtherError (e : value).

Inductive event : Type :=
| Request (requestParams : object)
| Warn
| Sleep (ms : Z)
| Yield (results : list value).

(** The requests sent so far and everything that happened, oldest first. *)
Record world : Type := { sent : nat; trace : list event }.

Definition emit (ev : event) (w : world) : world :=
  {| sent := sent w; trace := (trace w ++ [ev])%list |}.

Definition sleep (ms : Z) (w : world) : world := emit (Sleep ms) w.

Definition status_is (status : option Z) (code : Z) : bool :=
  match status with
  | Some s => s =? code
  | None => false
  end.

Section Client.
(** The upstream API: what the [n]-th request of a run is answered. *)
Variable api : nat -> object -> outcome.

(** [ToString] on a value that is not a string, [null] or [undefined];
    [None] when the conversion throws. *)
Variable ToString : value -> option string.

Definition client_get (requestParams : object) (w : world)
    : outcome * world :=
  (api (sent w) requestParams,
   {| sent := S (sent w); trace := (trace w ++ [Request requestParams])%list |}).

(** The loop of [fetchPage], entered at [attempt]; [fuel] bounds the
    turns that are left.  The message of an error is built before the
    error is thrown, and what building it throws is thrown in its
    place. *)
Fixpoint fetchPage_attempts (fuel : nat) (requestParams : object)
    (attempt retries cooldown : Z) (w : world) : result value * world :=
  match fuel with
  | O => (Return Null, w)
  | S fuel' =>
      if attempt <=? retries then
        let (r, w1) := client_get requestParams w in
        match r with
        | Response data => (Return data, w1)
        | AxiosError status data =>
            if status_is status 404 then
              (Return (Obj [("results", Arr [])]), w1)
            else if status_is status 401 || status_is status 403 then
              match Errors.messageText ToString data with
              | Return _ => (Throw (AuthenticationError data), w1)
              | Throw e => (Throw e, w1)
              end
            else if status_is status 429 then
              if attempt <? retries then
                fetchPage_attempts fuel' requestParams (attempt + 1)
                  retries cooldown
                  (sleep (cooldown * attempt * 1000) (emit Warn w1))
              else (Throw (RateLimitError data), w1)
            else if attempt <? retries then
              fetchPage_attempts fuel' requestParams (attempt + 1)
                retries cooldown
                (sleep (cooldown * attempt * 1000) (emit Warn w1))
            else
              match Errors.messageText ToString data with
              | Return _ => (Throw (ZillowAPIError status data), w1)
              | Throw e => (Throw e, w1)
              end
        | OtherError e => (Throw (Thrown e), w1)
        end
      else (Return Null, w)
  end.

Definition fetchPage (params : object) (page : number)
    (retries cooldown : Z) (w : world) : result value * world :=
  fetchPage_attempts (Z.to_nat retries)
    (set params "page" (Num (safePageNumber page)))
    1 retries cooldown w.

(** [extractResults] *)
Definition extractResults (payload : value) : list value :=
  if negb (truthy payload) then []
  else
    match member payload "results" with
    | Arr l => l
    | _ =>
        match member payload "props" with
        | Arr l => l
        | _ =>
            match payload with
            | Arr l => l
            | _ => []
            end
        end
    end.

(** [ToNumber] on a value that is not a number, as [>=] applies it to
    its right operand; [None] when the conversion throws. *)
Variable ToNumber : value -> option number.

(** [payload.totalPages && page >= payload.totalPages] *)
Definition reachedTotalPages (page : Z) (payload : value) : result bool :=
  let totalPages := member payload "totalPages" in
  if truthy totalPages then
    match totalPages with
    | Num n => Return (geb (of_Z page) n)
    | _ =>
        match ToNumber totalPages with
        | Some n => Return (geb (of_Z page) n)
        | None => Throw TypeError
        end
    end
  else Return false.

(** The loop of [iteratePages], entered at [page].  The generator is
    run to its end: what it yields is in the trace, in its place among
    the requests and the waits; the result is the error it threw, if
    any. *)
Fixpoint iteratePages_from (fuel : nat) (params : object)
    (page maxPages rateLimitWait : Z) (w : world) : option error * world :=
  match fuel with
  | O => (None, w)
  | S fuel' =>
      if page <=? maxPages then
        let (r, w1) :=
          fetchPage params (of_Z page) Config.DEFAULT_RETRIES 5 w in
        match r with
        | Throw e => (Some e, w1)
        | Return payload =>
            if negb (truthy payload) then (None, w1)
            else
              let results := extractResults payload in
              if (Z.of_nat (List.length results) =? 0) then (None, w1)
              else
                let w2 := emit (Yield results) w1 in
                let w3 :=
                  if page <? maxPages then sleep rateLimitWait w2
                  else w2 in
                match reachedTotalPages page payload with
                | Throw e => (Some e, w3)
                | Return true => (None, w3)
                | Return false =>
                    iteratePages_from fuel' params (page + 1) maxPages
                      rateLimitWait w3
                end
        end
      else (None, w)
  end.

Definition iteratePages (params : object) (maxPages rateLimitWait : Z)
    (w : world) : option error * world :=
  iteratePages_from (Z.to_nat maxPages) params 1 maxPages rateLimitWait w.

End Client.

(** The batches a run yielded, in order. *)
Fixpoint yielded (tr : list event) : list (list value) :=
  match tr with
  | [] => []
  | Yield results :: tr' => results :: yielded tr'
  | _ :: tr' => yielded tr'
  end.

(** The pages a run asked for, in order. *)
Fixpoint requested (tr : list event) : list value :=
  match tr with
  | [] => []
  | Request requestParams :: tr' => get requestParams "page" :: requested tr'
  | _ :: tr' => requested tr'
  end.

(** The waits of a run, in order. *)
Fixpoint waits (tr : list event) : list Z :=
  match tr with
  | [] => []
  | Sleep ms :: tr' => ms :: waits tr'
  | _ :: tr' => waits tr'
  end.

(** *** Vocabulary of the properties of [fetchPage] *)

(** An answer with the status 429. *)
Definition rateLimited (o : outcome) : bool :=
  match o with
  | AxiosError status _ => status_is status 429
  | _ => false
  end.

(** An answer after which [fetchPage] tries again while attempts remain:
    an axios error that is not a 404, a 401 or a 403. *)
Definition retryable (o : outcome) : bool :=
  match o with
  | AxiosError status _ =>
      negb (status_is status 404 || status_is status 401
            || status_is status 403)
  | _ => false
  end.

(** What [k] failed attempts leave in the trace, the first of them being
    attempt number [attempt]: a request, a warning and a wait of
    [cooldown * attempt] seconds each. *)
Fixpoint retried (requestParams : object) (cooldown attempt : Z) (k : nat)
    : list event :=
  match k with
  | O => []
  | S k' =>
      Request requestParams :: Warn :: Sleep (cooldown * attempt * 1000)
      :: retried requestParams cooldown (attempt + 1) k'
  end.

(** [after w k tr]: the world [w] with [k] more requests sent and the
    events [tr] added. *)
Definition after (w : world) (k : nat) (tr : list event) : world :=
  {| sent := sent w + k; trace := (trace w ++ tr)%list |}.

(** The request [fetchPage] sends for a page. *)
Definition requestFor (params : object) (page : number) : object :=
  set params "page" (Num (safePageNumber page)).

(** *** Vocabulary of the properties of [iteratePages] *)

(** What a page that yields leaves in the trace: the request, the batch,
    and the wait unless the page is the last one allowed. *)
Definition pageEvents (params : object) (maxPages rateLimitWait : Z)
    (page : Z) (payload : value) : list event :=
  Request (requestFor params (of_Z page))
  :: Yield (extractResults payload)
  :: (if page <? maxPages then [Sleep rateLimitWait] else []).

(** The same for [k] pages in a row, from [page] on. *)
Fixpoint pagesEvents (params : object) (maxPages rateLimitWait : Z)
    (payloadOf : Z -> value) (page : Z) (k : nat) : list event :=
  match k with
  | O => []
  | S k' =>
      (pageEvents params maxPages rateLimitWait page (payloadOf page)
       ++ pagesEvents params maxPages rateLimitWait payloadOf (page + 1) k')%list
  end.

(** A payload after which the iteration goes on: it is truthy, it has
    results, and it does not say that its page is the last one. *)
Definition continues (ToNumber : value -> option number) (page : Z)
    (payload : value) : bool :=
  truthy payload
  && negb (Z.of_nat (List.length (extractResults payload)) =? 0)
  && match reachedTotalPages ToNumber page payload with
     | Return false => true
     | _ => false
     end.

(** *** Flattening *)

(** [prefix ? `${prefix}__${key}` : key] *)
Definition newKey (prefix key : string) : string :=
  if String.eqb prefix "" then key else prefix ++ "__" ++ key.

(** One turn of the loop of [flattenMapping], [key] being the new key:
    a mapping is flattened under it and merged in, anything else is
    stored under it. *)
Fixpoint flattenInto (flattened : object) (key : string) (v : value)
    {struct v} : object :=
  match v with
  | Obj o =>
      assign flattened
        ((fix entries (es : list (string * value)) (acc : object) : object :=
            match es with
            | [] => acc
            | kv :: es' =>
                entries es' (flattenInto acc (newKey key (fst kv)) (snd kv))
            end) o [])
  | _ => set flattened key v
  end.

Definition flattenMapping (obj : object) (prefix : string) : object :=
  fold_left
    (fun flattened kv => flattenInto flattened (newKey prefix (fst kv)) (snd kv))
    obj [].

(** The leaves of a value that stands under [key]: the values that are
    not mappings, each with the key its path joins up to, from left to
    right. *)
Fixpoint leavesOf (key : string) (v : value) {struct v}
    : list (string * value) :=
  match v with
  | Obj o =>
      (fix entries (es : list (string * value)) : list (string * value) :=
         match es with
         | [] => []
         | kv :: es' =>
             (leavesOf (newKey key (fst kv)) (snd kv) ++ entries es')%list
         end) o
  | _ => [(key, v)]
  end.

Definition leaves (obj : object) (prefix : string) : list (string * value) :=
  flat_map (fun kv => leavesOf (newKey prefix (fst kv)) (snd kv)) obj.

Definition keys (o : object) : list string := map fst o.

(** A record in which nothing that is stored is a mapping. *)
Definition flat (o : object) : Prop :=
  Forall (fun kv => is_mapping (snd kv) = false) o.

(** A key under which a new property goes last: neither an array index
    nor [__proto__]. *)
Definition ordinary (k : string) : Prop :=
  k <> "__proto__" /\ arrayIndex k = None.

(** A key whose place in an object does not depend on what is created
    before it: an own property, an array index, or [__proto__]. *)
Definition placed (o : object) (k : string) : Prop :=
  In k (keys o) \/ arrayIndex k <> None \/ k = "__proto__".

(** [`${name}_${unitIndex}`] *)
Definition indexed (name : string) (unitIndex : nat) : string :=
  name ++ "_" ++ NilEmpty.string_of_uint (Nat.to_uint unitIndex).

(** [if (unit.name !== undefined) augmented[`${name}_${i}`] = unit.name] *)
Definition copyUnitField (unit : value) (name : string) (unitIndex : nat)
    (augmented : object) : object :=
  match member unit name with
  | Undefined => augmented
  | v => set augmented (indexed name unitIndex) v
  end.

(** The [forEach] of [augmentWithUnits] from position [index] on.
    Reading a property of [null] or [undefined] throws. *)
Fixpoint augmentFrom (index : nat) (units : list value) (augmented : object)
    : result object :=
  match units with
  | [] => Return augmented
  | unit :: rest =>
      match unit with
      | Null | Undefined => Throw TypeError
      | _ =>
          let unitIndex := (index + 1)%nat in
          augmentFrom (S index) rest
            (copyUnitField unit "bathrooms" unitIndex
               (copyUnitField unit "beds" unitIndex
                  (copyUnitField unit "price" unitIndex augmented)))
      end
  end.

Definition augmentWithUnits (baseRecord : object) (units : list value)
    : result object :=
  augmentFrom 0 units baseRecord.

Section Records.
Variable z_number_accepts : number -> bool.

(** The body of the loop of [recordsToProperties] up to the call of
    [parse]: the flattened record, with its units when it has some. *)
Definition prepareRecord (record : object) : result object :=
  let flattened := flattenMapping record "" in
  match get record "units" with
  | Arr (u :: us) =>
      bind (augmentWithUnits flattened (u :: us)) (fun augmented =>
      Return (set (assign flattened augmented) "units" (Arr (u :: us))))
  | _ => Return flattened
  end.

(** The loop of [recordsToProperties]: the properties pushed so far and
    the warnings logged so far.  A raw record is a mapping. *)
Fixpoint recordsToProperties_loop (records : list object)
    (properties : list ZillowProperty) (warnings : nat)
    : result (list ZillowProperty) * nat :=
  match records with
  | [] => (Return properties, warnings)
  | record :: rest =>
      match prepareRecord record with
      | Throw e => (Throw e, warnings)
      | Return flattened =>
          match ZillowPropertySchema z_number_accepts flattened with
          | Some property =>
              recordsToProperties_loop rest (properties ++ [property])%list
                warnings
          | None =>
              recordsToProperties_loop rest properties (S warnings)
          end
      end
  end.

Definition recordsToProperties (records : list object)
    : result (list ZillowProperty) * nat :=
  recordsToProperties_loop records [] 0%nat.

(** *** Vocabulary of the properties of [recordsToProperties] *)

(** What one turn of the loop makes of a record: the property that is
    pushed, if one is. *)
Definition toProperty (record : object) : option ZillowProperty :=
  match prepareRecord record with
  | Return flattened => ZillowPropertySchema z_number_accepts flattened
  | Throw _ => None
  end.

(** The valid properties of a batch, in the order of the batch. *)
Definition validProperties (records : list object) : list ZillowProperty :=
  flat_map
    (fun record =>
       match toProperty record with
       | Some property => [property]
       | None => []
       end)
    records.

Definition rejected (records : list object) : list object :=
  filter
    (fun record =>
       match toProperty record with
       | Some _ => false
       | None => true
       end)
    records.

End Records.

(** A unit whose properties can be read: anything but [null] and
    [undefined]. *)
Definition readable (unit : value) : bool :=
  match unit with
  | Null | Undefined => false
  | _ => true
  end.

Definition unitsReadable (record : object) : bool :=
  match get record "units" with
  | Arr l => forallb readable l
  | _ => true
  end.

End Fetcher.

(** ** [crypto]: SHA-256

    [createHash('sha256').update(seed, 'utf8').digest('hex')], written out
    from FIPS 180-4.  A word is an integer in [[0, 2^32)]. *)

Module Crypto.
Local Open Scope Z_scope.

Definition add32 (x y : Z) : Z := (x + y) mod 2 ^ 32.

Definition rotr (n x : Z) : Z :=
  (Z.lor (Z.shiftr x n) (Z.shiftl x (32 - n))) mod 2 ^ 32.

Definition Ch (x y z : Z) : Z :=
  Z.lxor (Z.land x y) (Z.land (Z.lxor x (2 ^ 32 - 1)) z).

Definition Maj (x y z : Z) : Z :=
  Z.lxor (Z.lxor (Z.land x y) (Z.land x z)) (Z.land y z).

Definition Sigma0 (x : Z) : Z :=
  Z.lxor (Z.lxor (rotr 2 x) (rotr 13 x)) (rotr 22 x).
Definition Sigma1 (x : Z) : Z :=
  Z.lxor (Z.lxor (rotr 6 x) (rotr 11 x)) (rotr 25 x).
Definition sigma0 (x : Z) : Z :=
  Z.lxor (Z.lxor (rotr 7 x) (rotr 18 x)) (Z.shiftr x 3).
Definition sigma1 (x : Z) : Z :=
  Z.lxor (Z.lxor (rotr 17 x) (rotr 19 x)) (Z.shiftr x 10).

(** The round constants and the initial hash value of FIPS 180-4
    (4.2.2 and 5.3.3), in decimal. *)
Definition K : list Z :=
  [ 1116352408; 1899447441; 3049323471; 3921009573;
    961987163; 1508970993; 2453635748; 2870763221;
    3624381080; 310598401; 607225278; 1426881987;
    1925078388; 2162078206; 2614888103; 3248222580;
    3835390401; 4022224774; 264347078; 604807628;
    770255983; 1249150122; 1555081692; 1996064986;
    2554220882; 2821834349; 2952996808; 3210313671;
    3336571891; 3584528711; 113926993; 338241895;
    666307205; 773529912; 1294757372; 1396182291;
    1695183700; 1986661051; 2177026350; 2456956037;
    2730485921; 2820302411; 3259730800; 3345764771;
    3516065817; 3600352804; 4094571909; 275423344;
    430227734; 506948616; 659060556; 883997877;
    958139571; 1322822218; 1537002063; 1747873779;
    1955562222; 2024104815; 2227730452; 2361852424;
    2428436474; 2756734187; 3204031479; 3329325298 ].

(** The eight words of a hash value, and of the working variables. *)
Record digest : Type := Digest {
  h0 : Z; h1 : Z; h2 : Z; h3 : Z; h4 : Z; h5 : Z; h6 : Z; h7 : Z
}.

Definition H0 : digest :=
  Digest 1779033703 3144134277 1013904242 2773480762
         1359893119 2600822924 528734635 1541459225.

(** The message schedule: [n] more words after those of [w]. *)
Fixpoint expand (n : nat) (w : list Z) : list Z :=
  match n with
  | O => w
  | S n' =>
      let t := List.length w in
      let wt :=
        add32 (add32 (sigma1 (nth (t - 2) w 0)) (nth (t - 7) w 0))
              (add32 (sigma0 (nth (t - 15) w 0)) (nth (t - 16) w 0)) in
      expand n' (w ++ [wt])
  end.

Definition round (s : digest) (kw : Z * Z) : digest :=
  let T1 :=
    add32 (add32 (add32 (h7 s) (Sigma1 (h4 s)))
                 (add32 (Ch (h4 s) (h5 s) (h6 s)) (fst kw))) (snd kw) in
  let T2 := add32 (Sigma0 (h0 s)) (Maj (h0 s) (h1 s) (h2 s)) in
  Digest (add32 T1 T2) (h0 s) (h1 s) (h2 s)
         (add32 (h3 s) T1) (h4 s) (h5 s) (h6 s).

Definition compress (H : digest) (block : list Z) : digest :=
  let s := fold_left round (combine K (expand 48 block)) H in
  Digest (add32 (h0 H) (h0 s)) (add32 (h1 H) (h1 s))
         (add32 (h2 H) (h2 s)) (add32 (h3 H) (h3 s))
         (add32 (h4 H) (h4 s)) (add32 (h5 H) (h5 s))
         (add32 (h6 H) (h6 s)) (add32 (h7 H) (h7 s)).

(** [n] as [k] bytes, most significant first. *)
Fixpoint big_endian (k : nat) (n : Z) : list Z :=
  match k with
  | O => []
  | S k' => (n / 256 ^ Z.of_nat k') mod 256 :: big_endian k' n
  end.

Definition pad (msg : list Z) : list Z :=
  let l := Z.of_nat (List.length msg) in
  (msg ++ [128] ++ repeat 0 (Z.to_nat ((55 - l) mod 64))
       ++ big_endian 8 (8 * l))%list.

(** Bytes to 32-bit words, most significant byte first. *)
Fixpoint words (bytes : list Z) : list Z :=
  match bytes with
  | b3 :: b2 :: b1 :: b0 :: rest =>
      (((b3 * 256 + b2) * 256 + b1) * 256 + b0) :: words rest
  | _ => []
  end.

(** Cut into blocks of sixteen words; [fuel] is the number of blocks. *)
Fixpoint blocks (fuel : nat) (ws : list Z) : list (list Z) :=
  match fuel with
  | O => []
  | S fuel' => firstn 16 ws :: blocks fuel' (skipn 16 ws)
  end.

Definition sha256 (msg : list Z) : digest :=
  let ws := words (pad msg) in
  fold_left compress (blocks (List.length ws / 16) ws) H0.

(** The UTF-8 bytes of a string. *)
Definition bytes_of (s : string) : list Z :=
  map (fun c => Z.of_N (N_of_ascii c)) (list_ascii_of_string s).

(** The hexadecimal digit of a word at position [i], counted from the
    right. *)
Definition nibble (w i : Z) : Z := Z.land (Z.shiftr w (4 * i)) 15.

Definition hexDigit (n : Z) : ascii :=
  nth (Z.to_nat n)
    (list_ascii_of_string "0123456789abcdef") "0"%char.

(** A word as eight hexadecimal digits. *)
Definition hexWord (w : Z) : list ascii :=
  map (fun i => hexDigit (nibble w i)) [7; 6; 5; 4; 3; 2; 1; 0].

(** [digest('hex')] *)
Definition hex (d : digest) : string :=
  string_of_list_ascii
    (hexWord (h0 d) ++ hexWord (h1 d) ++ hexWord (h2 d) ++ hexWord (h3 d)
     ++ hexWord (h4 d) ++ hexWord (h5 d) ++ hexWord (h6 d)
     ++ hexWord (h7 d))%list.

(** [String.prototype.toUpperCase] on an ASCII string. *)
Definition upper (c : ascii) : ascii :=
  let n := nat_of_ascii c in
  if (97 <=? n)%nat && (n <=? 122)%nat then ascii_of_nat (n - 32) else c.

Definition toUpperCase (s : string) : string :=
  string_of_list_ascii (map upper (list_ascii_of_string s)).

(** *** Reading a digest back from its upper-case hexadecimal text *)







End Crypto.

(** ** [src/lib/db/migrator.ts] *)

Module Migrator.
Import JSNumber.
Local Open Scope string_scope.

(** [s || ''] *)
Definition or_empty (s : string) : string :=
  if negb (String.eqb s "") then s else "".

(** [generateRecordId] *)
Definition seedOf (property : ZillowTypes.ZillowProperty) : string :=
  String.concat "__||__"
    (map (fun col =>
            if String.eqb col "detail_url"
            then or_empty (ZillowTypes.detailUrl property)
            else "")
       Config.PRIMARY_KEY_SOURCE_COLUMNS).

Definition generateRecordId (property : ZillowTypes.ZillowProperty) : string :=
  Crypto.toUpperCase
    (Crypto.hex (Crypto.sha256 (Crypto.bytes_of (seedOf property)))).

(** [Omit<NashvilleRental, 'created_at' | 'updated_at'>] *)
Record NashvilleRental : Type := {
  record_id : string;
  detail_url : string;
  longitude : option number;
  latitude : option number;
  address : option string;
  price : option number;
  bedrooms : option number;
  bathrooms : option number;
  living_area : option number;
  property_type : option string;
  units : option (list ZillowTypes.ZillowUnit);
  ingestion_date : string
}.

(** [property.price ? Math.round(property.price * 100) : null] *)
Definition priceInCents (p : ZillowTypes.field number) : option number :=
  match p with
  | ZillowTypes.present x =>
      if truthy x then Some (Math.round (mul x (of_Z 100))) else None
  | _ => None
  end.

Definition propertyToRecord (property : ZillowTypes.ZillowProperty)
    (ingestionDate : string) : NashvilleRental :=
  {| record_id := generateRecordId property;
     detail_url := ZillowTypes.detailUrl property;
     longitude := ZillowTypes.or_null (ZillowTypes.longitude property);
     latitude := ZillowTypes.or_null (ZillowTypes.latitude property);
     address := ZillowTypes.or_null (ZillowTypes.address property);
     price := priceInCents (ZillowTypes.price property);
     bedrooms := ZillowTypes.or_null (ZillowTypes.bedrooms property);
     bathrooms := ZillowTypes.or_null (ZillowTypes.bathrooms property);
     living_area := ZillowTypes.or_null (ZillowTypes.livingArea property);
     property_type := ZillowTypes.or_null (ZillowTypes.propertyType property);
     units := ZillowTypes.or_null (ZillowTypes.units property);
     ingestion_date := ingestionDate |}.

(** A [Map<string, V>]: its entries in insertion order, keys distinct. *)
Section JSMap.
Context {V : Type}.

(** [seen.set(k, v)]: an existing key keeps its place. *)
Fixpoint Map_set (seen : list (string * V)) (k : string) (v : V)
    : list (string * V) :=
  match seen with
  | [] => [(k, v)]
  | (k', v') :: rest =>
      if String.eqb k' k then (k', v) :: rest
      else (k', v') :: Map_set rest k v
  end.

(** [seen.values()] *)
Definition Map_values (seen : list (string * V)) : list V :=
  map snd seen.

Definition Map_keys (seen : list (string * V)) : list string :=
  map fst seen.

(** [seen.get(k)] *)
Fixpoint Map_get (seen : list (string * V)) (k : string) : option V :=
  match seen with
  | [] => None
  | (k', v) :: rest => if String.eqb k' k then Some v else Map_get rest k
  end.
End JSMap.

(** The map after the loop of [deduplicateByDetailUrl]. *)
Definition seenAfter (records : list NashvilleRental)
    : list (string * NashvilleRental) :=
  fold_left (fun seen record => Map_set seen (detail_url record) record)
    records [].

Definition deduplicateByDetailUrl (records : list NashvilleRental)
    : list NashvilleRental :=
  Map_values (seenAfter records).

(** *** Vocabulary of the properties of [deduplicateByDetailUrl] *)

(** A record with an id, a detail URL and a price, as the test suite
    builds them. *)
Definition rental (id url : string) (cents : Z) : NashvilleRental :=
  {| record_id := id; detail_url := url; longitude := None;
     latitude := None; address := None; price := Some (of_Z cents);
     bedrooms := None; bathrooms := None; living_area := None;
     property_type := None; units := None;
     ingestion_date := "2025-11-10" |}.

(** The records of a list that have a given detail URL. *)
Definition withUrl (url : string) (records : list NashvilleRental)
    : list NashvilleRental :=
  filter (fun r => String.eqb (detail_url r) url) records.

(** The distinct strings of a list, each at its first occurrence. *)
Fixpoint firstOccurrences (l : list string) : list string :=
  match l with
  | [] => []
  | x :: xs =>
      x :: filter (fun y => negb (String.eqb x y)) (firstOccurrences xs)
  end.

(** The last record of a list that has a given detail URL. *)
Fixpoint lastWith (url : string) (records : list NashvilleRental)
    : option NashvilleRental :=
  match records with
  | [] => None
  | r :: rest =>
      match lastWith url rest with
      | Some r' => Some r'
      | None => if String.eqb (detail_url r) url then Some r else None
      end
  end.

End Migrator.

(** ** Concrete inputs

    The inputs at which the properties below are instantiated. *)

Module Samples.
Import JSNumber JS ZillowTypes Fetcher.
Local Open Scope string_scope.

(** No value has a text but the strings. *)
Definition noText : value -> option string := fun _ => None.

(** Nothing sent, nothing happened. *)
Definition start : world := {| sent := 0; trace := [] |}.




(** Fails with a 500 once, then answers 404. *)
Definition errorThenNotFound : nat -> object -> outcome :=
  fun n _ =>
    match n with
    | O => AxiosError (Some 500%Z) Null
    | S _ => AxiosError (Some 404%Z) Null
    end.

(** Answers 401 to everything. *)
Definition unauthorized : nat -> object -> outcome :=
  fun _ _ => AxiosError (Some 401%Z) (Obj [("message", Str "Invalid API key")]).

(** Answers 401 to everything, with a payload whose [errors] hold
    [null]. *)
Definition unauthorizedUnreadable : nat -> object -> outcome :=
  fun _ _ => AxiosError (Some 401%Z) (Obj [("errors", Arr [Null])]).

(** Three pages, the third with an empty result set. *)
Definition threePages : list value :=
  [Obj [("results", Arr [Str "listing 1"; Str "listing 2"]);
        ("totalPages", Num (of_Z 3))];
   Obj [("results", Arr [Str "listing 3"]); ("totalPages", Num (of_Z 3))];
   Obj [("results", Arr []); ("totalPages", Num (of_Z 3))]].

(** An API that serves the given payloads as its pages 1, 2, ... and
    answers 404 beyond them. *)
Fixpoint servePage (p : number) (i : Z) (pages : list value) : outcome :=
  match pages with
  | [] => AxiosError (Some 404) Null
  | payload :: rest =>
      if SFeqb p (of_Z i) then Response payload
      else servePage p (i + 1) rest
  end.

Definition pagedApi (pages : list value) : nat -> object -> outcome :=
  fun _ requestParams =>
    match get requestParams "page" with
    | Num p => servePage p 1 pages
    | _ => AxiosError (Some 400) Null
    end.

Definition pageOf (pages : list value) (page : Z) : value :=
  nth (Z.to_nat (page - 1)) pages Null.

(** Answers 500 to everything. *)
Definition serverError : nat -> object -> outcome :=
  fun _ _ => AxiosError (Some 500%Z) Null.

(** The batch of the test suite: a record without a detail URL and a
    valid one. *)
Definition batch : list object :=
  [[("price", Num (of_Z 2000))];
   [("detailUrl", Str "https://zillow.com/property/2");
    ("price", Num (of_Z 2100))]].

(** A record with a nested mapping and a sequence. *)
Definition nested : object :=
  [("address", Obj [("street", Str "123 Main St");
                    ("city", Str "Nashville")]);
   ("tags", Arr [Str "a"; Str "b"]);
   ("price", Num (of_Z 2000))].

(** No value other than a number is converted. *)
Definition noCoercion : value -> option number := fun _ => None.

Definition duplicates : list Migrator.NashvilleRental :=
  [Migrator.rental "id1" "https://zillow.com/property/123" 200000;
   Migrator.rental "id2" "https://zillow.com/property/123" 210000;
   Migrator.rental "id3" "https://zillow.com/property/456" 180000].

Definition threeGroups : list Migrator.NashvilleRental :=
  [Migrator.rental "a1" "/a" 1; Migrator.rental "b1" "/b" 2;
   Migrator.rental "a2" "/a" 3; Migrator.rental "c1" "/c" 4;
   Migrator.rental "b2" "/b" 5; Migrator.rental "a3" "/a" 6].

(** Two properties with one detail URL and nothing else in common. *)
Definition furnished : ZillowProperty :=
  {| longitude := present (decimal (-867816) 4);
     latitude := present (decimal 361627 4);
     detailUrl := "https://zillow.com/property/123";
     price := present (of_Z 2000); bedrooms := present (of_Z 2);
     bathrooms := present (of_Z 2); livingArea := present (of_Z 1200);
     propertyType := present "APARTMENT";
     address := present "123 Main St, Nashville, TN";
     units := present [] |}.

Definition bare : ZillowProperty :=
  listing "https://zillow.com/property/123" absent.

End Samples.

(** ** Vocabulary of the properties of [augmentWithUnits] *)

Module Units.
Import JS Fetcher.
Local Open Scope string_scope.

(** The properties of a unit that [augmentWithUnits] copies. *)
Definition unitFields : list string := ["price"; "beds"; "bathrooms"].

(** The keys [ZillowPropertySchema] reads. *)
Definition schemaKeys : list string :=
  ["longitude"; "latitude"; "detailUrl"; "price"; "bedrooms"; "bathrooms";
   "livingArea"; "propertyType"; "address"; "units"].

(** [unit.name !== undefined ? unit.name : otherwise] *)
Definition defined_or (v otherwise : value) : value :=
  match v with
  | Undefined => otherwise
  | _ => v
  end.

End Units.

(** ** Vocabulary of the properties of a run *)

Module Runs.
Import Fetcher.
Local Open Scope Z_scope.

(** The events a run added: the trace of [w'] after that of [w]. *)
Definition since (w w' : world) : list event :=
  skipn (List.length (trace w)) (trace w').

Definition total (l : list Z) : Z := fold_right Z.add 0 l.

(** The world [w] with the events [t] before its own. *)
Definition prepend (t : list event) (w : world) : world :=
  {| sent := sent w; trace := (t ++ trace w)%list |}.

(** A page the loop of [iteratePages] may ask for, from [page] on: the
    safe number of an integer from [page] to [maxPages]. *)
Definition allowed (maxPages page : Z) (v : JS.value) : Prop :=
  exists p,
    page <= p <= maxPages /\
    v = JS.Num (safePageNumber (JSNumber.of_Z p)).

End Runs.

(** ** Vocabulary of the properties of [iteratePages] over what
    [fetchPage] returns *)

Module Iteration.
Import JSNumber JS Fetcher.
Local Open Scope Z_scope.

Section Turns.
Variable api : nat -> object -> outcome.
Variable ToString : value -> option string.
Variable ToNumber : value -> option number.
Variables (params : object) (maxPages rateLimitWait : Z).

(** What the loop gets for a page: [await this.fetchPage(params,
    page)], after as many attempts as it takes. *)
Definition fetched (page : Z) (w : world) : result value * world :=
  fetchPage api ToString params (of_Z page) Config.DEFAULT_RETRIES 5 w.

(** The world after a turn of the loop that yields: the page is
    fetched, its batch is yielded, and the loop waits unless the page
    is the last one allowed. *)
Definition turn (page : Z) (w : world) : world :=
  let (r, w1) := fetched page w in
  match r with
  | Return payload =>
      let w2 := emit (Yield (extractResults payload)) w1 in
      if page <? maxPages then sleep rateLimitWait w2 else w2
  | Throw _ => w1
  end.

(** The same for [k] pages in a row, from [page] on. *)
Fixpoint turns (k : nat) (page : Z) (w : world) : world :=
  match k with
  | O => w
  | S k' => turns k' (page + 1) (turn page w)
  end.

(** The [k] pages from [page] on are each fetched with a payload after
    which the iteration goes on. *)
Fixpoint goesOn (k : nat) (page : Z) (w : world) : bool :=
  match k with
  | O => true
  | S k' =>
      match fst (fetched page w) with
      | Return payload =>
          continues ToNumber page payload
          && goesOn k' (page + 1) (turn page w)
      | Throw _ => false
      end
  end.

(** The batches of these pages. *)
Fixpoint batchesOf (k : nat) (page : Z) (w : world) : list (list value) :=
  match k with
  | O => []
  | S k' =>
      match fst (fetched page w) with
      | Return payload =>
          extractResults payload :: batchesOf k' (page + 1) (turn page w)
      | Throw _ => []
      end
  end.

(** What the last turn of the loop adds after the fetch, when the page
    has results and the total-page count is reached. *)
Definition lastEvents (page : Z) (payload : value) : list event :=
  Yield (extractResults payload)
  :: (if page <? maxPages then [Sleep rateLimitWait] else []).
End Turns.

End Iteration.

(** ** The Node.js runtime: environment variables and [Error] objects *)

Module Node.
Local Open Scope string_scope.

(** [process.env]: the variables that are set, with their values. *)
Definition environment : Type := string -> option string.

(** [ToBoolean] on a [string | undefined]. *)
Definition given (s : option string) : bool :=
  match s with
  | Some s => negb (String.eqb s "")
  | None => false
  end.

(** [a || b] *)
Definition or_else (a b : option string) : option string :=
  if given a then a else b.

(** What a call that may throw [new Error(message)] gives. *)
Inductive attempt (A : Type) : Type :=
| Done (a : A)
| Failed (message : string).
Arguments Done {A} a.
Arguments Failed {A} message.

(** What a [catch] may receive: an [Error] object, or one of the errors
    of the fetcher. *)
Inductive exception : Type :=
| ErrorObject (message : string)
| Raised (e : JS.error).

(** [`${n}`] for a non-negative integer [n]. *)
Definition text (n : nat) : string :=
  NilEmpty.string_of_uint (Nat.to_uint n).

End Node.

(** ** [src/lib/config/constants.ts], the rest *)

Module Constants.
Import JSNumber JS.
Local Open Scope string_scope.

Definition BASE_PARAMS : object :=
  [("status_type", Str "ForRent");
   ("rentMinPrice", Num (of_Z 1600));
   ("rentMaxPrice", Num (of_Z 3300));
   ("bedsMin", Num (of_Z 1));
   ("bedsMax", Num (of_Z 4));
   ("sqftMin", Num (of_Z 700));
   ("sqftMax", Num (of_Z 3500))].

Definition LOCATIONS : list string :=
  ["37206, Nashville, TN"; "37216, Nashville, TN"; "37209, Nashville, TN";
   "37203, Nashville, TN"; "37210, Nashville, TN"; "37214, Nashville, TN";
   "37217, Nashville, TN"; "37204, Nashville, TN"; "37215, Nashville, TN";
   "37211, Nashville, TN"; "37207, Nashville, TN"; "37013, Nashville, TN"].

Definition BATCH_SIZE : nat := 5.

Definition ZILLOW_API_baseURL : string :=
  "https://zillow-com1.p.rapidapi.com".
Definition ZILLOW_API_host : string := "zillow-com1.p.rapidapi.com".

End Constants.

(** ** [src/lib/zillow/fetcher.ts]: the class [ZillowFetcher] *)

Module ZillowFetcher.
Import JSNumber JS ZillowTypes Fetcher Node.
Local Open Scope string_scope.

(** *** The constructor *)

(** [getAPIKey] *)
Definition getAPIKey (env : environment) : attempt string :=
  let key := or_else (env "ZILLOW_RAPIDAPI_KEY") (env "RAPIDAPI_KEY") in
  match key with
  | Some k =>
      if given key then Done k
      else Failed "Missing Zillow API key. Set ZILLOW_RAPIDAPI_KEY or RAPIDAPI_KEY environment variable."
  | None =>
      Failed "Missing Zillow API key. Set ZILLOW_RAPIDAPI_KEY or RAPIDAPI_KEY environment variable."
  end.

(** The configuration [createClient] hands to [axios.create]. *)
Record AxiosConfig : Type := {
  baseURL : string;
  x_rapidapi_key : string;
  x_rapidapi_host : string;
  timeout : Z
}.

Record instance : Type := { apiKey : string; client : AxiosConfig }.

Definition createClient (key : string) : AxiosConfig :=
  {| baseURL := Constants.ZILLOW_API_baseURL;
     x_rapidapi_key := key;
     x_rapidapi_host := Constants.ZILLOW_API_host;
     timeout := 30000 |}.

(** [new ZillowFetcher(apiKey)]: [this.apiKey = apiKey || this.getAPIKey()],
    the environment being read only when no key is passed. *)
Definition constructor (key : option string) (env : environment)
    : attempt instance :=
  let chosen :=
    match key with
    | Some k => if given key then Done k else getAPIKey env
    | None => getAPIKey env
    end in
  match chosen with
  | Done k => Done {| apiKey := k; client := createClient k |}
  | Failed message => Failed message
  end.

(** [createZillowFetcher] *)
Definition createZillowFetcher (key : option string) (env : environment)
    : attempt instance :=
  constructor key env.

(** *** [collectProperties]

    The client's world, with what [console.log] writes in its place
    among the events of the client, and what the routes write with
    [console.error] about an error they caught. *)
Inductive entry : Type :=
| Client (ev : event)
| Log (message : string)
| Report (message : string) (what : exception).

Record session : Type := { requests : nat; history : list entry }.

Definition log (message : string) (s : session) : session :=
  {| requests := requests s;
     history := (history s ++ [Log message])%list |}.

(** [n] times [console.warn]. *)
Definition warned (n : nat) (s : session) : session :=
  {| requests := requests s;
     history := (history s ++ repeat (Client Warn) n)%list |}.

Record FetchConfig : Type := {
  baseParams : object;
  locations : list string;
  maxPages : option Z;
  rateLimitWaitMs : option Z;
  retries : option Z
}.

(** [maxPages = MAX_PAGES] and [rateLimitWaitMs = RATE_LIMIT_WAIT_MS]:
    the defaults of the destructuring. *)
Definition maxPagesOf (config : FetchConfig) : Z :=
  match maxPages config with
  | Some n => n
  | None => Config.MAX_PAGES
  end.

Definition rateLimitWaitOf (config : FetchConfig) : Z :=
  match rateLimitWaitMs config with
  | Some n => n
  | None => Config.RATE_LIMIT_WAIT_MS
  end.

(** The body of [for await]: as the generator runs, each batch it
    yields is pushed onto [allRecords] and logged before the generator
    goes on. *)
Fixpoint consume (evs : list event) (allRecords : list value)
    : list entry * list value :=
  match evs with
  | [] => ([], allRecords)
  | Yield pageResults :: evs' =>
      let allRecords' := (allRecords ++ pageResults)%list in
      let (es, final) := consume evs' allRecords' in
      (Client (Yield pageResults)
       :: Log ("  Found " ++ text (List.length pageResults)
               ++ " properties (total: " ++ text (List.length allRecords')
               ++ ")")
       :: es, final)
  | ev :: evs' =>
      let (es, final) := consume evs' allRecords in
      (Client ev :: es, final)
  end.

(** [error instanceof NotFoundError]: nothing that [fetchPage] or
    [iteratePages] throws is one. *)
Definition isNotFoundError (e : error) : bool := false.

(** [Object.entries(record)] for a raw record of any kind: the entries
    of a mapping, the elements of an array and the characters of a
    string under their indices, nothing for a number or a boolean; it
    throws on [null] and [undefined].  (The characters of a string are
    its code units, which outside ASCII are not the bytes of the
    text.) *)
Definition Object_entries (record : value) : result object :=
  match record with
  | Undefined | Null => Throw TypeError
  | Obj o => Return o
  | Arr l => Return (combine (map text (seq 0 (List.length l))) l)
  | Str s =>
      let cs := list_ascii_of_string s in
      Return (combine (map text (seq 0 (List.length cs)))
                (map (fun c => Str (String c "")) cs))
  | Bool _ | Num _ => Return []
  end.

(** The records up to the first whose entries cannot be read, and
    whether there is such a record. *)
Fixpoint entriesWhile (records : list value) : list object * bool :=
  match records with
  | [] => ([], false)
  | record :: rest =>
      match Object_entries record with
      | Throw _ => ([], true)
      | Return o =>
          let (os, threw) := entriesWhile rest in (o :: os, threw)
      end
  end.

Section Collect.
Variable api : nat -> object -> outcome.
Variable ToString : value -> option string.
Variable ToNumber : value -> option number.
Variable z_number_accepts : number -> bool.

(** [recordsToProperties] on raw records of any kind. *)
Definition recordsToProperties (records : list value)
    : result (list ZillowProperty) * nat :=
  let (os, threw) := entriesWhile records in
  let (r, warnings) := Fetcher.recordsToProperties z_number_accepts os in
  match r with
  | Throw e => (Throw e, warnings)
  | Return properties =>
      if threw then (Throw TypeError, warnings)
      else (Return properties, warnings)
  end.

(** One turn of the loop over the locations: the error that leaves
    the [try], if one does, the records and the session. *)
Definition collectLocation (config : FetchConfig) (location : string)
    (allRecords : list value) (s : session)
    : option error * list value * session :=
  let params := set (baseParams config) "location" (Str location) in
  let s1 := log ("Fetching properties for " ++ location ++ "...") s in
  let (thrown, w) :=
    iteratePages api ToString ToNumber params (maxPagesOf config)
      (rateLimitWaitOf config)
      {| sent := requests s1; trace := [] |} in
  let (es, allRecords') := consume (trace w) allRecords in
  (thrown, allRecords',
   {| requests := sent w; history := (history s1 ++ es)%list |}).

Fixpoint collectLocations (config : FetchConfig) (remaining : list string)
    (allRecords : list value) (s : session)
    : option error * list value * session :=
  match remaining with
  | [] => (None, allRecords, s)
  | location :: rest =>
      match collectLocation config location allRecords s with
      | (Some e, allRecords', s') =>
          if isNotFoundError e then
            collectLocations config rest allRecords' (warned 1 s')
          else (Some e, allRecords', s')
      | (None, allRecords', s') =>
          collectLocations config rest allRecords' s'
      end
  end.

Definition collectProperties (config : FetchConfig) (s : session)
    : result (list ZillowProperty) * session :=
  match collectLocations config (locations config) [] s with
  | (Some e, _, s') => (Throw e, s')
  | (None, allRecords, s') =>
      let (r, warnings) := recordsToProperties allRecords in
      let s'' := warned warnings s' in
      match r with
      | Throw e => (Throw e, s'')
      | Return properties =>
          (Return properties,
           log ("Total properties collected: "
                ++ text (List.length properties)) s'')
      end
  end.

(** *** Vocabulary of the properties of [collectProperties] *)

(** The pages of the locations one after the other, up to the first
    error: what [collectProperties] makes the client do. *)
Fixpoint iterateLocations (config : FetchConfig) (remaining : list string)
    (w : world) : option error * world :=
  match remaining with
  | [] => (None, w)
  | location :: rest =>
      match iteratePages api ToString ToNumber
              (set (baseParams config) "location" (Str location))
              (maxPagesOf config) (rateLimitWaitOf config) w with
      | (Some e, w') => (Some e, w')
      | (None, w') => iterateLocations config rest w'
      end
  end.

End Collect.

(** The events of the client in a history. *)
Fixpoint clientEvents (h : list entry) : list event :=
  match h with
  | [] => []
  | Client ev :: h' => ev :: clientEvents h'
  | _ :: h' => clientEvents h'
  end.

(** The client's view of a session. *)
Definition clientWorld (s : session) : world :=
  {| sent := requests s; trace := clientEvents (history s) |}.

End ZillowFetcher.

(** ** [src/lib/db/migrator.ts]: the class [DatabaseMigrator], the rest *)

Module DatabaseMigrator.
Import JSNumber JS Node Migrator.
Local Open Scope string_scope.

(** What [supabaseAdmin.from(...).upsert(...).select()] resolves to: the
    rows, of which only the number is read, and the error, of which only
    the message is. *)
Record reply : Type := {
  data : option (list NashvilleRental);
  error : option string
}.

(** [data?.length || otherwise] *)
Definition lengthOr (rows : option (list NashvilleRental)) (otherwise : nat)
    : nat :=
  match rows with
  | Some (row :: rest) => List.length (row :: rest)
  | _ => otherwise
  end.

Section Supabase.
(** The database, and the date [new Date().toISOString().split('T')[0]]
    gives. *)
Variable upsert : list NashvilleRental -> reply.
Variable today : string.

(** [ingestionDate || new Date().toISOString().split('T')[0]] *)
Definition dateOf (ingestionDate : option string) : string :=
  match ingestionDate with
  | Some d => if given ingestionDate then d else today
  | None => today
  end.

(** [persistProperties]: the count it returns or the error it throws,
    and the batches it sent to the database. *)
Definition persistProperties
    (properties : list ZillowTypes.ZillowProperty)
    (ingestionDate : option string)
    : attempt nat * list (list NashvilleRental) :=
  match properties with
  | [] => (Done 0%nat, [])
  | _ :: _ =>
      let date := dateOf ingestionDate in
      let records :=
        map (fun prop => propertyToRecord prop date) properties in
      let uniqueRecords := deduplicateByDetailUrl records in
      let r := upsert uniqueRecords in
      match error r with
      | Some message =>
          (Failed ("Failed to persist properties: " ++ message),
           [uniqueRecords])
      | None =>
          (Done (lengthOr (data r) (List.length uniqueRecords)),
           [uniqueRecords])
      end
  end.
End Supabase.

Section Uppercase.
(** [String.prototype.toUpperCase], which outside ASCII is the upper
    case of Unicode. *)
Variable toUpperCase : string -> string.

(** [typeof value === 'string' ? value.toUpperCase() : value] *)
Definition uppercased (v : value) : value :=
  match v with
  | Str s => Str (toUpperCase s)
  | _ => v
  end.

(** [uppercaseRecord] *)
Definition uppercaseRecord (record : object) : object :=
  fold_left (fun acc kv => set acc (fst kv) (uppercased (snd kv)))
    record [].
End Uppercase.

End DatabaseMigrator.

(** ** [scripts/migrate-sqlite-to-supabase.ts] *)

Module MigrateScript.
Import JSNumber Node Migrator.
Local Open Scope string_scope.

Record SQLiteRow : Type := {
  RECORD_ID : option string;
  DETAILURL : string;
  LONGITUDE : option string;
  LATITUDE : option string;
  ADDRESS : option string;
  PRICE : option string;
  BEDROOMS : option string;
  BATHROOMS : option string;
  LIVINGAREA : option string;
  PROPERTYTYPE : option string;
  INGESTION_DATE : option string
}.

(** [generateRecordId] of the script. *)
Definition generateRecordId (detailUrl : string) : string :=
  Crypto.toUpperCase
    (Crypto.hex (Crypto.sha256 (Crypto.bytes_of detailUrl))).

(** [s || null] *)
Definition or_null (s : option string) : option string :=
  if given s then s else None.

Section Convert.
(** [parseFloat], and the date of the run. *)
Variable parseFloat : string -> number.
Variable today : string.

(** [parseNumber] *)
Definition parseNumber (value : option string) : option number :=
  match value with
  | Some s =>
      if negb (given value) || String.eqb s "" then None
      else
        let num := parseFloat s in
        if is_nan num then None else Some num
  | None => None
  end.

(** The price of [convertRow], in cents. *)
Definition priceInCents (price : option string) : option number :=
  if given price then
    match parseNumber price with
    | Some p => Some (Math.round (mul p (of_Z 100)))
    | None => None
    end
  else None.

(** [convertRow] *)
Definition convertRow (row : SQLiteRow) : NashvilleRental :=
  {| record_id :=
       match RECORD_ID row with
       | Some id =>
           if given (RECORD_ID row) then id
           else generateRecordId (DETAILURL row)
       | None => generateRecordId (DETAILURL row)
       end;
     detail_url := DETAILURL row;
     longitude := parseNumber (LONGITUDE row);
     latitude := parseNumber (LATITUDE row);
     address := or_null (ADDRESS row);
     price := priceInCents (PRICE row);
     bedrooms := parseNumber (BEDROOMS row);
     bathrooms := parseNumber (BATHROOMS row);
     living_area := parseNumber (LIVINGAREA row);
     property_type := or_null (PROPERTYTYPE row);
     units := None;
     ingestion_date :=
       match INGESTION_DATE row with
       | Some d => if given (INGESTION_DATE row) then d else today
       | None => today
       end |}.
End Convert.

End MigrateScript.

(** ** [src/lib/supabase/client.ts] *)

Module SupabaseClient.
Import Node.
Local Open Scope string_scope.

(** The value of a variable that is set and not empty. *)
Definition valueOf (s : option string) : option string :=
  match s with
  | Some v => if given s then Some v else None
  | None => None
  end.

Section Library.
(** [createClient(url, key)] of [@supabase/supabase-js]: the client the
    [n]-th call of the module makes, or the message of the error it
    throws (as it does for a URL that is not one of HTTP or HTTPS). *)
Variable handle : Type.
Variable createClient : nat -> string -> string -> attempt handle.

(** What the module exports. *)
Record clients : Type := {
  supabase : handle;
  supabaseAdmin : handle
}.

(** The key of the admin client: the service role key when that is set
    and not empty, and else the anonymous key. *)
Definition adminKey (env : environment) (supabaseAnonKey : string)
    : string :=
  match valueOf (env "SUPABASE_SERVICE_ROLE_KEY") with
  | Some supabaseServiceRoleKey => supabaseServiceRoleKey
  | None => supabaseAnonKey
  end.

(** The body of the module: what loading it leaves or throws, and
    whether the warning about the missing service role key was
    written. *)
Definition load (env : environment) : attempt clients * bool :=
  match valueOf (env "NEXT_PUBLIC_SUPABASE_URL") with
  | None =>
      (Failed "Missing NEXT_PUBLIC_SUPABASE_URL environment variable",
       false)
  | Some supabaseUrl =>
      match valueOf (env "NEXT_PUBLIC_SUPABASE_ANON_KEY") with
      | None =>
          (Failed
             "Missing NEXT_PUBLIC_SUPABASE_ANON_KEY environment variable",
           false)
      | Some supabaseAnonKey =>
          match createClient 0 supabaseUrl supabaseAnonKey with
          | Failed message => (Failed message, false)
          | Done supabase =>
              match valueOf (env "SUPABASE_SERVICE_ROLE_KEY") with
              | None =>
                  (match createClient 1 supabaseUrl supabaseAnonKey with
                   | Failed message => Failed message
                   | Done supabaseAdmin =>
                       Done {| supabase := supabase;
                               supabaseAdmin := supabaseAdmin |}
                   end,
                   true)
              | Some supabaseServiceRoleKey =>
                  (match
                     createClient 1 supabaseUrl supabaseServiceRoleKey
                   with
                   | Failed message => Failed message
                   | Done supabaseAdmin =>
                       Done {| supabase := supabase;
                               supabaseAdmin := supabaseAdmin |}
                   end,
                   false)
              end
          end
      end
  end.
End Library.

Arguments supabase {handle} c.
Arguments supabaseAdmin {handle} c.

End SupabaseClient.

(** ** The route handlers *)

Module Next.
(** What [NextResponse.json(body, { status })] answers. *)
Record response : Type := { status : Z; body : JS.object }.

(** [NextResponse.json(body)] *)
Definition json (body : JS.object) : response :=
  {| status := 200; body := body |}.
End Next.

(** *** [src/app/api/sync/route.ts] *)

Module SyncRoute.
Import JSNumber JS ZillowTypes Fetcher Node ZillowFetcher Next.
Local Open Scope string_scope.

(** [l.slice(i, j)] for [0 <= i <= j]. *)
Definition slice {A : Type} (l : list A) (i j : nat) : list A :=
  firstn (j - i) (skipn i l).

(** The route's own [sleep]. *)
Definition pause (ms : Z) (s : session) : session :=
  {| requests := requests s;
     history := (history s ++ [Client (Sleep ms)])%list |}.

Definition report (message : string) (what : exception) (s : session)
    : session :=
  {| requests := requests s;
     history := (history s ++ [Report message what])%list |}.

(** [`${n}`] for a count. *)
Definition count (n : nat) : value := Num (of_Z (Z.of_nat n)).

Section Route.
Variable api : nat -> object -> outcome.
Variable ToString : value -> option string.
Variable ToNumber : value -> option number.
Variable z_number_accepts : number -> bool.
Variable upsert :
  list Migrator.NashvilleRental -> DatabaseMigrator.reply.
Variable today : string.
Variable env : environment.

(** The loop over the batches of [LOCATIONS], entered at index [i];
    [fuel] bounds the turns that are left. *)
Fixpoint batches (fuel i : nat) (allProperties : list ZillowProperty)
    (s : session) : list ZillowProperty * session :=
  match fuel with
  | O => (allProperties, s)
  | S fuel' =>
      if (i <? List.length Constants.LOCATIONS)%nat then
        let batchLocations :=
          slice Constants.LOCATIONS i (i + Constants.BATCH_SIZE) in
        let s1 :=
          log ("Processing batch "
               ++ text (i / Constants.BATCH_SIZE + 1) ++ ": "
               ++ String.concat ", " batchLocations) s in
        match collectProperties api ToString ToNumber z_number_accepts
                {| baseParams := Constants.BASE_PARAMS;
                   locations := batchLocations;
                   maxPages := Some Config.MAX_PAGES;
                   rateLimitWaitMs := Some Config.RATE_LIMIT_WAIT_MS;
                   retries := None |} s1 with
        | (Return properties, s2) =>
            let s3 :=
              log ("Batch collected " ++ text (List.length properties)
                   ++ " properties") s2 in
            let s4 :=
              if (i + Constants.BATCH_SIZE
                  <? List.length Constants.LOCATIONS)%nat then
                pause Config.RATE_LIMIT_WAIT_MS
                  (log ("Waiting "
                        ++ text (Z.to_nat (Config.RATE_LIMIT_WAIT_MS / 1000))
                        ++ "s before next batch...") s3)
              else s3 in
            batches fuel' (i + Constants.BATCH_SIZE)
              (allProperties ++ properties)%list s4
        | (Throw e, s2) =>
            batches fuel' (i + Constants.BATCH_SIZE) allProperties
              (report ("Error processing batch "
                       ++ text (i / Constants.BATCH_SIZE + 1) ++ ":")
                 (Raised e) s2)
        end
      else (allProperties, s)
  end.

(** [POST]: the response, the session, and the batches sent to the
    database. *)
Definition POST (s : session)
    : response * session * list (list Migrator.NashvilleRental) :=
  match createZillowFetcher None env with
  | Failed message =>
      ({| status := 500;
          body := [("success", Bool false); ("error", Str message)] |},
       report "Sync failed:" (ErrorObject message) s, [])
  | Done fetcher =>
      let (allProperties, s1) :=
        batches (List.length Constants.LOCATIONS) 0 [] s in
      let ingestionDate := today in
      match DatabaseMigrator.persistProperties upsert today allProperties
              (Some ingestionDate) with
      | (Done persistedCount, stored) =>
          (json [("success", Bool true);
                 ("message", Str "Sync completed successfully");
                 ("collected", count (List.length allProperties));
                 ("persisted", count persistedCount);
                 ("ingestionDate", Str ingestionDate)],
           log ("Sync complete: " ++ text (List.length allProperties)
                ++ " properties collected, " ++ text persistedCount
                ++ " persisted") s1,
           stored)
      | (Failed message, stored) =>
          ({| status := 500;
              body := [("success", Bool false); ("error", Str message)] |},
           report "Sync failed:" (ErrorObject message) s1, stored)
      end
  end.
End Route.

(** *** Vocabulary of the properties of [POST] *)

(** The turns the loop over the batches takes from index [i] on. *)
Fixpoint turns (fuel i : nat) : nat :=
  match fuel with
  | O => 0
  | S fuel' =>
      if (i <? List.length Constants.LOCATIONS)%nat
      then S (turns fuel' (i + Constants.BATCH_SIZE))
      else 0
  end.

(** An answer the API gives to a key it does not accept. *)
Definition rejects (o : outcome) : bool :=
  match o with
  | AxiosError status _ => status_is status 401 || status_is status 403
  | _ => false
  end.

End SyncRoute.

(** *** [src/app/api/cron/daily-fetch/route.ts] *)

Module CronRoute.
Import JS Node Next.
Local Open Scope string_scope.

(** What [fetch(syncUrl, ...)] and then [response.json()] give: the
    request fails, or it is answered and the body is JSON or is not.  A
    failure carries the message of the error when the error is an
    [Error]. *)
Inductive fetched : Type :=
| Rejected (message : option string)
| Responded (ok : bool) (result : value)
| NotJSON (ok : bool) (message : option string).

(** [`${x}`] for a [string | undefined]. *)
Definition interpolated (x : option string) : string :=
  match x with
  | Some s => s
  | None => "undefined"
  end.

(** [error instanceof Error ? error.message : 'Unknown error occurred'] *)
Definition messageOf (message : option string) : string :=
  match message with
  | Some m => m
  | None => "Unknown error occurred"
  end.

Definition optionEqb (a : option string) (b : string) : bool :=
  match a with
  | Some s => String.eqb s b
  | None => false
  end.

Section Route.
Variable env : environment.
Variable fetch : string -> fetched.

Definition expectedAuth : string :=
  "Bearer " ++ interpolated (env "CRON_SECRET").

(** [process.env.NEXT_PUBLIC_APP_URL || 'http://localhost:3000'] *)
Definition appUrl : string :=
  match env "NEXT_PUBLIC_APP_URL" with
  | Some url =>
      if given (env "NEXT_PUBLIC_APP_URL") then url
      else "http://localhost:3000"
  | None => "http://localhost:3000"
  end.

Definition syncUrl : string := appUrl ++ "/api/sync".

Definition failure (message : string) : response :=
  {| status := 500;
     body := [("success", Bool false); ("error", Str message)] |}.

(** [GET], with the header [authorization] of the request ([null]
    when there is none): the response, and the URLs fetched.  What
    the handler writes to the console is left out. *)
Definition GET (authorization : option string)
    : response * list string :=
  if negb (optionEqb authorization expectedAuth) then
    ({| status := 401; body := [("error", Str "Unauthorized")] |}, [])
  else
    match fetch syncUrl with
    | Rejected message => (failure (messageOf message), [syncUrl])
    | NotJSON _ message => (failure (messageOf message), [syncUrl])
    | Responded ok result =>
        if negb ok then
          ({| status := 500;
              body := [("success", Bool false);
                       ("error", Str "Sync endpoint failed");
                       ("details", result)] |}, [syncUrl])
        else
          (json [("success", Bool true);
                 ("message", Str "Daily fetch completed");
                 ("syncResult", result)], [syncUrl])
    end.
End Route.

End CronRoute.

(** ** More concrete inputs *)

Module Scenarios.
Import JSNumber JS ZillowTypes Fetcher Node Samples.
Local Open Scope string_scope.

(** The numbers [z.number()] accepts: all but [NaN]. *)
Definition notNaN : number -> bool := fun n => negb (is_nan n).

(** A base record and two units, the second without beds. *)
Definition duplexBase : object :=
  [("detailUrl", Str "https://zillow.com/property/7")].

Definition duplexUnits : list value :=
  [Obj [("price", Num (of_Z 1500)); ("beds", Num (of_Z 1))];
   Obj [("price", Num (of_Z 1800))]].

Definition duplexAugmented : object :=
  [("detailUrl", Str "https://zillow.com/property/7");
   ("price_1", Num (of_Z 1500)); ("beds_1", Num (of_Z 1));
   ("price_2", Num (of_Z 1800))].

Definition duplex : object :=
  [("detailUrl", Str "https://zillow.com/property/7");
   ("units", Arr [Obj [("price", Num (of_Z 1500))]])].

(** A page after which the iteration goes on. *)
Definition firstOfMany : value :=
  Obj [("results", Arr [Str "listing 1"]); ("totalPages", Num (of_Z 3))].

(** Answers the first request, then 401 to everything. *)
Definition expiring : nat -> object -> outcome :=
  fun n _ =>
    match n with
    | O => Response firstOfMany
    | S _ => AxiosError (Some 401%Z) Null
    end.

(** Two pages with results and no page count. *)
Definition twoPages : list value :=
  [Obj [("results", Arr [Str "listing 1"; Str "listing 2"])];
   Obj [("results", Arr [Str "listing 3"])]].

(** Answers 429 once, then serves the three pages of [threePages]. *)
Definition limitedThenPaged : nat -> object -> outcome :=
  fun n requestParams =>
    match n with
    | O => AxiosError (Some 429%Z) Null
    | S _ => Samples.pagedApi Samples.threePages n requestParams
    end.

(** Serves the first page of [twoPages]; then fails with a 500 once and
    answers 404. *)
Definition pageThenNotFound : nat -> object -> outcome :=
  fun n requestParams =>
    match n with
    | O => Response (Samples.pageOf twoPages 1)
    | S O => AxiosError (Some 500%Z) Null
    | S (S _) => AxiosError (Some 404%Z) Null
    end.

(** A database that accepts every batch and returns no row. *)
Definition accepting : list Migrator.NashvilleRental -> DatabaseMigrator.reply :=
  fun _ => {| DatabaseMigrator.data := None; DatabaseMigrator.error := None |}.

(** A library that makes a client, which is the URL and the key it
    was called with, for the URLs that start with [http]. *)
Definition httpOnly (n : nat) (url key : string)
    : attempt (string * string) :=
  if String.prefix "http" url then Done (url, key)
  else Failed "Invalid supabaseUrl: Must be a valid HTTP or HTTPS URL.".

(** An environment with the URL and the anonymous key of a project. *)
Definition project : environment :=
  fun name =>
    if String.eqb name "NEXT_PUBLIC_SUPABASE_URL"
    then Some "https://project.supabase.co"
    else if String.eqb name "NEXT_PUBLIC_SUPABASE_ANON_KEY"
    then Some "anon"
    else None.

(** An environment with [RAPIDAPI_KEY] and nothing else. *)
Definition keyOnly : environment :=
  fun name => if String.eqb name "RAPIDAPI_KEY" then Some "secret" else None.

(** A reader of the two price texts of the rows below. *)
Definition readsAs : string -> number :=
  fun s =>
    if String.eqb s "2000" then of_Z 2000
    else if String.eqb s "0" then of_Z 0
    else NaN.

(** A row of the SQLite table with no record id and the price 0. *)
Definition freeRow : MigrateScript.SQLiteRow :=
  {| MigrateScript.RECORD_ID := None;
     MigrateScript.DETAILURL := "https://zillow.com/property/123";
     MigrateScript.LONGITUDE := None; MigrateScript.LATITUDE := None;
     MigrateScript.ADDRESS := Some "123 Main St";
     MigrateScript.PRICE := Some "0";
     MigrateScript.BEDROOMS := None; MigrateScript.BATHROOMS := None;
     MigrateScript.LIVINGAREA := None; MigrateScript.PROPERTYTYPE := None;
     MigrateScript.INGESTION_DATE := None |}.

End Scenarios.

(* ================================================================== *)
(** * Properties *)
(* ================================================================== *)

(** ** Binary64 facts *)

Module JSNumberFacts.
Import JSNumber.

Lemma digits2_size (p : positive) : digits2_pos p = Pos.size p.
Proof. induction p; simpl; congruence. Qed.

Lemma digits2_log2 (p : positive) :
  Zpos (digits2_pos p) = Z.succ (Z.log2 (Zpos p)).
Proof.
  destruct p as [p|p|]; simpl; rewrite ?digits2_size; lia.
Qed.

Lemma digits2_bounds (p : positive) :
  2 ^ (Zpos (digits2_pos p) - 1) <= Zpos p < 2 ^ Zpos (digits2_pos p).
Proof.
  rewrite digits2_log2.
  replace (Z.succ (Z.log2 (Zpos p)) - 1) with (Z.log2 (Zpos p)) by lia.
  apply Z.log2_spec; lia.
Qed.

Lemma digits2_unique (p : positive) (d : Z) :
  2 ^ (d - 1) <= Zpos p < 2 ^ d -> Zpos (digits2_pos p) = d.
Proof.
  intros H. rewrite digits2_log2.
  assert (0 <= d - 1).
  { destruct (Z.le_gt_cases 0 (d - 1)) as [|Hneg]; [assumption|].
    exfalso. destruct H as [_ H].
    assert (d <= 0) by lia.
    assert (2 ^ d <= 2 ^ 0) by (apply Z.pow_le_mono_r; lia).
    simpl in *. lia. }
  rewrite (Z.log2_unique (Zpos p) (d - 1)); [lia|lia|].
  replace (Z.succ (d - 1)) with d by lia. exact H.
Qed.

Lemma digits2_iter_xO (n p : positive) :
  Zpos (digits2_pos (Pos.iter xO p n)) = Zpos (digits2_pos p) + Zpos n.
Proof.
  induction n using Pos.peano_ind.
  - simpl. lia.
  - rewrite Pos.iter_succ. simpl digits2_pos. lia.
Qed.

Lemma iter_xO_value (n p : positive) :
  Zpos (Pos.iter xO p n) = Zpos p * 2 ^ Zpos n.
Proof.
  induction n using Pos.peano_ind.
  - simpl. lia.
  - rewrite Pos.iter_succ.
    change (Zpos (Pos.iter xO p n)~0) with (2 * Zpos (Pos.iter xO p n)).
    rewrite IHn, Pos2Z.inj_succ, Z.pow_succ_r by lia. ring.
Qed.

(** What validity says of a finite binary64 number. *)
Lemma valid_finite (s : bool) (m : positive) (e : Z) :
  valid (S754_finite s m e) ->
  Zpos (digits2_pos m) <= 53 /\ -1074 <= e <= 971 /\
  (Zpos (digits2_pos m) = 53 \/ e = -1074).
Proof.
  unfold valid, valid_binary, bounded, canonical_mantissa, fexp, emin,
    prec, emax.
  intros H. apply andb_true_iff in H. destruct H as [Hc Hb].
  apply Z.eqb_eq in Hc. apply Z.leb_le in Hb. lia.
Qed.

(** A canonical mantissa and exponent are left alone by rounding. *)
Lemma binary_round_aux_canonical (s : bool) (m : positive) (e : Z) :
  bounded prec emax m e = true ->
  binary_round_aux prec emax s (Zpos m) e loc_Exact = S754_finite s m e.
Proof.
  intros H. apply andb_true_iff in H. destruct H as [Hc Hb].
  unfold canonical_mantissa in Hc. apply Z.eqb_eq in Hc.
  unfold binary_round_aux, shr_fexp.
  change (Zdigits2 (Zpos m)) with (Zpos (digits2_pos m)).
  rewrite Hc, Z.sub_diag.
  cbn [shr shr_record_of_loc shr_m loc_of_shr_record round_nearest_even].
  change (Zdigits2 (Zpos m)) with (Zpos (digits2_pos m)).
  rewrite Hc, Z.sub_diag.
  cbn [shr shr_record_of_loc shr_m].
  rewrite Hb. reflexivity.
Qed.

Lemma binary_round_small (s : bool) (p : positive) :
  Zpos (digits2_pos p) <= 53 ->
  binary_round prec emax s p 0 = normal_of_pos s p.
Proof.
  intros Hd. unfold binary_round, normal_of_pos, shl_align.
  assert (Hf : fexp prec emax (Zpos (digits2_pos p) + 0)
               = Zpos (digits2_pos p) - 53).
  { unfold fexp, emin, prec, emax. lia. }
  rewrite Hf, Z.sub_0_r.
  destruct (Zpos (digits2_pos p) - 53) as [|q|q] eqn:E; try lia.
  - apply binary_round_aux_canonical.
    unfold bounded, canonical_mantissa, fexp, emin, prec, emax.
    apply andb_true_iff; split; [apply Z.eqb_eq|apply Z.leb_le]; lia.
  - apply binary_round_aux_canonical.
    unfold bounded, canonical_mantissa, fexp, emin, prec, emax.
    pose proof (digits2_iter_xO q p).
    apply andb_true_iff; split; [apply Z.eqb_eq|apply Z.leb_le]; lia.
Qed.

Lemma of_Z_pos (p : positive) :
  Zpos (digits2_pos p) <= 53 -> of_Z (Zpos p) = normal_of_pos false p.
Proof. apply binary_round_small. Qed.

Lemma of_Z_neg (p : positive) :
  Zpos (digits2_pos p) <= 53 -> of_Z (Zneg p) = normal_of_pos true p.
Proof. apply binary_round_small. Qed.



Lemma digits2_le (p q : positive) :
  (p <= q)%positive -> Zpos (digits2_pos p) <= Zpos (digits2_pos q).
Proof.
  intros H. rewrite !digits2_log2.
  assert (Z.log2 (Zpos p) <= Z.log2 (Zpos q)) by (apply Z.log2_le_mono; lia).
  lia.
Qed.

Lemma normal_of_pos_finite (s : bool) (p : positive) :
  exists m e, normal_of_pos s p = S754_finite s m e.
Proof.
  unfold normal_of_pos.
  destruct (Zpos (digits2_pos p) - 53); eauto.
Qed.

Lemma max_one_negative (m : positive) (e : Z) :
  Math.max one (S754_finite true m e) = one.
Proof. reflexivity. Qed.

(** The floor of a negative non-integral number is a negative number. *)
Lemma floor_negative (m : positive) (e : Z) :
  valid (S754_finite true m e) -> e < 0 ->
  exists m' e', Math.floor (S754_finite true m e) = S754_finite true m' e'.
Proof.
  intros Hv He. apply valid_finite in Hv. destruct Hv as (Hd & _ & _).
  unfold Math.floor. destruct (0 <=? e) eqn:E; [apply Z.leb_le in E; lia|].
  unfold signed, cond_Zopp.
  assert (Hpow : 0 < 2 ^ (- e)) by (apply Z.pow_pos_nonneg; lia).
  assert (Hlt : - Zpos m / 2 ^ (- e) < 0)
    by (apply Z.div_lt_upper_bound; lia).
  assert (Hge : - Zpos m <= - Zpos m / 2 ^ (- e))
    by (apply Z.div_le_lower_bound; nia).
  destruct (- Zpos m / 2 ^ (- e)) as [|q|q] eqn:Eq; try lia.
  rewrite of_Z_neg.
  - apply normal_of_pos_finite.
  - etransitivity; [apply (digits2_le q m)|exact Hd]. lia.
Qed.

(** A valid positive number below one has an exponent below [-52]. *)
Lemma below_one_exponent (m : positive) (e : Z) :
  valid (S754_finite false m e) ->
  ltb (S754_finite false m e) one = true -> e < -52.
Proof.
  intros Hv Hlt. apply valid_finite in Hv. destruct Hv as (Hd & He & Hn).
  unfold ltb, SFltb, one, SFcompare in Hlt.
  destruct (Z.compare_spec e (-52)) as [E|E|E]; try lia; try discriminate.
  exfalso. subst e. destruct Hn as [Hn|Hn]; [|lia].
  pose proof (digits2_bounds m) as Hb. rewrite Hn in Hb.
  rewrite Pos.compare_cont_spec in Hlt. cbn [Pos.switch_Eq] in Hlt.
  destruct (Pos.compare_spec m 4503599627370496) as [C|C|C];
    try discriminate.
  change (2 ^ (53 - 1)) with 4503599627370496 in Hb.
  destruct Hb as [Hb _]. apply Pos2Z.pos_lt_pos in C. lia.
Qed.

Lemma safePageNumber_below_one (page : number) :
  valid page -> ltb page one = true -> Fetcher.safePageNumber page = one.
Proof.
  intros Hv Hlt. unfold Fetcher.safePageNumber.
  destruct page as [s|s| |s m e].
  - reflexivity.
  - destruct s; [reflexivity|discriminate].
  - discriminate.
  - destruct s.
    + destruct (Z.ltb_spec e 0) as [He|He].
      * destruct (floor_negative m e Hv He) as (m' & e' & ->).
        apply max_one_negative.
      * unfold Math.floor. destruct (Z.leb_spec 0 e); [|lia].
        apply max_one_negative.
    + pose proof (below_one_exponent m e Hv Hlt) as He.
      apply valid_finite in Hv. destruct Hv as (Hd & _ & _).
      unfold Math.floor. destruct (Z.leb_spec 0 e); [lia|].
      unfold signed, cond_Zopp.
      rewrite Z.div_small; [reflexivity|].
      pose proof (digits2_bounds m) as Hb.
      assert (2 ^ Zpos (digits2_pos m) <= 2 ^ (- e))
        by (apply Z.pow_le_mono_r; lia).
      lia.
Qed.


(** The floor of a number that has an integral part and fractional bits:
    the integral part, normalised to the same exponent. *)
Lemma floor_fraction (s : bool) (m : positive) (e : Z) :
  valid (S754_finite s m e) -> -52 <= e < 0 ->
  (s = true -> Zpos m mod 2 ^ (- e) = 0) ->
  exists q n,
    Zpos q = Zpos m / 2 ^ (- e) /\ e = Zneg n /\
    Zpos (digits2_pos q) = 53 + e /\
    Math.floor (S754_finite s m e)
    = S754_finite s (Pos.iter xO q n) (Zneg n).
Proof.
  intros Hv He Hs. apply valid_finite in Hv. destruct Hv as (Hd & Hr & Hn).
  destruct Hn as [Hn|Hn]; [|lia].
  pose proof (digits2_bounds m) as Hb.
  set (d := Zpos (digits2_pos m)) in *.
  assert (Hj : 0 < 2 ^ (- e)) by (apply Z.pow_pos_nonneg; lia).
  assert (Hlo : 2 ^ (d - 1 + e) <= Zpos m / 2 ^ (- e)).
  { apply Z.div_le_lower_bound; [lia|]. rewrite <- Z.pow_add_r by lia.
    replace (- e + (d - 1 + e)) with (d - 1) by lia. lia. }
  assert (Hhi : Zpos m / 2 ^ (- e) < 2 ^ (d + e)).
  { apply Z.div_lt_upper_bound; [lia|]. rewrite <- Z.pow_add_r by lia.
    replace (- e + (d + e)) with d by lia. lia. }
  assert (0 < 2 ^ (d - 1 + e)) by (apply Z.pow_pos_nonneg; lia).
  destruct (Zpos m / 2 ^ (- e)) as [|q|q] eqn:Eq; try lia.
  assert (Hdq : Zpos (digits2_pos q) = d + e).
  { apply digits2_unique. replace (d + e - 1) with (d - 1 + e) by lia. lia. }
  assert (Hk : signed s m / 2 ^ (- e) = signed s q).
  { destruct s; unfold signed, cond_Zopp; [|exact Eq].
    rewrite Z.div_opp_l_z by (try apply Hs; lia). rewrite Eq. reflexivity. }
  destruct e as [|n|n]; try lia.
  exists q, n. split; [reflexivity|]. split; [reflexivity|].
  split; [lia|].
  unfold Math.floor. cbn [Z.leb Z.compare]. rewrite Hk.
  assert (Hn53 : Zpos (digits2_pos q) - 53 = Zneg n) by lia.
  destruct s; cbn [signed cond_Zopp Z.opp].
  - rewrite of_Z_neg by lia. unfold normal_of_pos. rewrite Hn53. reflexivity.
  - rewrite of_Z_pos by lia. unfold normal_of_pos. rewrite Hn53. reflexivity.
Qed.

Lemma digits2_one (q : positive) : Zpos (digits2_pos q) = 1 -> q = 1%positive.
Proof. destruct q; simpl; intros H; try reflexivity; lia. Qed.

Lemma safePageNumber_from_one (page : number) :
  valid page -> leb one page = true ->
  Fetcher.safePageNumber page = Math.floor page.
Proof.
  intros Hv Hle. unfold Fetcher.safePageNumber.
  destruct page as [s|s| |s m e]; try discriminate.
  - destruct s; [discriminate|reflexivity].
  - destruct s; [discriminate|].
    unfold leb, SFleb, one, SFcompare in Hle.
    destruct (Z.compare_spec (-52) e) as [E|E|E]; try discriminate.
    + subst e.
      destruct (floor_fraction false m (-52) Hv) as (q & n & Hq & Hn & Hdq & ->);
        [lia|discriminate|].
      apply digits2_one in Hdq. injection Hn as <-. subst q. reflexivity.
    + destruct (Z.ltb_spec e 0) as [He|He].
      * destruct (floor_fraction false m e Hv) as (q & n & Hq & Hn & Hdq & ->);
          [lia|discriminate|].
        unfold Math.max, one, SFcompare. rewrite <- Hn.
        destruct (Z.compare_spec (-52) e); try lia. reflexivity.
      * unfold Math.floor. destruct (Z.leb_spec 0 e); [|lia].
        unfold Math.max, one, SFcompare.
        destruct (Z.compare_spec (-52) e); try lia. reflexivity.
Qed.

(** [Math.floor] leaves the integers alone. *)
Lemma floor_integer (x : number) :
  valid x -> is_integer x = true -> Math.floor x = x.
Proof.
  intros Hv Hi. destruct x as [s|s| |s m e]; try reflexivity.
  unfold is_integer in Hi. apply orb_true_iff in Hi.
  destruct (Z.leb_spec 0 e) as [He|He].
  { unfold Math.floor. destruct (Z.leb_spec 0 e); [reflexivity|lia]. }
  destruct Hi as [Hi|Hi]; [discriminate|]. apply Z.eqb_eq in Hi.
  pose proof (valid_finite s m e Hv) as (Hd & Hr & Hn).
  pose proof (digits2_bounds m) as Hb.
  assert (Hj : 0 < 2 ^ (- e)) by (apply Z.pow_pos_nonneg; lia).
  assert (Hle : 2 ^ (- e) <= Zpos m).
  { apply Z.mod_divide in Hi; [|lia]. apply Z.divide_pos_le in Hi; lia. }
  assert (Hlt : - e < Zpos (digits2_pos m)).
  { apply (Z.pow_lt_mono_r_iff 2); lia. }
  destruct (floor_fraction s m e Hv) as (q & n & Hq & Hn' & Hdq & ->);
    [lia|intros _; exact Hi|].
  subst e. f_equal.
  apply Pos2Z.inj. rewrite iter_xO_value.
  rewrite Hq. change (- Zneg n) with (Zpos n).
  pose proof (Z.div_mod (Zpos m) (2 ^ Zpos n)) as Hdm.
  change (- Zneg n) with (Zpos n) in Hi. rewrite Hi in Hdm. lia.
Qed.

End JSNumberFacts.

(** ** [safePageNumber] *)

Module PageNumberFacts.
Import JSNumber Fetcher JSNumberFacts.

(** [Math.max(1, NaN)] is [NaN]: a page that is not a number is not
    clamped. *)
Lemma safePageNumber_nan : safePageNumber NaN = NaN.
Proof. reflexivity. Qed.

(** The repository's own expectations, [fetcher.test.ts]. *)
Example safePageNumber_tests :
  safePageNumber (of_Z 1) = of_Z 1 /\
  safePageNumber (of_Z 5) = of_Z 5 /\
  safePageNumber (of_Z 100) = of_Z 100 /\
  safePageNumber (of_Z (-1)) = of_Z 1 /\
  safePageNumber (of_Z (-10)) = of_Z 1 /\
  safePageNumber (of_Z 0) = of_Z 1 /\
  safePageNumber (decimal 15 1) = of_Z 1 /\
  safePageNumber (decimal 29 1) = of_Z 2.
Proof. repeat split; vm_compute; reflexivity. Qed.

(** C5, as the specification words it, fails: the page 2.9 is not an
    integer, and it is sent upstream as page 2, not as page 1. *)
Lemma safePageNumber_non_integer_not_one :
  valid (decimal 29 1) /\
  is_integer (decimal 29 1) = false /\
  safePageNumber (decimal 29 1) = of_Z 2 /\
  safePageNumber (decimal 29 1) <> one.
Proof.
  repeat split; try (vm_compute; reflexivity).
  vm_compute. discriminate.
Qed.

(** C5, amended: [safePageNumber] is [Math.max(1, Math.floor(page))].
    Every page below 1 (so every page at or below 0, and every fraction
    between 0 and 1) is sent as page 1; every page from 1 on is sent as
    its floor, so an integer page is sent unchanged and a non-integer page
    above 1 is rounded down, not coerced to 1. *)
Theorem safePageNumber_clamps (page : number) :
  valid page ->
  (ltb page one = true -> safePageNumber page = one) /\
  (leb one page = true -> safePageNumber page = Math.floor page) /\
  (leb one page = true -> is_integer page = true ->
   safePageNumber page = page).
Proof.
  intros Hv. split; [|split].
  - apply safePageNumber_below_one; assumption.
  - apply safePageNumber_from_one; assumption.
  - intros Hle Hi. rewrite safePageNumber_from_one by assumption.
    apply floor_integer; assumption.
Qed.

Lemma safePageNumber_clamps_witness :
  valid (decimal 29 1) /\
  (ltb (decimal 29 1) one = true -> safePageNumber (decimal 29 1) = one) /\
  (leb one (decimal 29 1) = true ->
   safePageNumber (decimal 29 1) = Math.floor (decimal 29 1)) /\
  (leb one (decimal 29 1) = true -> is_integer (decimal 29 1) = true ->
   safePageNumber (decimal 29 1) = decimal 29 1).
Proof.
  split; [vm_compute; reflexivity|].
  apply (safePageNumber_clamps (decimal 29 1)). vm_compute. reflexivity.
Defined.

End PageNumberFacts.

(** ** [propertyToRecord]: the price in cents *)

Module PriceFacts.
Import JSNumber ZillowTypes Migrator.
Local Open Scope string_scope.

(** The repository's own expectations, [migrator.test.ts]. *)
Example price_tests (url date : string) :
  Migrator.price (propertyToRecord (listing url (present (of_Z 2000))) date)
  = Some (of_Z 200000) /\
  Migrator.price
    (propertyToRecord (listing url (present (decimal 20005 1))) date)
  = Some (of_Z 200050) /\
  Migrator.price
    (propertyToRecord (listing url (present (decimal 159999 2))) date)
  = Some (of_Z 159999) /\
  Migrator.price (propertyToRecord (listing url null) date) = None /\
  Migrator.price (propertyToRecord (listing url absent) date) = None.
Proof. repeat split; vm_compute; reflexivity. Qed.

(** A price that is truthy is multiplied by 100 in binary64 and rounded
    by [Math.round]. *)
Lemma priceInCents_truthy (p : number) :
  truthy p = true ->
  priceInCents (present p) = Some (Math.round (mul p (of_Z 100))).
Proof. intros H. unfold priceInCents. rewrite H. reflexivity. Qed.

Lemma priceInCents_nullish :
  priceInCents null = None /\ priceInCents absent = None.
Proof. split; reflexivity. Qed.

(** The product is the binary64 one: 1.005 * 100 is 100.49999999999999,
    which rounds to 100. *)
Example price_product_is_binary64 :
  priceInCents (present (decimal 1005 3)) = Some (of_Z 100).
Proof. vm_compute. reflexivity. Qed.

(** C1 at the price 0: [round(0 * 100)] is 0, and the record stores
    [null], because [property.price ? ... : null] tests the price for
    truthiness and 0 is falsy. *)
Theorem propertyToRecord_price_zero_is_null (url date : string) :
  Math.round (mul (of_Z 0) (of_Z 100)) = of_Z 0 /\
  Migrator.price (propertyToRecord (listing url (present (of_Z 0))) date)
  = None.
Proof. split; reflexivity. Qed.

End PriceFacts.

(** ** [deduplicateByDetailUrl] *)

Module DedupFacts.
Import Migrator.
Local Open Scope string_scope.

Section MapFacts.
Context {V : Type}.
Implicit Types (seen : list (string * V)) (k : string) (v : V).

Lemma Map_set_present seen k v :
  In k (Map_keys seen) -> Map_keys (Map_set seen k v) = Map_keys seen.
Proof.
  induction seen as [|[k' v'] rest IH]; simpl; [tauto|].
  intros [->|H].
  - rewrite String.eqb_refl. reflexivity.
  - destruct (String.eqb_spec k' k); simpl; [reflexivity|].
    f_equal. apply IH, H.
Qed.

Lemma Map_set_fresh seen k v :
  ~ In k (Map_keys seen) -> Map_set seen k v = (seen ++ [(k, v)])%list.
Proof.
  induction seen as [|[k' v'] rest IH]; simpl; [reflexivity|].
  intros H. destruct (String.eqb_spec k' k); [tauto|].
  f_equal. apply IH. tauto.
Qed.

Lemma Map_get_set seen k v k' :
  Map_get (Map_set seen k v) k'
  = if String.eqb k k' then Some v else Map_get seen k'.
Proof.
  induction seen as [|[k0 v0] rest IH]; simpl.
  - reflexivity.
  - destruct (String.eqb_spec k0 k) as [->|Hne]; simpl.
    + destruct (String.eqb_spec k k'); reflexivity.
    + rewrite IH. destruct (String.eqb_spec k0 k') as [->|];
        [|reflexivity].
      destruct (String.eqb_spec k k'); [congruence|reflexivity].
Qed.

Lemma Map_get_absent seen k :
  ~ In k (Map_keys seen) -> Map_get seen k = None.
Proof.
  induction seen as [|[k' v'] rest IH]; simpl; [reflexivity|].
  intros H. destruct (String.eqb_spec k' k); [tauto|]. apply IH. tauto.
Qed.

(** With distinct keys, the values are what [get] finds under the
    keys, in the order of the keys. *)
Lemma Map_values_get seen :
  NoDup (Map_keys seen) ->
  map Some (Map_values seen) = map (Map_get seen) (Map_keys seen).
Proof.
  induction seen as [|[k v] rest IH]; simpl; [reflexivity|].
  intros H. inversion H as [|? ? Hnin Hnd]; subst.
  rewrite String.eqb_refl. f_equal.
  rewrite (IH Hnd). apply map_ext_in.
  intros k' Hk'. destruct (String.eqb_spec k k'); [congruence|reflexivity].
Qed.
End MapFacts.

Lemma firstOccurrences_In (l : list string) (k : string) :
  In k (firstOccurrences l) <-> In k l.
Proof.
  induction l as [|x xs IH]; simpl; [tauto|].
  rewrite filter_In, IH.
  destruct (String.eqb_spec x k); simpl; intuition congruence.
Qed.

Lemma firstOccurrences_NoDup (l : list string) : NoDup (firstOccurrences l).
Proof.
  induction l as [|x xs IH]; simpl; constructor.
  - rewrite filter_In, String.eqb_refl. simpl. intros [_ H]. discriminate.
  - apply NoDup_filter, IH.
Qed.

Lemma firstOccurrences_snoc (l : list string) (k : string) :
  (In k l -> firstOccurrences (l ++ [k]) = firstOccurrences l) /\
  (~ In k l ->
   firstOccurrences (l ++ [k]) = (firstOccurrences l ++ [k])%list).
Proof.
  induction l as [|x xs [IHin IHout]]; simpl.
  - split; [tauto|reflexivity].
  - split.
    + intros [->|H].
      * destruct (in_dec string_dec k xs) as [Hi|Hn].
        -- rewrite (IHin Hi). reflexivity.
        -- rewrite (IHout Hn), filter_app. simpl.
           rewrite String.eqb_refl. simpl. rewrite app_nil_r. reflexivity.
      * rewrite (IHin H). reflexivity.
    + intros H. rewrite IHout by tauto. rewrite filter_app. simpl.
      destruct (String.eqb_spec x k); [tauto|reflexivity].
Qed.

Lemma firstOccurrences_distinct (l : list string) :
  NoDup l -> firstOccurrences l = l.
Proof.
  induction 1 as [|x xs Hnin Hnd IH]; simpl; [reflexivity|].
  rewrite IH. f_equal. apply forallb_filter_id, forallb_forall.
  intros y Hy. destruct (String.eqb_spec x y); [congruence|reflexivity].
Qed.

Lemma lastWith_snoc (url : string) (records : list NashvilleRental)
    (r : NashvilleRental) :
  lastWith url (records ++ [r])
  = if String.eqb (detail_url r) url then Some r else lastWith url records.
Proof.
  induction records as [|r0 rest IH]; simpl.
  - reflexivity.
  - rewrite IH. destruct (String.eqb (detail_url r) url); reflexivity.
Qed.

Lemma lastWith_url (url : string) (records : list NashvilleRental)
    (r : NashvilleRental) :
  lastWith url records = Some r -> detail_url r = url /\ In r records.
Proof.
  induction records as [|r0 rest IH]; simpl; [discriminate|].
  destruct (lastWith url rest) as [r'|].
  - intros H. injection H as ->. destruct (IH eq_refl). tauto.
  - destruct (String.eqb_spec (detail_url r0) url); [|discriminate].
    intros H. injection H as ->. tauto.
Qed.

Lemma seenAfter_snoc (records : list NashvilleRental) (r : NashvilleRental) :
  seenAfter (records ++ [r]) = Map_set (seenAfter records) (detail_url r) r.
Proof. unfold seenAfter. rewrite fold_left_app. reflexivity. Qed.

(** The keys of the map are the distinct detail URLs in the order in
    which they were first seen. *)
Lemma seenAfter_keys (records : list NashvilleRental) :
  Map_keys (seenAfter records) = firstOccurrences (map detail_url records).
Proof.
  induction records as [|r records IH] using rev_ind; [reflexivity|].
  rewrite seenAfter_snoc, map_app. simpl.
  destruct (firstOccurrences_snoc (map detail_url records) (detail_url r))
    as [Hin Hout].
  destruct (in_dec string_dec (detail_url r) (map detail_url records))
    as [Hi|Hn].
  - rewrite (Hin Hi), Map_set_present; [exact IH|].
    rewrite IH. apply firstOccurrences_In, Hi.
  - rewrite (Hout Hn), Map_set_fresh.
    + unfold Map_keys in *. rewrite map_app, IH. reflexivity.
    + rewrite IH, firstOccurrences_In. exact Hn.
Qed.

(** Under each key the map holds the last record that has this URL. *)
Lemma seenAfter_get (records : list NashvilleRental) (url : string) :
  Map_get (seenAfter records) url = lastWith url records.
Proof.
  induction records as [|r records IH] using rev_ind; [reflexivity|].
  rewrite seenAfter_snoc, Map_get_set, lastWith_snoc, IH. reflexivity.
Qed.

(** The result, entry by entry. *)
Lemma deduplicate_characterised (records : list NashvilleRental) :
  map Some (deduplicateByDetailUrl records)
  = map (fun url => lastWith url records)
      (firstOccurrences (map detail_url records)).
Proof.
  unfold deduplicateByDetailUrl.
  rewrite Map_values_get.
  - rewrite seenAfter_keys. apply map_ext. intros url. apply seenAfter_get.
  - rewrite seenAfter_keys. apply firstOccurrences_NoDup.
Qed.

Lemma deduplicate_urls (records : list NashvilleRental) :
  map detail_url (deduplicateByDetailUrl records)
  = firstOccurrences (map detail_url records).
Proof.
  pose proof (deduplicate_characterised records) as H.
  assert (G : forall (out : list NashvilleRental) (urls : list string),
             map Some out = map (fun url => lastWith url records) urls ->
             map detail_url out = urls).
  { induction out as [|r out IHo]; intros [|u urls] E; simpl in *;
      try discriminate; [reflexivity|].
    injection E as E1 E2. symmetry in E1. apply lastWith_url in E1.
    f_equal; [tauto|]. apply IHo, E2. }
  apply G, H.
Qed.

Lemma deduplicate_last (records : list NashvilleRental) (r : NashvilleRental) :
  In r (deduplicateByDetailUrl records) ->
  lastWith (detail_url r) records = Some r.
Proof.
  intros Hin.
  apply (in_map Some) in Hin. rewrite deduplicate_characterised in Hin.
  apply in_map_iff in Hin. destruct Hin as (url & Hl & _).
  destruct (lastWith_url _ _ _ Hl) as [<- _]. exact Hl.
Qed.

Lemma deduplicate_distinct (records : list NashvilleRental) :
  NoDup (map detail_url records) -> deduplicateByDetailUrl records = records.
Proof.
  unfold deduplicateByDetailUrl.
  induction records as [|r records IH] using rev_ind; [reflexivity|].
  rewrite map_app. simpl. intros Hnd.
  apply NoDup_remove in Hnd. rewrite app_nil_r in Hnd.
  destruct Hnd as [Hnd Hnin].
  rewrite seenAfter_snoc, Map_set_fresh.
  - unfold Map_values in *. rewrite map_app, (IH Hnd). reflexivity.
  - rewrite seenAfter_keys, firstOccurrences_In. exact Hnin.
Qed.


Lemma withUrl_unique (url : string) (out : list NashvilleRental) :
  NoDup (map detail_url out) -> In url (map detail_url out) ->
  List.length (withUrl url out) = 1%nat.
Proof.
  unfold withUrl.
  induction out as [|r out IH]; simpl; [tauto|].
  intros Hnd Hin. inversion Hnd as [|? ? Hnin Hnd']; subst.
  destruct (String.eqb_spec (detail_url r) url) as [E|E].
  - simpl. f_equal. rewrite <- E in *.
    assert (F : filter (fun r0 => String.eqb (detail_url r0) (detail_url r)) out
                = []); [|rewrite F; reflexivity].
    clear - Hnin. induction out as [|r1 out IH]; simpl; [reflexivity|].
    simpl in Hnin.
    destruct (String.eqb_spec (detail_url r1) (detail_url r)); [tauto|].
    apply IH. tauto.
  - apply IH; [assumption|]. destruct Hin; [contradiction|assumption].
Qed.

(** The repository's own expectation, [migrator.test.ts]: the second of
    two records of one URL wins, at the place of the first. *)
Example deduplicate_test :
  deduplicateByDetailUrl
    [rental "id1" "https://zillow.com/property/123" 2000;
     rental "id2" "https://zillow.com/property/123" 2100;
     rental "id3" "https://zillow.com/property/456" 1800]
  = [rental "id2" "https://zillow.com/property/123" 2100;
     rental "id3" "https://zillow.com/property/456" 1800].
Proof. reflexivity. Qed.

(** C2: [deduplicateByDetailUrl] keeps exactly one record for each detail
    URL of its input, namely the last record of the input that has this
    URL; an input without duplicate URLs is returned as it is, so with its
    length; the empty input gives the empty output. *)
Theorem deduplicate_keeps_last (records : list NashvilleRental) :
  NoDup (map detail_url (deduplicateByDetailUrl records)) /\
  (forall url,
      In url (map detail_url records) ->
      List.length (withUrl url (deduplicateByDetailUrl records)) = 1%nat) /\
  (forall url,
      In url (map detail_url (deduplicateByDetailUrl records)) ->
      In url (map detail_url records)) /\
  (forall r,
      In r (deduplicateByDetailUrl records) ->
      lastWith (detail_url r) records = Some r) /\
  (NoDup (map detail_url records) ->
   deduplicateByDetailUrl records = records /\
   List.length (deduplicateByDetailUrl records) = List.length records) /\
  deduplicateByDetailUrl [] = [].
Proof.
  assert (Hnd : NoDup (map detail_url (deduplicateByDetailUrl records))).
  { rewrite deduplicate_urls. apply firstOccurrences_NoDup. }
  split; [exact Hnd|]. split; [|split; [|split; [|split]]].
  - intros url Hin. apply withUrl_unique; [exact Hnd|].
    rewrite deduplicate_urls. apply firstOccurrences_In, Hin.
  - intros url. rewrite deduplicate_urls. apply firstOccurrences_In.
  - apply deduplicate_last.
  - intros H. rewrite (deduplicate_distinct records H). tauto.
  - reflexivity.
Qed.

(** C10: the output of [deduplicateByDetailUrl] lists the distinct detail
    URLs of the input in the order of their first occurrences, and holds
    at the place of each URL the last record of the input that has it:
    setting a key of the map again changes its value and not its place. *)
Theorem deduplicate_first_seen_order (records : list NashvilleRental) :
  map detail_url (deduplicateByDetailUrl records)
  = firstOccurrences (map detail_url records) /\
  map Some (deduplicateByDetailUrl records)
  = map (fun url => lastWith url records)
      (firstOccurrences (map detail_url records)).
Proof.
  split; [apply deduplicate_urls|apply deduplicate_characterised].
Qed.

(** Three groups of duplicates: the winners stand where their URLs were
    first seen. *)
Example deduplicate_order_example :
  deduplicateByDetailUrl
    [rental "a1" "/a" 1; rental "b1" "/b" 2; rental "a2" "/a" 3;
     rental "c1" "/c" 4; rental "b2" "/b" 5; rental "a3" "/a" 6]
  = [rental "a3" "/a" 6; rental "b2" "/b" 5; rental "c1" "/c" 4].
Proof. reflexivity. Qed.

End DedupFacts.

(** ** [flattenMapping] *)

Module FlattenFacts.
Import JSNumber JS Fetcher.
Local Open Scope string_scope.

(** *** Own properties *)

Lemma has_In (o : object) (k : string) : has o k = true <-> In k (keys o).
Proof.
  unfold has, keys. rewrite existsb_exists, in_map_iff. split.
  - intros [kv [Hin E]]. apply String.eqb_eq in E. exists kv. tauto.
  - intros [kv [E Hin]]. exists kv. split; [exact Hin|].
    apply String.eqb_eq, E.
Qed.

Lemma has_false (o : object) (k : string) :
  has o k = false <-> ~ In k (keys o).
Proof. rewrite <- has_In. destruct (has o k); intuition congruence. Qed.

Lemma has_app (a b : object) (k : string) :
  has (a ++ b)%list k = has a k || has b k.
Proof. apply existsb_app. Qed.

Lemma keys_app (a b : object) : keys (a ++ b)%list = (keys a ++ keys b)%list.
Proof. apply map_app. Qed.

Lemma get_app (a b : object) (k : string) :
  get (a ++ b)%list k = if has a k then get a k else get b k.
Proof.
  induction a as [|[k' v'] a IH]; simpl; [reflexivity|].
  destruct (String.eqb k' k); simpl; [reflexivity|exact IH].
Qed.

Lemma get_replace_same (o : object) (k : string) (v : value) :
  In k (keys o) -> get (replace o k v) k = v.
Proof.
  induction o as [|[k' v'] o IH]; simpl; [tauto|]. intros Hin.
  destruct (String.eqb_spec k' k) as [->|Hne]; simpl.
  - rewrite String.eqb_refl. reflexivity.
  - destruct (String.eqb_spec k' k); [contradiction|]. apply IH.
    destruct Hin; [contradiction|assumption].
Qed.

Lemma get_replace_other (o : object) (k k' : string) (v : value) :
  k <> k' -> get (replace o k v) k' = get o k'.
Proof.
  intros Hne. induction o as [|[k0 v0] o IH]; simpl; [reflexivity|].
  destruct (String.eqb_spec k0 k) as [->|Hne0]; simpl.
  - destruct (String.eqb_spec k k'); [contradiction|reflexivity].
  - rewrite IH. reflexivity.
Qed.

Lemma keys_replace (o : object) (k : string) (v : value) :
  keys (replace o k v) = keys o.
Proof.
  unfold keys. induction o as [|[k0 v0] o IH]; simpl; [reflexivity|].
  destruct (String.eqb k0 k); simpl; [reflexivity|]. f_equal. exact IH.
Qed.

Lemma has_replace (o : object) (k k' : string) (v : value) :
  has (replace o k v) k' = has o k'.
Proof.
  destruct (has o k') eqn:E.
  - apply has_In. rewrite keys_replace. apply has_In, E.
  - apply has_false. rewrite keys_replace. apply has_false, E.
Qed.

Lemma replace_replace (o : object) (k : string) (v v' : value) :
  replace (replace o k v) k v' = replace o k v'.
Proof.
  induction o as [|[k0 v0] o IH]; simpl; [reflexivity|].
  destruct (String.eqb_spec k0 k) as [->|Hne]; simpl.
  - rewrite String.eqb_refl. reflexivity.
  - destruct (String.eqb_spec k0 k); [contradiction|]. f_equal. exact IH.
Qed.

Lemma replace_comm (o : object) (k k1 : string) (v v1 : value) :
  k <> k1 ->
  replace (replace o k1 v1) k v = replace (replace o k v) k1 v1.
Proof.
  intros Hne. induction o as [|[k0 v0] o IH]; simpl; [reflexivity|].
  destruct (String.eqb_spec k0 k1) as [E1|N1];
    destruct (String.eqb_spec k0 k) as [E0|N0]; simpl.
  - congruence.
  - destruct (String.eqb_spec k0 k); [contradiction|].
    destruct (String.eqb_spec k0 k1); [reflexivity|contradiction].
  - destruct (String.eqb_spec k0 k); [|contradiction].
    destruct (String.eqb_spec k0 k1); [contradiction|reflexivity].
  - destruct (String.eqb_spec k0 k); [contradiction|].
    destruct (String.eqb_spec k0 k1); [contradiction|].
    f_equal. exact IH.
Qed.

Lemma replace_app_out (a b : object) (k : string) (v : value) :
  has a k = false -> replace (a ++ b)%list k v = (a ++ replace b k v)%list.
Proof.
  induction a as [|[k0 v0] a IH]; simpl; [reflexivity|].
  destruct (String.eqb k0 k); simpl; [discriminate|].
  intros H. f_equal. apply IH, H.
Qed.

(** *** The place of a new property *)

Lemma create_split (o : object) (k : string) (v : value) :
  exists a b, o = (a ++ b)%list /\ create o k v = (a ++ (k, v) :: b)%list.
Proof.
  exists (firstn (slot o k) o), (skipn (slot o k) o).
  split; [symmetry; apply firstn_skipn|reflexivity].
Qed.

Lemma length_replace (o : object) (k : string) (v : value) :
  List.length (replace o k v) = List.length o.
Proof.
  rewrite <- (length_map fst (replace o k v)), <- (length_map fst o).
  fold (keys (replace o k v)). fold (keys o).
  rewrite keys_replace. reflexivity.
Qed.

Lemma slot_replace (o : object) (k k' : string) (v : value) :
  slot (replace o k' v) k = slot o k.
Proof.
  unfold slot. destruct (arrayIndex k) as [n|]; [|apply length_replace].
  induction o as [|[k0 v0] o IH]; simpl; [reflexivity|].
  destruct (String.eqb k0 k'); simpl; [reflexivity|].
  destruct (arrayIndex k0) as [m|]; [|reflexivity].
  destruct (m <? n)%N; [f_equal; exact IH|reflexivity].
Qed.

Lemma replace_create (o : object) (k k1 : string) (v v1 : value) :
  k <> k1 ->
  replace (create o k1 v1) k v = create (replace o k v) k1 v1.
Proof.
  intros Hne. unfold create. rewrite slot_replace.
  generalize (slot o k1) as i.
  induction o as [|[k0 v0] o IH]; intros [|i]; simpl.
  - destruct (String.eqb_spec k1 k); [congruence|reflexivity].
  - destruct (String.eqb_spec k1 k); [congruence|reflexivity].
  - destruct (String.eqb_spec k1 k); [congruence|reflexivity].
  - destruct (String.eqb k0 k); simpl; [reflexivity|].
    f_equal. apply IH.
Qed.

(** An array index is the numeral of one number only. *)
Lemma arrayIndex_inj (k k' : string) (n : N) :
  arrayIndex k = Some n -> arrayIndex k' = Some n -> k = k'.
Proof.
  unfold arrayIndex.
  destruct (NilEmpty.uint_of_string k) as [d|]; [|discriminate].
  destruct (NilEmpty.uint_of_string k') as [d'|]; [|discriminate].
  destruct (String.eqb_spec
              (NilEmpty.string_of_uint (N.to_uint (N.of_uint d))) k)
    as [E|]; [|discriminate].
  destruct (String.eqb_spec
              (NilEmpty.string_of_uint (N.to_uint (N.of_uint d'))) k')
    as [E'|]; [|discriminate].
  simpl.
  destruct (N.of_uint d <? 4294967295)%N; [|discriminate].
  destruct (N.of_uint d' <? 4294967295)%N; [|discriminate].
  intros H H'. injection H as H. injection H' as H'.
  rewrite <- E, <- E', H, H'. reflexivity.
Qed.

(** How the place of an index is found, entry by entry. *)
Lemma create_index_cons (o : object) (k k0 : string) (v v0 : value) (n : N) :
  arrayIndex k = Some n ->
  create ((k0, v0) :: o) k v
  = match arrayIndex k0 with
    | Some m =>
        if (m <? n)%N then (k0, v0) :: create o k v
        else (k, v) :: (k0, v0) :: o
    | None => (k, v) :: (k0, v0) :: o
    end.
Proof.
  intros E. unfold create, slot. rewrite E. simpl.
  destruct (arrayIndex k0) as [m|]; [|reflexivity].
  destruct (m <? n)%N; reflexivity.
Qed.

Lemma create_nil (k : string) (v : value) :
  create [] k v = [(k, v)].
Proof.
  unfold create, slot. destruct (arrayIndex k); reflexivity.
Qed.

Lemma create_other (o : object) (k : string) (v : value) :
  arrayIndex k = None -> create o k v = (o ++ [(k, v)])%list.
Proof.
  intros E. unfold create, slot. rewrite E, firstn_all, skipn_all.
  reflexivity.
Qed.

(** An index takes its place whatever was created before it. *)
Lemma create_create (o : object) (k k1 : string) (v v1 : value) (n : N) :
  k <> k1 -> arrayIndex k = Some n ->
  create (create o k1 v1) k v = create (create o k v) k1 v1.
Proof.
  intros Hne E. destruct (arrayIndex k1) as [m|] eqn:E1.
  - assert (Hnm : n <> m).
    { intros ->. apply Hne. eapply arrayIndex_inj; eassumption. }
    induction o as [|[k0 v0] o IH].
    + rewrite !create_nil.
      rewrite (create_index_cons [] k k1 v v1 n E), E1.
      rewrite (create_index_cons [] k1 k v1 v m E1), E.
      rewrite !create_nil.
      destruct (N.ltb_spec m n); destruct (N.ltb_spec n m);
        try reflexivity; lia.
    + rewrite (create_index_cons o k1 k0 v1 v0 m E1).
      rewrite (create_index_cons o k k0 v v0 n E).
      destruct (arrayIndex k0) as [p|] eqn:E0.
      * destruct (N.ltb_spec p m) as [Hpm|Hpm];
          destruct (N.ltb_spec p n) as [Hpn|Hpn].
        -- rewrite (create_index_cons _ k k0 v v0 n E), E0.
           rewrite (create_index_cons _ k1 k0 v1 v0 m E1), E0.
           destruct (N.ltb_spec p m); [|lia].
           destruct (N.ltb_spec p n); [|lia].
           f_equal. exact IH.
        -- rewrite (create_index_cons _ k k0 v v0 n E), E0.
           rewrite (create_index_cons _ k1 k v1 v m E1), E.
           destruct (N.ltb_spec p n); [lia|].
           destruct (N.ltb_spec n m); [|lia].
           rewrite (create_index_cons _ k1 k0 v1 v0 m E1), E0.
           destruct (N.ltb_spec p m); [|lia]. reflexivity.
        -- rewrite (create_index_cons _ k k1 v v1 n E), E1.
           rewrite (create_index_cons _ k1 k0 v1 v0 m E1), E0.
           destruct (N.ltb_spec m n); [|lia].
           destruct (N.ltb_spec p m); [lia|].
           rewrite (create_index_cons _ k k0 v v0 n E), E0.
           destruct (N.ltb_spec p n); [|lia]. reflexivity.
        -- rewrite (create_index_cons _ k k1 v v1 n E), E1.
           rewrite (create_index_cons _ k1 k v1 v m E1), E.
           rewrite (create_index_cons _ k k0 v v0 n E), E0.
           rewrite (create_index_cons _ k1 k0 v1 v0 m E1), E0.
           destruct (N.ltb_spec p n); [lia|].
           destruct (N.ltb_spec p m); [lia|].
           destruct (N.ltb_spec m n); destruct (N.ltb_spec n m);
             try reflexivity; lia.
      * rewrite (create_index_cons _ k k1 v v1 n E), E1.
        rewrite (create_index_cons _ k1 k v1 v m E1), E.
        rewrite (create_index_cons _ k k0 v v0 n E), E0.
        rewrite (create_index_cons _ k1 k0 v1 v0 m E1), E0.
        destruct (N.ltb_spec m n); destruct (N.ltb_spec n m);
          try reflexivity; lia.
  - rewrite (create_other o k1 v1 E1), (create_other _ k1 v1 E1).
    induction o as [|[k0 v0] o IH].
    + rewrite create_nil. simpl.
      rewrite (create_index_cons [] k k1 v v1 n E), E1. reflexivity.
    + simpl. rewrite !(create_index_cons _ k k0 v v0 n E).
      destruct (arrayIndex k0) as [p|]; [|reflexivity].
      destruct (p <? n)%N; [|reflexivity].
      simpl. f_equal. exact IH.
Qed.

(** *** Assignment *)

Lemma set_present (o : object) (k : string) (v : value) :
  In k (keys o) -> set o k v = replace o k v.
Proof. intros H. apply has_In in H. unfold set. rewrite H. reflexivity. Qed.

Lemma set_prototype (o : object) (v : value) :
  ~ In "__proto__" (keys o) -> set o "__proto__" v = o.
Proof. intros H. apply has_false in H. unfold set. rewrite H. reflexivity. Qed.

Lemma set_absent (o : object) (k : string) (v : value) :
  ~ In k (keys o) -> k <> "__proto__" -> set o k v = create o k v.
Proof.
  intros H Hk. apply has_false in H. unfold set. rewrite H.
  destruct (String.eqb_spec k "__proto__"); [contradiction|reflexivity].
Qed.

Lemma set_cases (o : object) (k : string) (v : value) :
  (In k (keys o) /\ set o k v = replace o k v) \/
  (~ In k (keys o) /\ k = "__proto__" /\ set o k v = o) \/
  (~ In k (keys o) /\ k <> "__proto__" /\ set o k v = create o k v).
Proof.
  destruct (has o k) eqn:H.
  - left. apply has_In in H. split; [exact H|apply set_present, H].
  - right. apply has_false in H.
    destruct (String.eqb_spec k "__proto__") as [->|Hk].
    + left. split; [exact H|]. split; [reflexivity|apply set_prototype, H].
    + right. split; [exact H|]. split; [exact Hk|apply set_absent; assumption].
Qed.

Lemma get_set_same (o : object) (k : string) (v : value) :
  k <> "__proto__" -> get (set o k v) k = v.
Proof.
  intros Hk.
  destruct (set_cases o k v) as [[Hin ->]|[[_ [E _]]|[Hnin [_ ->]]]].
  - apply get_replace_same, Hin.
  - contradiction.
  - destruct (create_split o k v) as (a & b & Eo & ->).
    apply has_false in Hnin. rewrite Eo, has_app in Hnin.
    apply orb_false_iff in Hnin. destruct Hnin as [Ha _].
    rewrite get_app, Ha. simpl. rewrite String.eqb_refl. reflexivity.
Qed.

Lemma get_set_other (o : object) (k k' : string) (v : value) :
  k <> k' -> get (set o k v) k' = get o k'.
Proof.
  intros Hne.
  destruct (set_cases o k v) as [[_ ->]|[[_ [_ ->]]|[_ [_ ->]]]].
  - apply get_replace_other, Hne.
  - reflexivity.
  - destruct (create_split o k v) as (a & b & Eo & ->).
    rewrite Eo, !get_app. destruct (has a k'); [reflexivity|].
    simpl. destruct (String.eqb_spec k k'); [contradiction|reflexivity].
Qed.

Lemma keys_create (o : object) (k k' : string) (v : value) :
  In k' (keys (create o k v)) <-> k' = k \/ In k' (keys o).
Proof.
  destruct (create_split o k v) as (a & b & Eo & ->).
  rewrite Eo, !keys_app. simpl. rewrite !in_app_iff. simpl.
  intuition congruence.
Qed.

Lemma keys_set_incl (o : object) (k k' : string) (v : value) :
  In k' (keys o) -> In k' (keys (set o k v)).
Proof.
  intros H.
  destruct (set_cases o k v) as [[_ ->]|[[_ [_ ->]]|[_ [_ ->]]]].
  - rewrite keys_replace. exact H.
  - exact H.
  - apply keys_create. right. exact H.
Qed.

Lemma keys_set_inv (o : object) (k k' : string) (v : value) :
  In k' (keys (set o k v)) -> k' = k \/ In k' (keys o).
Proof.
  destruct (set_cases o k v) as [[_ ->]|[[_ [_ ->]]|[_ [_ ->]]]].
  - rewrite keys_replace. tauto.
  - tauto.
  - apply keys_create.
Qed.

Lemma keys_set (o : object) (k k' : string) (v : value) :
  k <> "__proto__" ->
  In k' (keys (set o k v)) <-> k' = k \/ In k' (keys o).
Proof.
  intros Hk. split; [apply keys_set_inv|].
  intros [->|H]; [|apply keys_set_incl, H].
  destruct (set_cases o k v) as [[Hin ->]|[[_ [E _]]|[_ [_ ->]]]].
  - rewrite keys_replace. exact Hin.
  - contradiction.
  - apply keys_create. left. reflexivity.
Qed.

Lemma set_no_prototype (o : object) (k : string) (v : value) :
  ~ In "__proto__" (keys o) -> ~ In "__proto__" (keys (set o k v)).
Proof.
  intros H Hin.
  destruct (set_cases o k v) as [[_ E]|[[_ [_ E]]|[_ [Hk E]]]];
    rewrite E in Hin.
  - rewrite keys_replace in Hin. contradiction.
  - contradiction.
  - apply keys_create in Hin. destruct Hin; [congruence|contradiction].
Qed.

Lemma set_fresh (o : object) (k : string) (v : value) :
  ~ In k (keys o) -> k <> "__proto__" -> arrayIndex k = None ->
  set o k v = (o ++ [(k, v)])%list.
Proof.
  intros H Hk E. rewrite set_absent by assumption. apply create_other, E.
Qed.

Lemma replace_flat (o : object) (k : string) (v : value) :
  flat o -> is_mapping v = false -> flat (replace o k v).
Proof.
  unfold flat. intros Ho Hv.
  induction o as [|[k' v'] o IH]; simpl; [constructor|].
  inversion Ho; subst. destruct (String.eqb k' k); constructor; auto.
Qed.

Lemma set_flat (o : object) (k : string) (v : value) :
  flat o -> is_mapping v = false -> flat (set o k v).
Proof.
  intros Ho Hv.
  destruct (set_cases o k v) as [[_ ->]|[[_ [_ ->]]|[_ [_ ->]]]].
  - apply replace_flat; assumption.
  - exact Ho.
  - destruct (create_split o k v) as (a & b & Eo & ->).
    unfold flat in *. rewrite Eo in Ho. apply Forall_app in Ho.
    destruct Ho as [Ha Hb]. apply Forall_app. split; [exact Ha|].
    constructor; [exact Hv|exact Hb].
Qed.

Lemma set_NoDup (o : object) (k : string) (v : value) :
  NoDup (keys o) -> NoDup (keys (set o k v)).
Proof.
  intros H.
  destruct (set_cases o k v) as [[_ ->]|[[_ [_ ->]]|[Hnin [_ ->]]]].
  - rewrite keys_replace. exact H.
  - exact H.
  - destruct (create_split o k v) as (a & b & Eo & ->).
    subst o. rewrite keys_app in H, Hnin. rewrite keys_app. simpl.
    apply (NoDup_Add (Add_app k (keys a) (keys b))). split; assumption.
Qed.

Lemma set_set_same (o : object) (k : string) (v v' : value) :
  set (set o k v) k v' = set o k v'.
Proof.
  destruct (set_cases o k v) as [[Hin E]|[[Hnin [Hk E]]|[Hnin [Hk E]]]];
    rewrite E.
  - rewrite set_present by (rewrite keys_replace; exact Hin).
    rewrite replace_replace. symmetry. apply set_present, Hin.
  - reflexivity.
  - rewrite set_present by (apply keys_create; left; reflexivity).
    rewrite (set_absent o k v') by assumption.
    unfold create. apply has_false in Hnin.
    rewrite <- (firstn_skipn (slot o k) o), has_app in Hnin.
    apply orb_false_iff in Hnin. destruct Hnin as [Ha _].
    rewrite replace_app_out by exact Ha. simpl.
    rewrite String.eqb_refl. reflexivity.
Qed.

Lemma placed_set (o : object) (k k1 : string) (v1 : value) :
  placed o k -> placed (set o k1 v1) k.
Proof.
  intros [H|H]; [left; apply keys_set_incl, H|right; exact H].
Qed.

(** Two assignments to different keys commute unless both create a
    property that goes last: an own property keeps its place, an index
    has its place among the indices, and nothing is created under
    [__proto__]. *)
Lemma set_set_other (o : object) (k k1 : string) (v v1 : value) :
  k <> k1 -> placed o k ->
  set (set o k1 v1) k v = set (set o k v) k1 v1.
Proof.
  intros Hne Hp.
  destruct (set_cases o k v) as [[Hin E]|[[Hnin [Hk E]]|[Hnin [Hk E]]]];
    rewrite E.
  - rewrite (set_present (set o k1 v1) k v) by (apply keys_set_incl, Hin).
    destruct (set_cases o k1 v1)
      as [[Hin1 E1]|[[Hnin1 [Hk1 E1]]|[Hnin1 [Hk1 E1]]]]; rewrite E1.
    + rewrite set_present by (rewrite keys_replace; exact Hin1).
      apply replace_comm, Hne.
    + subst k1. rewrite set_prototype; [reflexivity|].
      rewrite keys_replace. exact Hnin1.
    + rewrite set_absent;
        [|rewrite keys_replace; exact Hnin1|exact Hk1].
      apply replace_create, Hne.
  - subst k.
    rewrite set_prototype.
    + reflexivity.
    + intros Hin. apply keys_set_inv in Hin.
      destruct Hin; [congruence|contradiction].
  - destruct Hp as [Hin|[Hidx|Hk']]; [contradiction| |contradiction].
    destruct (arrayIndex k) as [n|] eqn:En; [clear Hidx|congruence].
    rewrite (set_absent (set o k1 v1) k v);
      [|intros Hin; apply keys_set_inv in Hin;
        destruct Hin; [congruence|contradiction]|exact Hk].
    destruct (set_cases o k1 v1)
      as [[Hin1 E1]|[[Hnin1 [Hk1 E1]]|[Hnin1 [Hk1 E1]]]]; rewrite E1.
    + rewrite set_present by (apply keys_create; right; exact Hin1).
      symmetry. apply replace_create. congruence.
    + subst k1. rewrite set_prototype; [reflexivity|].
      intros Hin. apply keys_create in Hin.
      destruct Hin; [congruence|contradiction].
    + rewrite set_absent;
        [|intros Hin; apply keys_create in Hin;
          destruct Hin; [congruence|contradiction]|exact Hk1].
      apply (create_create o k k1 v v1 n); assumption.
Qed.

Lemma assign_app (t l1 l2 : object) :
  assign t (l1 ++ l2)%list = assign (assign t l1) l2.
Proof. unfold assign. apply fold_left_app. Qed.

Lemma assign_cons (t l : object) (k : string) (v : value) :
  assign t ((k, v) :: l) = assign (set t k v) l.
Proof. reflexivity. Qed.

Lemma assign_NoDup (l t : object) :
  NoDup (keys t) -> NoDup (keys (assign t l)).
Proof.
  revert t. induction l as [|[k v] l IH]; intros t H; [exact H|].
  apply IH, set_NoDup, H.
Qed.

Lemma assign_no_prototype (l t : object) :
  ~ In "__proto__" (keys t) -> ~ In "__proto__" (keys (assign t l)).
Proof.
  revert t. induction l as [|[k v] l IH]; intros t H; [exact H|].
  apply IH, set_no_prototype, H.
Qed.

Lemma keys_assign_inv (l t : object) (k : string) :
  In k (keys (assign t l)) -> In k (keys t) \/ In k (keys l).
Proof.
  revert t. induction l as [|[k1 v1] l IH]; intros t H; [tauto|].
  rewrite assign_cons in H. apply IH in H. simpl.
  destruct H as [H|H]; [|tauto].
  apply keys_set_inv in H. intuition.
Qed.

Lemma assign_then_set (s : object) (k : string) (v : value) :
  ~ In k (keys s) ->
  forall o, placed o k ->
    set (assign o s) k v = assign (set o k v) s.
Proof.
  induction s as [|[k1 v1] s IH]; intros Hnin o Hin; [reflexivity|].
  rewrite !assign_cons. simpl in Hnin.
  rewrite IH; [|tauto|apply placed_set, Hin].
  rewrite set_set_other; [reflexivity|intuition congruence|exact Hin].
Qed.

Lemma assign_replace_source (s : object) (k : string) (v : value) :
  NoDup (keys s) -> In k (keys s) -> k <> "__proto__" ->
  forall t, assign t (replace s k v) = set (assign t s) k v.
Proof.
  intros Hnd Hin Hk.
  induction s as [|[k0 v0] s IH]; intros t; [destruct Hin|].
  simpl in Hnd, Hin.
  inversion Hnd as [|? ? Hnin Hnd']; subst.
  rewrite assign_cons. cbn [replace].
  destruct (String.eqb_spec k0 k) as [->|Hne].
  - rewrite assign_cons.
    rewrite assign_then_set;
      [|exact Hnin|left; apply keys_set; [exact Hk|tauto]].
    rewrite set_set_same. reflexivity.
  - rewrite assign_cons. apply IH; [exact Hnd'|].
    destruct Hin; [contradiction|assumption].
Qed.

Lemma assign_set_source (s : object) (k : string) (v : value) (t : object) :
  NoDup (keys s) -> ~ In "__proto__" (keys s) -> ~ In "__proto__" (keys t) ->
  assign t (set s k v) = set (assign t s) k v.
Proof.
  intros Hnd Hs Ht.
  destruct (set_cases s k v) as [[Hin E]|[[Hnin [Hk E]]|[Hnin [Hk E]]]];
    rewrite E.
  - apply assign_replace_source; [assumption|assumption|congruence].
  - subst k. symmetry. apply set_prototype.
    intros Hin. apply keys_assign_inv in Hin. tauto.
  - destruct (arrayIndex k) as [n|] eqn:En.
    + destruct (create_split s k v) as (a & b & Eo & ->).
      rewrite Eo in *. rewrite assign_app, assign_cons, (assign_app t a b).
      symmetry. apply assign_then_set.
      * rewrite keys_app, in_app_iff in Hnin. tauto.
      * right. left. congruence.
    + rewrite create_other by exact En. rewrite assign_app. reflexivity.
Qed.

(** Assigning what a list of assignments builds is assigning the list. *)
Lemma assign_assigned (l t : object) :
  ~ In "__proto__" (keys t) -> assign t (assign [] l) = assign t l.
Proof.
  intros Ht.
  induction l as [|[k v] l IH] using rev_ind; [reflexivity|].
  rewrite !assign_app.
  change (assign (assign [] l) [(k, v)]) with (set (assign [] l) k v).
  change (assign (assign t l) [(k, v)]) with (set (assign t l) k v).
  rewrite assign_set_source;
    [|apply assign_NoDup; constructor
     |apply assign_no_prototype; intros []|exact Ht].
  rewrite IH. reflexivity.
Qed.

Lemma assign_distinct (l : object) :
  NoDup (keys l) -> Forall ordinary (keys l) -> assign [] l = l.
Proof.
  induction l as [|[k v] l IH] using rev_ind; [reflexivity|].
  rewrite keys_app. simpl. intros Hnd Hord.
  apply NoDup_remove in Hnd. rewrite app_nil_r in Hnd.
  destruct Hnd as [Hnd Hnin].
  apply Forall_app in Hord. destruct Hord as [Hord Hk].
  inversion Hk as [|? ? [Hk1 Hk2] _]; subst.
  rewrite assign_app, (IH Hnd Hord).
  change (assign l [(k, v)]) with (set l k v).
  apply set_fresh; assumption.
Qed.

(** What is stored under a key after a row of assignments: what the
    last of them stored. *)
Lemma get_assign (l t : object) (k : string) :
  k <> "__proto__" ->
  get (assign t l) k = if has l k then get (rev l) k else get t k.
Proof.
  intros Hk. induction l as [|[k1 v1] l IH] using rev_ind; [reflexivity|].
  rewrite assign_app, rev_app_distr, has_app. simpl.
  change (assign (assign t l) [(k1, v1)]) with (set (assign t l) k1 v1).
  destruct (String.eqb_spec k1 k) as [->|Hne].
  - rewrite orb_true_r. apply get_set_same, Hk.
  - rewrite orb_false_r, get_set_other by exact Hne. exact IH.
Qed.

Lemma keys_assign (l t : object) (k : string) :
  ~ In "__proto__" (keys t) ->
  In k (keys (assign t l)) <->
  In k (keys t) \/ (In k (keys l) /\ k <> "__proto__").
Proof.
  intros Ht. split.
  - intros H. destruct (String.eqb_spec k "__proto__") as [->|Hk].
    + exfalso. revert H. apply assign_no_prototype, Ht.
    + apply keys_assign_inv in H. tauto.
  - revert t Ht. induction l as [|[k1 v1] l IH]; intros t Ht H.
    + simpl in H. tauto.
    + rewrite assign_cons. apply IH; [apply set_no_prototype, Ht|].
      simpl in H. destruct H as [H|[[->|H] Hk]].
      * left. apply keys_set_incl, H.
      * left. apply keys_set; [exact Hk|tauto].
      * right. tauto.
Qed.

(** *** Objects in the order of their enumeration *)

Lemma enumeratedFrom_last (l : object) (k : string) (v : value) (n : N) :
  forall least,
    enumeratedFrom least (l ++ [(k, v)])%list = true ->
    arrayIndex k = Some n ->
    (exists lo, least = Some lo /\ (lo <= n)%N) /\
    Forall (fun kv => exists m, arrayIndex (fst kv) = Some m /\ (m < n)%N) l.
Proof.
  induction l as [|[k0 v0] l IH]; intros least H E; simpl in H.
  - rewrite E in H. destruct least as [lo|]; [|discriminate].
    apply andb_true_iff in H. destruct H as [H _].
    apply N.leb_le in H. split; [exists lo; tauto|constructor].
  - destruct (arrayIndex k0) as [m|] eqn:E0.
    + destruct least as [lo|]; [|discriminate].
      apply andb_true_iff in H. destruct H as [Hlo H].
      apply N.leb_le in Hlo.
      destruct (IH _ H E) as [[lo' [[= <-] Hle]] Hall].
      split; [exists lo; split; [reflexivity|lia]|].
      constructor; [|exact Hall]. exists m. simpl. split; [exact E0|lia].
    + destruct (IH _ H E) as [[lo' [Hn _]] _]. discriminate.
Qed.

Lemma enumeratedFrom_init (l : object) (k : string) (v : value) :
  forall least,
    enumeratedFrom least (l ++ [(k, v)])%list = true ->
    enumeratedFrom least l = true.
Proof.
  induction l as [|[k0 v0] l IH]; intros least H; [reflexivity|].
  simpl in *. destruct (arrayIndex k0) as [m|].
  - destruct least as [lo|]; [|discriminate].
    apply andb_true_iff in H. destruct H as [Hlo H].
    rewrite Hlo. simpl. apply IH, H.
  - apply IH, H.
Qed.

Lemma enumeratedFrom_keys (a b : object) :
  keys a = keys b ->
  forall least, enumeratedFrom least a = enumeratedFrom least b.
Proof.
  revert b. induction a as [|[k v] a IH]; intros [|[k' v'] b] H least;
    try discriminate; [reflexivity|].
  simpl in H. injection H as -> H. simpl.
  destruct (arrayIndex k') as [n|].
  - destruct least as [lo|]; [|reflexivity]. rewrite (IH b H). reflexivity.
  - apply IH, H.
Qed.

Lemma enumeratedFrom_none (o : object) (least : option N) :
  enumeratedFrom None o = true -> enumeratedFrom least o = true.
Proof.
  revert least. induction o as [|[k0 v0] o IHo]; intros least H;
    [reflexivity|].
  simpl in *. destruct (arrayIndex k0); [discriminate|exact H].
Qed.

Lemma enumeratedFrom_stored (l : object) :
  forall least,
    enumeratedFrom least l = true ->
    enumeratedFrom least (filter stored l) = true.
Proof.
  induction l as [|[k v] l IH]; intros least H; [reflexivity|].
  simpl in *. unfold stored at 1. simpl.
  destruct (String.eqb_spec k "__proto__") as [->|Hk]; simpl.
  - change (arrayIndex "__proto__") with (@None N) in H.
    apply enumeratedFrom_none, IH, H.
  - destruct (arrayIndex k) as [n|].
    + destruct least as [lo|]; [|discriminate].
      apply andb_true_iff in H. destruct H as [Hlo H].
      rewrite Hlo. simpl. apply IH, H.
    + apply IH, H.
Qed.

Lemma below_all (n : N) (l : object) :
  Forall (fun kv => exists m, arrayIndex (fst kv) = Some m /\ (m < n)%N) l ->
  below n l = List.length l /\ filter stored l = l.
Proof.
  induction 1 as [|[k v] l [m [E Hm]] Hl [IH1 IH2]]; [split; reflexivity|].
  simpl in *. rewrite E. destruct (N.ltb_spec m n); [|lia].
  rewrite IH1. split; [reflexivity|].
  unfold stored at 1. simpl.
  destruct (String.eqb_spec k "__proto__") as [->|_].
  - discriminate E.
  - simpl. rewrite IH2. reflexivity.
Qed.

Lemma keys_stored (l : object) (k : string) :
  In k (keys (filter stored l)) <-> In k (keys l) /\ k <> "__proto__".
Proof.
  unfold keys. rewrite !in_map_iff. split.
  - intros [kv [<- H]]. apply filter_In in H. destruct H as [H Hs].
    split; [exists kv; tauto|].
    unfold stored in Hs. apply negb_true_iff, String.eqb_neq in Hs.
    exact Hs.
  - intros [[kv [<- H]] Hk]. exists kv. split; [reflexivity|].
    apply filter_In. split; [exact H|].
    unfold stored. apply negb_true_iff, String.eqb_neq, Hk.
Qed.

(** Assigning the entries of an object to an empty object, in their
    order, gives the object again, without the entry of [__proto__]. *)
Lemma assign_enumerated (l : object) :
  forall least,
    NoDup (keys l) -> enumeratedFrom least l = true ->
    assign [] l = filter stored l.
Proof.
  induction l as [|[k v] l IH] using rev_ind; intros least Hnd He;
    [reflexivity|].
  rewrite keys_app in Hnd. simpl in Hnd.
  apply NoDup_remove in Hnd. rewrite app_nil_r in Hnd.
  destruct Hnd as [Hnd Hnin].
  rewrite assign_app, (IH least Hnd (enumeratedFrom_init l k v least He)).
  change (assign (filter stored l) [(k, v)])
    with (set (filter stored l) k v).
  rewrite filter_app. simpl. unfold stored at 3. simpl.
  assert (Hnin' : ~ In k (keys (filter stored l))).
  { rewrite keys_stored. tauto. }
  destruct (String.eqb_spec k "__proto__") as [->|Hk]; simpl.
  - rewrite app_nil_r. apply set_prototype, Hnin'.
  - rewrite set_absent by assumption.
    destruct (arrayIndex k) as [n|] eqn:E.
    + destruct (enumeratedFrom_last l k v n least He E) as [_ Hall].
      destruct (below_all n l Hall) as [Hb Hf].
      rewrite Hf. unfold create, slot. rewrite E, Hb.
      rewrite firstn_all, skipn_all. reflexivity.
    + apply create_other, E.
Qed.

(** The entries of a mapping are flattened from left to right. *)
Lemma flattenInto_mapping (flattened : object) (key : string) (o : object) :
  flattenInto flattened key (Obj o)
  = assign flattened (flattenMapping o key).
Proof.
  reflexivity.
Qed.

Lemma flattenInto_other (flattened : object) (key : string) (v : value) :
  is_mapping v = false -> flattenInto flattened key v = set flattened key v.
Proof. destruct v; simpl; intros H; try reflexivity; discriminate. Qed.

Lemma flattenMapping_snoc (obj : object) (prefix key : string) (v : value) :
  flattenMapping (obj ++ [(key, v)])%list prefix
  = flattenInto (flattenMapping obj prefix) (newKey prefix key) v.
Proof. unfold flattenMapping. rewrite fold_left_app. reflexivity. Qed.

Lemma assign_flat (target source : object) :
  flat target -> flat source -> flat (assign target source).
Proof.
  unfold assign. intros Ht Hs. revert target Ht.
  induction source as [|[k v] source IH]; intros target Ht; simpl;
    [exact Ht|].
  inversion Hs; subst. apply IH; [assumption|]. apply set_flat; assumption.
Qed.

Lemma flattenInto_flat (v : value) :
  forall flattened key, flat flattened -> flat (flattenInto flattened key v).
Proof.
  induction v using JS.value_ind; intros flattened key Hf;
    try (apply set_flat; [exact Hf|reflexivity]).
  rewrite flattenInto_mapping. apply assign_flat; [exact Hf|].
  unfold flattenMapping.
  assert (G : forall acc, flat acc ->
            flat (fold_left
                    (fun fl kv => flattenInto fl (newKey key (fst kv)) (snd kv))
                    o acc)).
  { induction H as [|kv o Hkv Ho IH]; intros acc Hacc; simpl;
      [exact Hacc|].
    apply IH, Hkv, Hacc. }
  apply G. constructor.
Qed.

Lemma flattenMapping_flat (obj : object) (prefix : string) :
  flat (flattenMapping obj prefix).
Proof.
  unfold flattenMapping.
  assert (G : forall acc, flat acc ->
            flat (fold_left
                    (fun fl kv =>
                       flattenInto fl (newKey prefix (fst kv)) (snd kv))
                    obj acc)).
  { induction obj as [|kv obj IH]; intros acc Hacc; simpl;
      [exact Hacc|].
    apply IH, flattenInto_flat, Hacc. }
  apply G. constructor.
Qed.

(** *** The flattened record is made of the leaves *)

Lemma leavesOf_mapping (key : string) (o : object) :
  leavesOf key (Obj o) = leaves o key.
Proof.
  reflexivity.
Qed.

Lemma flattenInto_leaves (v : value) :
  forall flattened key,
    ~ In "__proto__" (keys flattened) ->
    flattenInto flattened key v = assign flattened (leavesOf key v).
Proof.
  induction v using JS.value_ind; intros flattened key Hf; try reflexivity.
  rewrite flattenInto_mapping, leavesOf_mapping.
  rewrite <- (assign_assigned (leaves o key) flattened) by exact Hf.
  f_equal.
  unfold flattenMapping, leaves.
  assert (G : forall acc, ~ In "__proto__" (keys acc) ->
            fold_left
              (fun fl kv => flattenInto fl (newKey key (fst kv)) (snd kv))
              o acc
            = assign acc
                (flat_map
                   (fun kv => leavesOf (newKey key (fst kv)) (snd kv)) o)).
  { clear Hf. induction H as [|kv o Hkv Ho IH]; intros acc Hacc; simpl;
      [reflexivity|].
    rewrite assign_app, <- (Hkv acc _ Hacc).
    apply IH. rewrite (Hkv acc _ Hacc).
    apply assign_no_prototype, Hacc. }
  apply G. intros [].
Qed.

Lemma flattenMapping_leaves (obj : object) (prefix : string) :
  flattenMapping obj prefix = assign [] (leaves obj prefix).
Proof.
  unfold flattenMapping, leaves.
  assert (G : forall acc, ~ In "__proto__" (keys acc) ->
            fold_left
              (fun fl kv => flattenInto fl (newKey prefix (fst kv)) (snd kv))
              obj acc
            = assign acc
                (flat_map
                   (fun kv => leavesOf (newKey prefix (fst kv)) (snd kv))
                   obj)).
  { induction obj as [|kv obj IH]; intros acc Hacc; simpl; [reflexivity|].
    rewrite assign_app, <- (flattenInto_leaves _ acc _ Hacc).
    apply IH. rewrite (flattenInto_leaves _ acc _ Hacc).
    apply assign_no_prototype, Hacc. }
  apply G. intros [].
Qed.

(** The repository's own expectations, [fetcher.test.ts]. *)
Example flattenMapping_tests :
  flattenMapping
    [("address", Obj [("street", Str "123 Main St");
                      ("city", Str "Nashville")]);
     ("price", Num (of_Z 2000))] ""
  = [("address__street", Str "123 Main St");
     ("address__city", Str "Nashville");
     ("price", Num (of_Z 2000))] /\
  flattenMapping
    [("location",
      Obj [("address",
            Obj [("street", Obj [("number", Num (of_Z 123));
                                 ("name", Str "Main St")])])])] ""
  = [("location__address__street__number", Num (of_Z 123));
     ("location__address__street__name", Str "Main St")] /\
  flattenMapping
    [("tags", Arr [Str "apartment"; Str "luxury"]);
     ("metadata", Obj [("photos", Arr [Str "photo1.jpg"; Str "photo2.jpg"])])]
    ""
  = [("tags", Arr [Str "apartment"; Str "luxury"]);
     ("metadata__photos", Arr [Str "photo1.jpg"; Str "photo2.jpg"])] /\
  flattenMapping [] "" = [].
Proof. repeat split; reflexivity. Qed.

(** The order of the result is that of its enumeration: an array index
    that is reached through an empty key comes first; and a nested key
    that joins to [__proto__] is not stored either. *)
Example flattenMapping_enumeration :
  flattenMapping
    [("a", Num (of_Z 1)); ("", Obj [("5", Num (of_Z 2))])] ""
  = [("5", Num (of_Z 2)); ("a", Num (of_Z 1))] /\
  flattenMapping
    [("__proto", Obj [("", Num (of_Z 1))]); ("b", Num (of_Z 2))] ""
  = [("b", Num (of_Z 2))].
Proof. split; reflexivity. Qed.

(** C7: [flattenMapping] returns the leaves of a record, assigned from
    left to right to an empty object.  The leaves of an entry whose value
    is a mapping are the leaves of that mapping under the new key, which
    is the key of the entry joined to the prefix by ["__"] (the key alone
    when there is no prefix); an entry with any other value, a sequence
    included, is one leaf, assigned under the new key as it is.  The
    assignment stores nothing under the key [__proto__]: the keys of the
    result are the keys of the leaves without that one, so the record
    [{"__proto__": 5, "a": 1}] flattens to [{"a": 1}].  Every other key
    holds the last leaf with that key; no mapping is left in the result;
    a sequence is found whole under its key; and when no two leaves
    share a key and no key is [__proto__] or an array index, the result
    is the list of the leaves in their order.  The two records of the
    specification flatten as it says. *)
Theorem flattenMapping_joins_and_preserves
    (obj : object) (prefix key : string) (v : value) :
  newKey "" key = key /\
  (prefix <> "" -> newKey prefix key = prefix ++ "__" ++ key) /\
  leaves [] prefix = [] /\
  (forall o,
      leaves ((key, Obj o) :: obj) prefix
      = (leaves o (newKey prefix key) ++ leaves obj prefix)%list) /\
  (is_mapping v = false ->
   leaves ((key, v) :: obj) prefix
   = (newKey prefix key, v) :: leaves obj prefix) /\
  flattenMapping obj prefix = assign [] (leaves obj prefix) /\
  NoDup (keys (flattenMapping obj prefix)) /\
  (forall k,
      In k (keys (flattenMapping obj prefix))
      <-> In k (keys (leaves obj prefix)) /\ k <> "__proto__") /\
  (forall k,
      k <> "__proto__" ->
      get (flattenMapping obj prefix) k
      = if has (leaves obj prefix) k then get (rev (leaves obj prefix)) k
        else Undefined) /\
  (NoDup (keys (leaves obj prefix)) ->
   Forall ordinary (keys (leaves obj prefix)) ->
   flattenMapping obj prefix = leaves obj prefix) /\
  flat (flattenMapping obj prefix) /\
  (forall l,
      newKey prefix key <> "__proto__" ->
      get (flattenMapping (obj ++ [(key, Arr l)])%list prefix)
        (newKey prefix key) = Arr l) /\
  flattenMapping
    [("address", Obj [("street", Str "123 Main St")]);
     ("price", Num (of_Z 2000))] ""
  = [("address__street", Str "123 Main St"); ("price", Num (of_Z 2000))] /\
  flattenMapping [("tags", Arr [Str "a"; Str "b"])] ""
  = [("tags", Arr [Str "a"; Str "b"])] /\
  flattenMapping [("__proto__", Num (of_Z 5)); ("a", Num (of_Z 1))] ""
  = [("a", Num (of_Z 1))].
Proof.
  split; [reflexivity|]. split.
  { intros Hp. unfold newKey.
    destruct (String.eqb_spec prefix ""); [contradiction|reflexivity]. }
  split; [reflexivity|]. split; [reflexivity|]. split.
  { intros Hv. destruct v; try reflexivity. discriminate. }
  split; [apply flattenMapping_leaves|]. split.
  { rewrite flattenMapping_leaves. apply assign_NoDup. constructor. }
  split.
  { intros k. rewrite flattenMapping_leaves, keys_assign by (intros []).
    simpl. tauto. }
  split.
  { intros k Hk. rewrite flattenMapping_leaves. apply get_assign, Hk. }
  split.
  { intros Hnd Hord. rewrite flattenMapping_leaves.
    apply assign_distinct; assumption. }
  split; [apply flattenMapping_flat|]. split.
  { intros l Hk. rewrite flattenMapping_snoc, flattenInto_other
      by reflexivity. apply get_set_same, Hk. }
  split; [reflexivity|]. split; reflexivity.
Qed.

End FlattenFacts.

(** ** [recordsToProperties] *)

Module RecordsFacts.
Import JSNumber JS ZillowTypes Fetcher.
Local Open Scope string_scope.

Lemma augmentFrom_readable (units : list value) :
  forallb readable units = true ->
  forall index augmented,
    exists r, augmentFrom index units augmented = Return r.
Proof.
  induction units as [|unit rest IH]; simpl; intros H index augmented.
  - eauto.
  - apply andb_true_iff in H. destruct H as [Hu Hr].
    destruct unit; try discriminate; apply IH, Hr.
Qed.

Lemma prepareRecord_readable (record : object) :
  unitsReadable record = true ->
  exists flattened, prepareRecord record = Return flattened.
Proof.
  unfold unitsReadable, prepareRecord. intros H.
  destruct (get record "units") as [| | | | |l|]; eauto.
  destruct l as [|u us]; eauto.
  destruct (augmentFrom_readable (u :: us) H 0%nat (flattenMapping record ""))
    as [r Hr].
  unfold augmentWithUnits. rewrite Hr. simpl. eauto.
Qed.

Section Schema.
Variable z_number_accepts : number -> bool.

(** The schema rejects a record whose [detailUrl] is not a string, and
    so one that has none. *)
Lemma schema_requires_detailUrl (o : object) :
  z_string (get o "detailUrl") = None -> ZillowPropertySchema z_number_accepts o = None.
Proof.
  intros H. unfold ZillowPropertySchema. rewrite H.
  destruct (z_nullable_optional (z_number z_number_accepts) (get o "longitude"));
    destruct (z_nullable_optional (z_number z_number_accepts) (get o "latitude")); reflexivity.
Qed.

Lemma schema_keeps_detailUrl (o : object) (p : ZillowProperty) :
  ZillowPropertySchema z_number_accepts o = Some p -> get o "detailUrl" = Str (detailUrl p).
Proof.
  unfold ZillowPropertySchema.
  destruct (z_nullable_optional (z_number z_number_accepts) (get o "longitude")); [|discriminate].
  destruct (z_nullable_optional (z_number z_number_accepts) (get o "latitude")); [|discriminate].
  destruct (get o "detailUrl") eqn:E; try discriminate. simpl.
  destruct (z_nullable_optional (z_number z_number_accepts) (get o "price")); [|discriminate].
  destruct (z_nullable_optional (z_number z_number_accepts) (get o "bedrooms")); [|discriminate].
  destruct (z_nullable_optional (z_number z_number_accepts) (get o "bathrooms")); [|discriminate].
  destruct (z_nullable_optional (z_number z_number_accepts) (get o "livingArea")); [|discriminate].
  destruct (z_nullable_optional z_string (get o "propertyType")); [|discriminate].
  destruct (z_nullable_optional z_string (get o "address")); [|discriminate].
  destruct (z_nullable_optional (z_units z_number_accepts) (get o "units")); [|discriminate].
  intros H. injection H as <-. reflexivity.
Qed.

(** When the units of every record can be read, the loop returns the
    valid properties of the batch in order and warns once for each of
    the other records. *)
Lemma recordsToProperties_loop_collects (records : list object) :
  Forall (fun record => unitsReadable record = true) records ->
  forall properties warnings,
    recordsToProperties_loop z_number_accepts records properties warnings
    = (Return (properties ++ validProperties z_number_accepts records)%list,
       (warnings + List.length (rejected z_number_accepts records))%nat).
Proof.
  induction 1 as [|record records Hr Hrs IH]; intros properties warnings.
  - simpl. rewrite app_nil_r, Nat.add_0_r. reflexivity.
  - simpl. unfold toProperty.
    destruct (prepareRecord_readable record Hr) as [flattened ->].
    destruct (ZillowPropertySchema z_number_accepts flattened) as [property|].
    + rewrite IH, <- app_assoc. reflexivity.
    + rewrite IH. simpl. rewrite Nat.add_succ_r. reflexivity.
Qed.

(** [recordsToProperties] on a batch in which no sequence of units
    holds [null] or [undefined]: it returns the valid properties of the
    batch, in the order of the batch, and warns once for each of the
    other records; a record is dropped alone. *)
Theorem recordsToProperties_collects (records : list object) :
  Forall (fun record => unitsReadable record = true) records ->
  recordsToProperties z_number_accepts records
  = (Return (validProperties z_number_accepts records),
     List.length (rejected z_number_accepts records)).
Proof.
  intros H. unfold recordsToProperties.
  rewrite recordsToProperties_loop_collects by exact H. reflexivity.
Qed.

(** A record whose flattening has no string under [detailUrl] is not
    among the valid properties. *)
Lemma toProperty_requires_detailUrl (record flattened : object) :
  prepareRecord record = Return flattened ->
  z_string (get flattened "detailUrl") = None ->
  toProperty z_number_accepts record = None.
Proof.
  intros Hp Hz. unfold toProperty. rewrite Hp.
  apply schema_requires_detailUrl, Hz.
Qed.

(** C8 on a batch whose first record has a unit that is [null]: the
    record has no detail URL and is not a valid property, the second
    record is one, and [recordsToProperties] returns nothing: reading
    [unit.price] throws outside the [try] that guards [parse]. *)
Theorem recordsToProperties_null_unit_throws :
  let batch := [[("units", Arr [Null])];
                [("detailUrl", Str "https://zillow.com/property/2")]] in
  validProperties z_number_accepts batch
  = [listing "https://zillow.com/property/2" absent] /\
  recordsToProperties z_number_accepts batch = (Throw TypeError, 0%nat).
Proof. split; reflexivity. Qed.

End Schema.

(** The repository's own expectation, [fetcher.test.ts]: the record
    without a detail URL is skipped with a warning, the other one is
    returned. *)
Example recordsToProperties_test :
  recordsToProperties (fun n => negb (is_nan n))
    [[("price", Num (of_Z 2000))];
     [("detailUrl", Str "https://zillow.com/property/2");
      ("price", Num (of_Z 2100))]]
  = (Return [listing "https://zillow.com/property/2"
               (present (of_Z 2100))], 1%nat).
Proof. reflexivity. Qed.

End RecordsFacts.

(** ** [extractErrorMessage] *)

Module ErrorsFacts.
Import JS Errors Fetcher.
Local Open Scope string_scope.

Lemma Array_map_unreadable (l : list value) :
  forallb readable l = false ->
  Array_map messageOrSelf l = Throw TypeError.
Proof.
  induction l as [|e l IH]; simpl; [discriminate|].
  intros H. apply andb_false_iff in H. destruct H as [H|H].
  - destruct e; simpl in H; try discriminate; reflexivity.
  - rewrite (IH H).
    destruct (messageOrSelf e) as [y|err] eqn:E; simpl; [reflexivity|].
    destruct e; simpl in E; congruence.
Qed.

Lemma messageOrSelf_says (e : value) (m : string) :
  says e m -> messageOrSelf e = Return (Str m).
Proof.
  intros [->|[H Hm]]; [reflexivity|].
  destruct e; simpl in H; try discriminate.
  unfold messageOrSelf. simpl. rewrite H. simpl.
  destruct (String.eqb_spec m ""); [contradiction|reflexivity].
Qed.

Lemma Array_map_says (es : list value) (ms : list string) :
  Forall2 says es ms ->
  Array_map messageOrSelf es = Return (map Str ms).
Proof.
  induction 1 as [|e m es ms H _ IH]; simpl; [reflexivity|].
  rewrite (messageOrSelf_says e m H). simpl. rewrite IH. reflexivity.
Qed.

Section Messages.
Variable ToString : value -> option string.

Lemma describable_text (data : value) :
  describable ToString data <->
  exists text, messageText ToString data = Return text.
Proof.
  unfold describable, messageText. split.
  - intros (m & message & -> & Hm). simpl. rewrite Hm.
    exists message. reflexivity.
  - intros [text H].
    destruct (extractErrorMessage ToString data) as [m|e];
      [|discriminate].
    simpl in H. destruct (templated ToString m) as [message|] eqn:Hm;
      [|discriminate].
    exists m, message. split; [reflexivity|exact Hm].
Qed.

Lemma messageText_unreadable (response : value) (l : list value) :
  is_string response = false ->
  truthy (member response "message") = false ->
  truthy (member response "error") = false ->
  member response "errors" = Arr l ->
  forallb readable l = false ->
  messageText ToString response = Throw TypeError.
Proof.
  intros Hs Hm He Hes Hl. unfold messageText, extractErrorMessage.
  rewrite Hs, Hm. cbv zeta. rewrite He, Hes. simpl.
  rewrite (Array_map_unreadable l Hl). reflexivity.
Qed.

Lemma joinedAll_strings (ms : list string) :
  joinedAll ToString (map Str ms) = Some ms.
Proof.
  induction ms as [|m ms IH]; simpl; [reflexivity|].
  rewrite IH. reflexivity.
Qed.

(** Unless [errors] is an array, [extractErrorMessage] returns, and
    what it returns is truthy: it is an empty message only when the
    response itself is the empty string. *)
Theorem extractErrorMessage_usable (response : value) :
  is_array (member response "errors") = false ->
  exists v,
    extractErrorMessage ToString response = Return v /\
    (truthy v = true \/ response = Str "").
Proof.
  intros Harr. unfold extractErrorMessage.
  destruct (is_string response) eqn:Hs.
  { destruct response; try discriminate. eexists. split; [reflexivity|].
    simpl. destruct (String.eqb_spec s ""); [right; congruence|now left]. }
  destruct (truthy (member response "message")) eqn:Hm.
  { eexists. split; [reflexivity|now left]. }
  cbv zeta.
  destruct (truthy (member response "error")) eqn:He; simpl.
  - destruct (is_string (member response "error")).
    { eexists. split; [reflexivity|now left]. }
    destruct (truthy (member (member response "error") "message")) eqn:Hem.
    { eexists. split; [reflexivity|now left]. }
    destruct (member response "errors") eqn:Hes; try discriminate;
      simpl;
      try (destruct (truthy (member response "detail")) eqn:Hd;
           eexists; (split; [reflexivity|now left])).
    + destruct b; simpl;
        destruct (truthy (member response "detail")) eqn:Hd;
        eexists; (split; [reflexivity|now left]).
    + destruct (JSNumber.truthy n); simpl;
        destruct (truthy (member response "detail")) eqn:Hd;
        eexists; (split; [reflexivity|now left]).
    + destruct (String.eqb_spec s ""); simpl.
      * destruct (truthy (member response "detail")) eqn:Hd;
          eexists; (split; [reflexivity|now left]).
      * eexists. split; [reflexivity|]. left. simpl.
        destruct (String.eqb_spec s ""); [contradiction|reflexivity].
  - destruct (member response "errors") eqn:Hes; try discriminate;
      simpl;
      try (destruct (truthy (member response "detail")) eqn:Hd;
           eexists; (split; [reflexivity|now left])).
    + destruct b; simpl;
        destruct (truthy (member response "detail")) eqn:Hd;
        eexists; (split; [reflexivity|now left]).
    + destruct (JSNumber.truthy n); simpl;
        destruct (truthy (member response "detail")) eqn:Hd;
        eexists; (split; [reflexivity|now left]).
    + destruct (String.eqb_spec s ""); simpl.
      * destruct (truthy (member response "detail")) eqn:Hd;
          eexists; (split; [reflexivity|now left]).
      * eexists. split; [reflexivity|]. left. simpl.
        destruct (String.eqb_spec s ""); [contradiction|reflexivity].
Qed.

(** When nothing is found under [message] and [error] and [errors] is
    an array that holds [null] or [undefined], reading [e.message]
    throws a [TypeError]: no message is returned. *)
Theorem extractErrorMessage_unreadable_entry
    (response : value) (l : list value) :
  is_string response = false ->
  truthy (member response "message") = false ->
  truthy (member response "error") = false ->
  member response "errors" = Arr l ->
  forallb readable l = false ->
  extractErrorMessage ToString response = Throw TypeError.
Proof.
  intros Hs Hm He Hes Hl. unfold extractErrorMessage.
  rewrite Hs, Hm. cbv zeta. rewrite He, Hes. simpl.
  rewrite (Array_map_unreadable l Hl). reflexivity.
Qed.

(** When nothing is found under [message] and [error] and [errors] is
    an array of strings and of objects with a non-empty string under
    [message], the result is these texts joined with a semicolon and
    a space, in the order of the array. *)
Theorem extractErrorMessage_joins_errors
    (response : value) (es : list value) (ms : list string) :
  is_string response = false ->
  truthy (member response "message") = false ->
  truthy (member response "error") = false ->
  member response "errors" = Arr es ->
  Forall2 says es ms ->
  extractErrorMessage ToString response
  = Return (Str (String.concat "; " ms)).
Proof.
  intros Hs Hm He Hes Hsays. unfold extractErrorMessage.
  rewrite Hs, Hm. cbv zeta. rewrite He, Hes. simpl.
  rewrite (Array_map_says es ms Hsays). simpl.
  unfold Array_join. rewrite joinedAll_strings. reflexivity.
Qed.
End Messages.

End ErrorsFacts.

(** ** [fetchPage] *)

Module FetchPageFacts.
Import JSNumber JS Fetcher.
Local Open Scope string_scope.
Local Open Scope Z_scope.


Lemma after_0 (w : world) : after w 0 [] = w.
Proof.
  destruct w as [n tr]. unfold after. simpl.
  rewrite Nat.add_0_r, app_nil_r. reflexivity.
Qed.

Section Attempts.
Variable api : nat -> object -> outcome.
Variable ToString : value -> option string.

(** The fuel of [fetchPage] never runs out: once it exceeds the number
    of attempts that are left, more of it changes nothing.  So the loop
    ends by its own test, [attempt <= retries], or by a [return] or a
    [throw] of its body. *)
Lemma fetchPage_attempts_fuel (fuel : nat) :
  forall (rp : object) (attempt retries cooldown : Z) (w : world),
    retries - attempt < Z.of_nat fuel ->
    fetchPage_attempts api ToString (S fuel) rp attempt retries cooldown w
    = fetchPage_attempts api ToString fuel rp attempt retries cooldown w.
Proof.
  induction fuel as [|fuel IH]; intros rp attempt retries cooldown w Hf.
  - cbn [fetchPage_attempts].
    destruct (Z.leb_spec attempt retries); [lia|reflexivity].
  - remember (S fuel) as n eqn:En.
    cbn [fetchPage_attempts]. subst n. cbn [fetchPage_attempts].
    destruct (attempt <=? retries); [|reflexivity].
    destruct (client_get api rp w) as [r w1].
    destruct r as [data|status data|e]; try reflexivity.
    destruct (status_is status 404); [reflexivity|].
    destruct (status_is status 401 || status_is status 403);
      [reflexivity|].
    destruct (status_is status 429);
      (destruct (attempt <? retries); [apply IH; lia|reflexivity]).
Qed.

Lemma fetchPage_more_fuel (n : nat) (params : object) (page : number)
    (retries cooldown : Z) (w : world) :
  fetchPage_attempts api ToString (Z.to_nat retries + n)
    (requestFor params page) 1 retries cooldown w
  = fetchPage api ToString params page retries cooldown w.
Proof.
  induction n as [|n IH].
  - rewrite Nat.add_0_r. reflexivity.
  - rewrite Nat.add_succ_r, fetchPage_attempts_fuel by lia. exact IH.
Qed.

(** One failed attempt that is followed by another. *)
Lemma attempt_retried (fuel : nat) (rp : object)
    (attempt retries cooldown : Z) (w : world) :
  attempt < retries ->
  retryable (api (sent w) rp) = true ->
  fetchPage_attempts api ToString (S fuel) rp attempt retries cooldown w
  = fetchPage_attempts api ToString fuel rp (attempt + 1) retries cooldown
      (after w 1 (retried rp cooldown attempt 1)).
Proof.
  intros Hlt Hr. simpl.
  destruct (Z.leb_spec attempt retries); [|lia].
  destruct (api (sent w) rp) as [|status data|]; try discriminate.
  simpl in Hr. apply negb_true_iff in Hr.
  apply orb_false_iff in Hr. destruct Hr as [Hr H403].
  apply orb_false_iff in Hr. destruct Hr as [H404 H401].
  rewrite H404, H401, H403. simpl.
  destruct (Z.ltb_spec attempt retries); [|lia].
  assert (E : sleep (cooldown * attempt * 1000)
                (emit Warn
                   {| sent := S (sent w);
                      trace := (trace w ++ [Request rp])%list |})
              = after w 1 (retried rp cooldown attempt 1)).
  { unfold sleep, emit, after. simpl. f_equal; [lia|].
    rewrite <- !app_assoc. reflexivity. }
  rewrite E. destruct (status_is status 429); reflexivity.
Qed.

Lemma after_after (w : world) (j k : nat) (tr1 tr2 : list event) :
  after (after w j tr1) k tr2 = after w (j + k) (tr1 ++ tr2)%list.
Proof.
  unfold after. simpl. f_equal; [lia|]. apply eq_sym, app_assoc.
Qed.

(** [k] failed attempts in a row, each followed by another. *)
Lemma attempts_retried (k : nat) :
  forall (fuel : nat) (rp : object) (attempt retries cooldown : Z)
         (w : world),
    attempt + Z.of_nat k <= retries ->
    (forall i, (i < k)%nat -> retryable (api (sent w + i) rp) = true) ->
    fetchPage_attempts api ToString (k + fuel) rp attempt retries cooldown w
    = fetchPage_attempts api ToString fuel rp (attempt + Z.of_nat k) retries
        cooldown (after w k (retried rp cooldown attempt k)).
Proof.
  induction k as [|k IH]; intros fuel rp attempt retries cooldown w Hle Hr.
  - simpl. rewrite after_0, Z.add_0_r. reflexivity.
  - change (S k + fuel)%nat with (S (k + fuel)).
    rewrite attempt_retried;
      [|lia|rewrite <- (Nat.add_0_r (sent w)); apply Hr; lia].
    rewrite IH.
    + rewrite after_after. f_equal; lia.
    + lia.
    + intros i Hi. simpl.
      replace (sent w + 1 + i)%nat with (sent w + S i)%nat by lia.
      apply Hr. lia.
Qed.

(** The attempt that ends [fetchPage]: the request is the last thing
    that happens. *)
Lemma fetchPage_enters (params : object) (page : number)
    (retries cooldown : Z) (w : world) (k : nat) :
  Z.of_nat k < retries ->
  (forall i, (i < k)%nat ->
     retryable (api (sent w + i) (requestFor params page)) = true) ->
  exists fuel,
    fetchPage api ToString params page retries cooldown w
    = fetchPage_attempts api ToString (S fuel) (requestFor params page)
        (1 + Z.of_nat k) retries cooldown
        (after w k (retried (requestFor params page) cooldown 1 k)).
Proof.
  intros Hk Hr.
  assert (E : exists fuel, Z.to_nat retries = (k + S fuel)%nat)
    by (exists (Z.to_nat retries - k - 1)%nat; lia).
  destruct E as [fuel E]. exists fuel.
  unfold fetchPage. fold (requestFor params page). rewrite E.
  apply attempts_retried; [lia|exact Hr].
Qed.


(** The attempts that end [fetchPage] at once. *)
Lemma attempt_final (fuel : nat) (rp : object)
    (attempt retries cooldown : Z) (w : world) :
  attempt <= retries ->
  let w1 := after w 1 [Request rp] in
  (forall data,
      api (sent w) rp = Response data ->
      fetchPage_attempts api ToString (S fuel) rp attempt retries cooldown w
      = (Return data, w1)) /\
  (forall data,
      api (sent w) rp = AxiosError (Some 404) data ->
      fetchPage_attempts api ToString (S fuel) rp attempt retries cooldown w
      = (Return (Obj [("results", Arr [])]), w1)) /\
  (forall data,
      api (sent w) rp = AxiosError (Some 401) data \/
      api (sent w) rp = AxiosError (Some 403) data ->
      fetchPage_attempts api ToString (S fuel) rp attempt retries cooldown w
      = (match Errors.messageText ToString data with
         | Return _ => Throw (AuthenticationError data)
         | Throw e => Throw e
         end, w1)) /\
  (forall data,
      attempt = retries ->
      api (sent w) rp = AxiosError (Some 429) data ->
      fetchPage_attempts api ToString (S fuel) rp attempt retries cooldown w
      = (Throw (RateLimitError data), w1)) /\
  (forall status data,
      attempt = retries ->
      api (sent w) rp = AxiosError status data ->
      retryable (AxiosError status data) = true ->
      rateLimited (AxiosError status data) = false ->
      fetchPage_attempts api ToString (S fuel) rp attempt retries cooldown w
      = (match Errors.messageText ToString data with
         | Return _ => Throw (ZillowAPIError status data)
         | Throw e => Throw e
         end, w1)).
Proof.
  intros Hle w1.
  assert (E : {| sent := S (sent w);
                 trace := (trace w ++ [Request rp])%list |} = w1).
  { unfold w1, after. f_equal. lia. }
  split; [|split; [|split; [|split]]].
  - intros data H. simpl. destruct (Z.leb_spec attempt retries); [|lia].
    rewrite H, E. reflexivity.
  - intros data H. simpl. destruct (Z.leb_spec attempt retries); [|lia].
    rewrite H, E. reflexivity.
  - intros data [H|H]; simpl;
      (destruct (Z.leb_spec attempt retries); [|lia]);
      rewrite H, E; simpl;
      destruct (Errors.messageText ToString data); reflexivity.
  - intros data -> H. simpl. rewrite Z.leb_refl, H, E. simpl.
    rewrite Z.ltb_irrefl. reflexivity.
  - intros status data -> H Hretry Hlim. simpl.
    rewrite Z.leb_refl, H, E.
    simpl in Hretry, Hlim. apply negb_true_iff in Hretry.
    apply orb_false_iff in Hretry. destruct Hretry as [Hretry H403].
    apply orb_false_iff in Hretry. destruct Hretry as [H404 H401].
    rewrite H404, H401, H403, Hlim. simpl.
    rewrite Z.ltb_irrefl.
    destruct (Errors.messageText ToString data); reflexivity.
Qed.

End Attempts.


Lemma requested_retried (rp : object) (cooldown : Z) (k : nat) :
  forall attempt,
    requested (retried rp cooldown attempt k) = repeat (get rp "page") k.
Proof.
  induction k as [|k IH]; intros attempt; [reflexivity|].
  cbn [retried requested repeat]. f_equal. apply IH.
Qed.


(** An axios error that is neither a 404, a 401, a 403 nor a 429, on the
    last of the [retries] attempts, the earlier ones having failed in a
    way that is retried: nothing follows the request, and [fetchPage]
    raises the generic API error with the status and the payload of that
    last answer when the message of the error can be built from the
    payload; when building the message throws, that is thrown in its
    place, and so a [TypeError] for a payload whose [errors] hold [null]
    or [undefined]. *)
Theorem fetchPage_exhausted
    (api : nat -> object -> outcome) (ToString : value -> option string)
    (params : object) (page : number)
    (retries cooldown : Z) (w : world) (k : nat)
    (status : option Z) (data : value) :
  let rp := requestFor params page in
  let w' := after w (k + 1) (retried rp cooldown 1 k ++ [Request rp])%list in
  Z.of_nat k + 1 = retries ->
  (forall i, (i < k)%nat -> retryable (api (sent w + i)%nat rp) = true) ->
  api (sent w + k)%nat rp = AxiosError status data ->
  retryable (AxiosError status data) = true ->
  rateLimited (AxiosError status data) = false ->
  (Errors.describable ToString data ->
   fetchPage api ToString params page retries cooldown w
   = (Throw (ZillowAPIError status data), w')) /\
  (forall e,
      Errors.messageText ToString data = Throw e ->
      fetchPage api ToString params page retries cooldown w
      = (Throw e, w')) /\
  (forall l,
      Errors.is_string data = false ->
      truthy (member data "message") = false ->
      truthy (member data "error") = false ->
      member data "errors" = Arr l ->
      forallb readable l = false ->
      fetchPage api ToString params page retries cooldown w
      = (Throw TypeError, w')).
Proof.
  intros rp w' Hk Hr Hapi Hretry Hlim.
  assert (Hw : after (after w k (retried rp cooldown 1 k)) 1 [Request rp]
               = w') by apply after_after.
  assert (Hk' : Z.of_nat k < retries) by lia.
  destruct (fetchPage_enters api ToString params page retries cooldown w k
              Hk' Hr) as [fuel ->].
  fold rp. rewrite <- Hw.
  destruct (attempt_final api ToString fuel rp (1 + Z.of_nat k) retries
              cooldown (after w k (retried rp cooldown 1 k)))
    as (_ & _ & _ & _ & Hlast); [lia|].
  rewrite (Hlast status data) by (try assumption; lia).
  split; [|split].
  - intros Hd. apply ErrorsFacts.describable_text in Hd.
    destruct Hd as [text ->]. reflexivity.
  - intros e ->. reflexivity.
  - intros l Hs Hm He Hes Hl.
    rewrite (ErrorsFacts.messageText_unreadable ToString data l
               Hs Hm He Hes Hl).
    reflexivity.
Qed.

(** C6: whatever attempt it answers, a 404 makes [fetchPage] return the
    payload with no results, and after a 401 or a 403 nothing is retried
    or waited for: in both cases that request is the last thing that
    happens.  What a 401 or a 403 raises is an authentication error only
    when the message of the error can be built from the payload of the
    answer: when building the message throws, that is thrown in its
    place, and so a [TypeError] for a payload whose [errors] hold [null]
    or [undefined]. *)
Theorem fetchPage_404_and_auth
    (api : nat -> object -> outcome) (ToString : value -> option string)
    (params : object) (page : number)
    (retries cooldown : Z) (w : world) (k : nat) (data : value) :
  let rp := requestFor params page in
  let w' := after w (k + 1) (retried rp cooldown 1 k ++ [Request rp])%list in
  Z.of_nat k < retries ->
  (forall i, (i < k)%nat -> retryable (api (sent w + i)%nat rp) = true) ->
  (api (sent w + k)%nat rp = AxiosError (Some 404) data ->
   fetchPage api ToString params page retries cooldown w
   = (Return (Obj [("results", Arr [])]), w')) /\
  (api (sent w + k)%nat rp = AxiosError (Some 401) data \/
   api (sent w + k)%nat rp = AxiosError (Some 403) data ->
   (Errors.describable ToString data ->
    fetchPage api ToString params page retries cooldown w
    = (Throw (AuthenticationError data), w')) /\
   (forall e,
       Errors.messageText ToString data = Throw e ->
       fetchPage api ToString params page retries cooldown w
       = (Throw e, w')) /\
   (forall l,
       Errors.is_string data = false ->
       truthy (member data "message") = false ->
       truthy (member data "error") = false ->
       member data "errors" = Arr l ->
       forallb readable l = false ->
       fetchPage api ToString params page retries cooldown w
       = (Throw TypeError, w'))).
Proof.
  intros rp w' Hk Hr.
  assert (Hw : after (after w k (retried rp cooldown 1 k)) 1 [Request rp]
               = w') by apply after_after.
  destruct (fetchPage_enters api ToString params page retries cooldown w k
              Hk Hr) as [fuel ->].
  fold rp. rewrite <- Hw.
  destruct (attempt_final api ToString fuel rp (1 + Z.of_nat k) retries
              cooldown (after w k (retried rp cooldown 1 k)))
    as (_ & H404 & Hauth & _); [lia|].
  split; intros Hapi; [apply (H404 data); exact Hapi|].
  rewrite (Hauth data Hapi).
  split; [|split].
  - intros Hd. apply ErrorsFacts.describable_text in Hd.
    destruct Hd as [text ->]. reflexivity.
  - intros e ->. reflexivity.
  - intros l Hs Hm He Hes Hl.
    rewrite (ErrorsFacts.messageText_unreadable ToString data l
               Hs Hm He Hes Hl).
    reflexivity.
Qed.

End FetchPageFacts.

(** ** [iteratePages] *)

Module IteratePagesFacts.
Import JSNumber JS Fetcher FetchPageFacts.
Local Open Scope string_scope.
Local Open Scope Z_scope.

Lemma yielded_app (tr1 tr2 : list event) :
  yielded (tr1 ++ tr2) = (yielded tr1 ++ yielded tr2)%list.
Proof.
  induction tr1 as [|[rp| |ms|results] tr1 IH]; simpl; rewrite ?IH;
    reflexivity.
Qed.

Lemma requested_app (tr1 tr2 : list event) :
  requested (tr1 ++ tr2) = (requested tr1 ++ requested tr2)%list.
Proof.
  induction tr1 as [|[rp| |ms|results] tr1 IH]; simpl; rewrite ?IH;
    reflexivity.
Qed.

Lemma requestFor_page (params : object) (page : number) :
  get (requestFor params page) "page" = Num (safePageNumber page).
Proof. apply FlattenFacts.get_set_same. discriminate. Qed.

Section Pages.
Variable api : nat -> object -> outcome.
Variable ToString : value -> option string.
Variable ToNumber : value -> option number.
Variables (params : object) (maxPages rateLimitWait : Z).
Variable payloadOf : Z -> value.

Lemma yielded_pagesEvents (k : nat) :
  forall page,
    yielded (pagesEvents params maxPages rateLimitWait payloadOf page k)
    = map (fun i => extractResults (payloadOf (page + Z.of_nat i)))
        (seq 0 k).
Proof.
  induction k as [|k IH]; intros page; [reflexivity|].
  cbn [pagesEvents seq map].
  rewrite yielded_app, IH, Z.add_0_r, <- seq_shift, map_map.
  unfold pageEvents. destruct (page <? maxPages); simpl; f_equal;
    apply map_ext; intros i; do 2 f_equal; lia.
Qed.

Lemma requested_pagesEvents (k : nat) :
  forall page,
    requested (pagesEvents params maxPages rateLimitWait payloadOf page k)
    = map (fun i => Num (safePageNumber (of_Z (page + Z.of_nat i))))
        (seq 0 k).
Proof.
  induction k as [|k IH]; intros page; [reflexivity|].
  cbn [pagesEvents seq map].
  rewrite requested_app, IH, Z.add_0_r, <- seq_shift, map_map.
  unfold pageEvents. cbn [requested app]. rewrite requestFor_page.
  destruct (page <? maxPages); simpl; f_equal;
    apply map_ext; intros i; do 3 f_equal; lia.
Qed.

(** A request that is answered at once. *)
Lemma fetchPage_answered (page : number) (w : world) (data : value) :
  api (sent w) (requestFor params page) = Response data ->
  fetchPage api ToString params page Config.DEFAULT_RETRIES 5 w
  = (Return data, after w 1 [Request (requestFor params page)]).
Proof.
  intros H.
  destruct (fetchPage_enters api ToString params page Config.DEFAULT_RETRIES 5 w 0)
    as [fuel ->]; [reflexivity|intros i Hi; lia|].
  rewrite after_0.
  apply attempt_final; [unfold Config.DEFAULT_RETRIES; lia|exact H].
Qed.

(** One page that yields and after which the iteration goes on. *)
Lemma page_continues (fuel : nat) (page : Z) (w : world) :
  page <= maxPages ->
  api (sent w) (requestFor params (of_Z page)) = Response (payloadOf page) ->
  continues ToNumber page (payloadOf page) = true ->
  iteratePages_from api ToString ToNumber (S fuel) params page maxPages
    rateLimitWait w
  = iteratePages_from api ToString ToNumber fuel params (page + 1) maxPages
      rateLimitWait (after w 1 (pagesEvents params maxPages rateLimitWait payloadOf page 1)).
Proof.
  intros Hle Hapi Hc. unfold continues in Hc.
  apply andb_true_iff in Hc. destruct Hc as [Hc Ht].
  apply andb_true_iff in Hc. destruct Hc as [Htr Hne].
  cbn [iteratePages_from].
  destruct (Z.leb_spec page maxPages); [|lia].
  rewrite (fetchPage_answered _ _ _ Hapi), Htr.
  cbn [negb]. apply negb_true_iff in Hne. rewrite Hne.
  destruct (reachedTotalPages ToNumber page (payloadOf page))
    as [[|]|]; try discriminate.
  f_equal. unfold pagesEvents, pageEvents, sleep, emit, after.
  cbn [sent trace]. rewrite app_nil_r.
  destruct (page <? maxPages); cbn [sent trace]; f_equal;
    rewrite <- ?app_assoc; reflexivity.
Qed.

(** [k] such pages in a row. *)
Lemma pages_continue (k : nat) :
  forall (fuel : nat) (page : Z) (w : world),
    page + Z.of_nat k - 1 <= maxPages ->
    (forall i, (i < k)%nat ->
       api (sent w + i)%nat
         (requestFor params (of_Z (page + Z.of_nat i)))
       = Response (payloadOf (page + Z.of_nat i)) /\
       continues ToNumber (page + Z.of_nat i)
         (payloadOf (page + Z.of_nat i)) = true) ->
    iteratePages_from api ToString ToNumber (k + fuel) params page maxPages
      rateLimitWait w
    = iteratePages_from api ToString ToNumber fuel params (page + Z.of_nat k)
        maxPages rateLimitWait (after w k (pagesEvents params maxPages rateLimitWait payloadOf page k)).
Proof.
  induction k as [|k IH]; intros fuel page w Hle Hgood.
  - simpl. rewrite after_0, Z.add_0_r. reflexivity.
  - change (S k + fuel)%nat with (S (k + fuel)).
    destruct (Hgood 0%nat) as [Hapi Hc]; [lia|].
    rewrite Nat.add_0_r, Z.add_0_r in *.
    rewrite page_continues by (try assumption; lia).
    rewrite IH.
    + rewrite after_after. f_equal; [lia|].
      f_equal. cbn [pagesEvents]. rewrite app_nil_r.
      reflexivity.
    + lia.
    + intros i Hi. cbn [sent after].
      replace (sent w + 1 + i)%nat with (sent w + S i)%nat by lia.
      replace (page + 1 + Z.of_nat i) with (page + Z.of_nat (S i)) by lia.
      apply Hgood. lia.
Qed.

(** The page at which the iteration ends. *)
Lemma page_final (fuel : nat) (page : Z) (w : world) (payload : value) :
  page <= maxPages ->
  api (sent w) (requestFor params (of_Z page)) = Response payload ->
  let fetched := after w 1 [Request (requestFor params (of_Z page))] in
  (truthy payload = false \/ extractResults payload = [] ->
   iteratePages_from api ToString ToNumber (S fuel) params page maxPages
     rateLimitWait w = (None, fetched)) /\
  (truthy payload = true -> extractResults payload <> [] ->
   reachedTotalPages ToNumber page payload = Return true ->
   iteratePages_from api ToString ToNumber (S fuel) params page maxPages
     rateLimitWait w
   = (None,
      after w 1
        (pageEvents params maxPages rateLimitWait page payload))).
Proof.
  intros Hle Hapi fetched. split.
  - intros Hstop. cbn [iteratePages_from].
    destruct (Z.leb_spec page maxPages); [|lia].
    rewrite (fetchPage_answered _ _ _ Hapi). fold fetched.
    destruct (truthy payload); [|reflexivity]. cbn [negb].
    destruct Hstop as [Hf|He]; [discriminate|]. rewrite He. reflexivity.
  - intros Htr Hne Hreached. cbn [iteratePages_from].
    destruct (Z.leb_spec page maxPages); [|lia].
    rewrite (fetchPage_answered _ _ _ Hapi), Htr. cbn [negb].
    destruct (extractResults payload) as [|r rs] eqn:E; [contradiction|].
    cbn [List.length]. rewrite Hreached.
    replace (Z.of_nat (S (List.length rs)) =? 0) with false
      by (symmetry; apply Z.eqb_neq; lia).
    f_equal. unfold pageEvents, sleep, emit, after. rewrite E.
    destruct (page <? maxPages); cbn [sent trace]; f_equal;
      rewrite <- ?app_assoc; reflexivity.
Qed.

(** Nor does the fuel of [iteratePages]: the loop ends by its own
    test, [page <= maxPages], or by a [break] or a [throw]. *)
Lemma iteratePages_from_fuel (fuel : nat) :
  forall (page : Z) (w : world),
    maxPages - page < Z.of_nat fuel ->
    iteratePages_from api ToString ToNumber (S fuel) params page maxPages
      rateLimitWait w
    = iteratePages_from api ToString ToNumber fuel params page maxPages
        rateLimitWait w.
Proof.
  induction fuel as [|fuel IH]; intros page w Hf.
  - cbn [iteratePages_from].
    destruct (Z.leb_spec page maxPages); [lia|reflexivity].
  - remember (S fuel) as n eqn:En.
    cbn [iteratePages_from]. subst n. cbn [iteratePages_from].
    destruct (page <=? maxPages); [|reflexivity].
    destruct (fetchPage api ToString params (of_Z page) Config.DEFAULT_RETRIES 5 w)
      as [r w1].
    destruct r as [payload|e]; [|reflexivity].
    destruct (negb (truthy payload)); [reflexivity|].
    destruct (Z.of_nat (List.length (extractResults payload)) =? 0);
      [reflexivity|].
    destruct (reachedTotalPages ToNumber page payload) as [[|]|];
      try reflexivity.
    apply IH. lia.
Qed.

Lemma iteratePages_from_beyond (fuel : nat) (page : Z) (w : world) :
  maxPages < page ->
  iteratePages_from api ToString ToNumber fuel params page maxPages rateLimitWait w
  = (None, w).
Proof.
  intros H. destruct fuel; [reflexivity|]. cbn [iteratePages_from].
  destruct (Z.leb_spec page maxPages); [lia|reflexivity].
Qed.

End Pages.

End IteratePagesFacts.

Module TotalPagesFacts.
Import JSNumber JS Fetcher FetchPageFacts IteratePagesFacts.
Local Open Scope string_scope.
Local Open Scope Z_scope.

Lemma reachedTotalPages_number (ToNumber : value -> option number)
    (page : Z) (payload : value) (n : number) :
  member payload "totalPages" = Num n ->
  reachedTotalPages ToNumber page payload
  = Return (JSNumber.truthy n && geb (of_Z page) n).
Proof.
  intros H. unfold reachedTotalPages. rewrite H. simpl.
  destruct (JSNumber.truthy n); reflexivity.
Qed.

Lemma reachedTotalPages_absent (ToNumber : value -> option number)
    (page : Z) (payload : value) :
  member payload "totalPages" = Undefined ->
  reachedTotalPages ToNumber page payload = Return false.
Proof. intros H. unfold reachedTotalPages. rewrite H. reflexivity. Qed.

End TotalPagesFacts.

(** ** SHA-256 and [generateRecordId] *)

Module CryptoFacts.
Import Crypto.
Local Open Scope Z_scope.
















End CryptoFacts.

Module RecordIdFacts.
Import ZillowTypes Migrator CryptoFacts.
Local Open Scope string_scope.

Lemma or_empty_id (s : string) : or_empty s = s.
Proof.
  unfold or_empty. destruct (String.eqb_spec s ""); simpl; congruence.
Qed.

(** The seed is the detail URL. *)
Lemma seedOf_detailUrl (property : ZillowProperty) :
  seedOf property = detailUrl property.
Proof. unfold seedOf. simpl. apply or_empty_id. Qed.

(** The repository's own expectations, [migrator.test.ts]. *)
Example generateRecordId_tests :
  generateRecordId (listing "https://zillow.com/property/test" absent)
  = "93C20CF7F9B9FFD0CF33CA1CE42741F05C2F13BBD60D613AAD869EAEFF79E587" /\
  generateRecordId (listing "https://zillow.com/property/123" absent)
  <> generateRecordId (listing "https://zillow.com/property/456" absent).
Proof.
  split; [vm_compute; reflexivity|]. vm_compute. discriminate.
Qed.


End RecordIdFacts.

(** ** The properties at concrete inputs *)

Module Witnesses.
Import JSNumber JS ZillowTypes Fetcher Migrator Samples.
Local Open Scope string_scope.

Lemma deduplicate_keeps_last_witness :
  NoDup (map detail_url (deduplicateByDetailUrl duplicates)) /\
  List.length
    (withUrl "https://zillow.com/property/123"
       (deduplicateByDetailUrl duplicates)) = 1%nat /\
  lastWith "https://zillow.com/property/123" duplicates
  = Some (rental "id2" "https://zillow.com/property/123" 210000).
Proof.
  destruct (DedupFacts.deduplicate_keeps_last duplicates)
    as (H1 & H2 & _ & H4 & _).
  split; [exact H1|]. split.
  - apply H2. simpl. tauto.
  - apply (H4 (rental "id2" "https://zillow.com/property/123" 210000)).
    simpl. tauto.
Defined.

Lemma deduplicate_first_seen_order_witness :
  map detail_url (deduplicateByDetailUrl threeGroups) = ["/a"; "/b"; "/c"].
Proof.
  rewrite (proj1 (DedupFacts.deduplicate_first_seen_order threeGroups)).
  reflexivity.
Defined.


Lemma fetchPage_404_and_auth_witness :
  fetchPage errorThenNotFound noText [] (of_Z 1) 4 5 start
  = (Return (Obj [("results", Arr [])]),
     {| sent := 2;
        trace := [Request (requestFor [] (of_Z 1)); Warn; Sleep 5000;
                  Request (requestFor [] (of_Z 1))] |}) /\
  fetchPage unauthorized noText [] (of_Z 1) 4 5 start
  = (Throw (AuthenticationError (Obj [("message", Str "Invalid API key")])),
     {| sent := 1; trace := [Request (requestFor [] (of_Z 1))] |}) /\
  fetchPage unauthorizedUnreadable noText [] (of_Z 1) 4 5 start
  = (Throw TypeError,
     {| sent := 1; trace := [Request (requestFor [] (of_Z 1))] |}).
Proof.
  split; [|split].
  - refine (proj1 (FetchPageFacts.fetchPage_404_and_auth
                     errorThenNotFound noText [] (of_Z 1) 4 5 start 1 Null
                     eq_refl _) eq_refl).
    intros i Hi. destruct i; [reflexivity|lia].
  - refine (proj1 (proj2 (FetchPageFacts.fetchPage_404_and_auth
                            unauthorized noText [] (of_Z 1) 4 5 start 0
                            (Obj [("message", Str "Invalid API key")])
                            eq_refl _) (or_introl eq_refl)) _).
    + intros i Hi. lia.
    + exists (Str "Invalid API key"), "Invalid API key".
      split; reflexivity.
  - refine (proj2 (proj2 (proj2 (FetchPageFacts.fetchPage_404_and_auth
                                   unauthorizedUnreadable noText []
                                   (of_Z 1) 4 5 start 0
                                   (Obj [("errors", Arr [Null])])
                                   eq_refl _) (or_introl eq_refl)))
              [Null] eq_refl eq_refl eq_refl eq_refl eq_refl).
    intros i Hi. lia.
Defined.

Lemma flattenMapping_joins_and_preserves_witness :
  flattenMapping nested ""
  = [("address__street", Str "123 Main St");
     ("address__city", Str "Nashville");
     ("tags", Arr [Str "a"; Str "b"]);
     ("price", Num (of_Z 2000))] /\
  ~ In "__proto__"
      (keys (flattenMapping
               [("__proto__", Arr [Str "a"]); ("a", Num (of_Z 1))] "")).
Proof.
  split.
  - destruct (FlattenFacts.flattenMapping_joins_and_preserves
                nested "" "price" (Num (of_Z 2000)))
      as (_ & _ & _ & _ & _ & _ & _ & _ & _ & Hdistinct & _).
    rewrite Hdistinct; [reflexivity| |].
    + repeat constructor; simpl; intuition discriminate.
    + repeat constructor; discriminate.
  - destruct (FlattenFacts.flattenMapping_joins_and_preserves
                [("__proto__", Arr [Str "a"]); ("a", Num (of_Z 1))]
                "" "a" (Num (of_Z 1)))
      as (_ & _ & _ & _ & _ & _ & _ & Hkeys & _).
    intros Hin. apply Hkeys in Hin. destruct Hin as [_ Hne].
    apply Hne. reflexivity.
Defined.

Lemma recordsToProperties_collects_witness :
  recordsToProperties (fun n => negb (is_nan n)) batch
  = (Return [listing "https://zillow.com/property/2" (present (of_Z 2100))],
     1%nat).
Proof.
  rewrite (RecordsFacts.recordsToProperties_collects
             (fun n => negb (is_nan n)) batch).
  - reflexivity.
  - repeat constructor.
Defined.

Lemma fetchPage_exhausted_witness :
  fst (fetchPage serverError noText [] (of_Z 1) 2 5 start)
  = Throw (ZillowAPIError (Some 500%Z) Null).
Proof.
  rewrite (proj1 (FetchPageFacts.fetchPage_exhausted
                    serverError noText [] (of_Z 1) 2 5 start 1
                    (Some 500%Z) Null eq_refl
                    (fun i _ => eq_refl) eq_refl eq_refl eq_refl)).
  - reflexivity.
  - exists (Str "Unknown API error"), "Unknown API error".
    split; reflexivity.
Defined.


End Witnesses.

(** ** [augmentWithUnits] and the multi-unit branch of
    [recordsToProperties] *)

Module UnitsFacts.
Import JSNumber JS ZillowTypes Fetcher Units.
Local Open Scope string_scope.

Lemma append_cancel (p a b : string) : p ++ a = p ++ b -> a = b.
Proof.
  induction p as [|c p IH]; simpl; intros H; [exact H|].
  injection H as H. exact (IH H).
Qed.

Lemma digits_inj (i j : nat) :
  NilEmpty.string_of_uint (Nat.to_uint i)
  = NilEmpty.string_of_uint (Nat.to_uint j) -> i = j.
Proof.
  intros H.
  assert (E : Some (Nat.to_uint i) = Some (Nat.to_uint j)).
  { rewrite <- !NilEmpty.usu. rewrite H. reflexivity. }
  injection E as E.
  rewrite <- (DecimalNat.Unsigned.of_to i), <- (DecimalNat.Unsigned.of_to j).
  rewrite E. reflexivity.
Qed.

(** Two indexed keys are equal only for the same field and the same
    index. *)
Lemma indexed_eq (name name' : string) (i j : nat) :
  In name unitFields -> In name' unitFields ->
  indexed name i = indexed name' j -> name = name' /\ i = j.
Proof.
  unfold unitFields, indexed. simpl.
  intros [<-|[<-|[<-|[]]]] [<-|[<-|[<-|[]]]] H; simpl in H;
    try discriminate;
    (split; [reflexivity|]);
    repeat (injection H as H); apply digits_inj; exact H.
Qed.

(** No key of the schema is an indexed key. *)
Lemma schemaKey_not_indexed (k name : string) (j : nat) :
  In k schemaKeys -> In name unitFields -> k <> indexed name j.
Proof.
  unfold schemaKeys, unitFields, indexed. simpl.
  intros Hk [<-|[<-|[<-|[]]]];
    repeat (destruct Hk as [<-|Hk]; [simpl; discriminate|]);
    destruct Hk.
Qed.

(** An indexed key is not the name of the prototype. *)
Lemma indexed_stored (name : string) (unitIndex : nat) :
  In name unitFields -> indexed name unitIndex <> "__proto__".
Proof.
  unfold unitFields, indexed. simpl.
  intros [<-|[<-|[<-|[]]]]; simpl; discriminate.
Qed.

Lemma get_copyUnitField (unit : value) (name : string) (unitIndex : nat)
    (augmented : object) (k : string) :
  In name unitFields ->
  get (copyUnitField unit name unitIndex augmented) k
  = if String.eqb (indexed name unitIndex) k
    then defined_or (member unit name) (get augmented k)
    else get augmented k.
Proof.
  intros Hn. pose proof (indexed_stored name unitIndex Hn) as Hp.
  unfold copyUnitField.
  destruct (String.eqb_spec (indexed name unitIndex) k) as [<-|Hne].
  - destruct (member unit name); simpl;
      try reflexivity; apply FlattenFacts.get_set_same; exact Hp.
  - destruct (member unit name); simpl;
      try reflexivity; apply FlattenFacts.get_set_other; exact Hne.
Qed.

Lemma keys_copyUnitField (unit : value) (name : string) (unitIndex : nat)
    (augmented : object) :
  NoDup (keys augmented) ->
  NoDup (keys (copyUnitField unit name unitIndex augmented)).
Proof.
  intros H. unfold copyUnitField.
  destruct (member unit name); try exact H;
    apply FlattenFacts.set_NoDup; exact H.
Qed.

(** What the units from position [index] on leave under a key that is
    not one of theirs. *)
Lemma augmentFrom_frame (units : list value) :
  forall (index : nat) (augmented result : object) (k : string),
    augmentFrom index units augmented = Return result ->
    (forall name j, In name unitFields ->
       (index < j <= index + List.length units)%nat ->
       k <> indexed name j) ->
    get result k = get augmented k.
Proof.
  induction units as [|unit rest IH]; intros index augmented result k.
  - simpl. intros [= <-] _. reflexivity.
  - intros H Hk.
    assert (Hrest : augmentFrom (S index) rest
              (copyUnitField unit "bathrooms" (index + 1)
                 (copyUnitField unit "beds" (index + 1)
                    (copyUnitField unit "price" (index + 1) augmented)))
            = Return result).
    { destruct unit; simpl in H; try discriminate; exact H. }
    rewrite (IH _ _ _ k Hrest).
    + rewrite !get_copyUnitField by (unfold unitFields; simpl; tauto).
      assert (Hne : forall name, In name unitFields ->
                String.eqb (indexed name (index + 1)) k = false).
      { intros name Hn. apply String.eqb_neq. intros E.
        apply (Hk name (index + 1)%nat Hn); [simpl; lia|congruence]. }
      rewrite !Hne by (unfold unitFields; simpl; tauto). reflexivity.
    + intros name j Hn Hj. apply Hk; [exact Hn|simpl; lia].
Qed.

Lemma augmentFrom_NoDup (units : list value) :
  forall (index : nat) (augmented result : object),
    augmentFrom index units augmented = Return result ->
    NoDup (keys augmented) -> NoDup (keys result).
Proof.
  induction units as [|unit rest IH]; intros index augmented result.
  - simpl. intros [= <-] H. exact H.
  - intros H Hnd.
    assert (Hrest : augmentFrom (S index) rest
              (copyUnitField unit "bathrooms" (index + 1)
                 (copyUnitField unit "beds" (index + 1)
                    (copyUnitField unit "price" (index + 1) augmented)))
            = Return result).
    { destruct unit; simpl in H; try discriminate; exact H. }
    apply (IH _ _ _ Hrest). repeat apply keys_copyUnitField. exact Hnd.
Qed.

(** What the units from position [index] on store for the unit at
    position [i] among them. *)
Lemma augmentFrom_lookup (units : list value) :
  forall (index i : nat) (augmented result : object) (unit : value)
         (name : string),
    augmentFrom index units augmented = Return result ->
    nth_error units i = Some unit ->
    In name unitFields ->
    get result (indexed name (index + i + 1))
    = defined_or (member unit name)
        (get augmented (indexed name (index + i + 1))).
Proof.
  induction units as [|u rest IH];
    intros index i augmented result unit name H Hi Hn.
  - destruct i; discriminate.
  - assert (Hrest : augmentFrom (S index) rest
              (copyUnitField u "bathrooms" (index + 1)
                 (copyUnitField u "beds" (index + 1)
                    (copyUnitField u "price" (index + 1) augmented)))
            = Return result).
    { destruct u; simpl in H; try discriminate; exact H. }
    assert (Hother : forall name' j, In name' unitFields ->
              (j <> index + i + 1)%nat \/ name' <> name ->
              String.eqb (indexed name' j) (indexed name (index + i + 1))
              = false).
    { intros name' j Hn' Hj. apply String.eqb_neq. intros E.
      destruct (indexed_eq _ _ _ _ Hn' Hn E) as [E1 E2].
      destruct Hj as [Hj|Hj]; contradiction. }
    destruct i as [|i].
    + injection Hi as ->. rewrite Nat.add_0_r in *.
      rewrite (augmentFrom_frame rest _ _ _ _ Hrest).
      * rewrite !get_copyUnitField by (unfold unitFields; simpl; tauto).
        unfold unitFields in Hn. simpl in Hn.
        destruct Hn as [<-|[<-|[<-|[]]]].
        -- rewrite (Hother "bathrooms" (index + 1)%nat)
             by (unfold unitFields; simpl; auto; right; discriminate).
           rewrite (Hother "beds" (index + 1)%nat)
             by (unfold unitFields; simpl; auto; right; discriminate).
           rewrite String.eqb_refl. reflexivity.
        -- rewrite (Hother "bathrooms" (index + 1)%nat)
             by (unfold unitFields; simpl; auto; right; discriminate).
           rewrite String.eqb_refl.
           rewrite (Hother "price" (index + 1)%nat)
             by (unfold unitFields; simpl; auto; right; discriminate).
           reflexivity.
        -- rewrite String.eqb_refl.
           rewrite (Hother "beds" (index + 1)%nat)
             by (unfold unitFields; simpl; auto; right; discriminate).
           rewrite (Hother "price" (index + 1)%nat)
             by (unfold unitFields; simpl; auto; right; discriminate).
           reflexivity.
      * intros name' j Hn' Hj E.
        destruct (indexed_eq _ _ _ _ Hn Hn' E) as [_ E2]. lia.
    + simpl in Hi.
      replace (index + S i + 1)%nat with (S index + i + 1)%nat by lia.
      rewrite (IH _ _ _ _ _ _ Hrest Hi Hn).
      rewrite !get_copyUnitField by (unfold unitFields; simpl; tauto).
      replace (S index + i + 1)%nat with (index + S i + 1)%nat by lia.
      rewrite !Hother by (try (unfold unitFields; simpl; tauto); left; lia).
      reflexivity.
Qed.

Lemma augmentFrom_unreadable (units : list value) :
  forallb readable units = false ->
  forall index augmented,
    augmentFrom index units augmented = Throw TypeError.
Proof.
  induction units as [|unit rest IH]; simpl; [discriminate|].
  intros H index augmented. apply andb_false_iff in H.
  destruct unit; simpl in H;
    try reflexivity;
    (destruct H as [H|H]; [discriminate|]); apply IH; exact H.
Qed.

Lemma get_assign_out (s : object) (k : string) :
  ~ In k (keys s) -> forall t, get (assign t s) k = get t k.
Proof.
  induction s as [|[k' v] s IH]; intros Hk t; [reflexivity|].
  change (assign t ((k', v) :: s)) with (assign (set t k' v) s).
  rewrite IH by (intros Hin; apply Hk; right; exact Hin).
  apply FlattenFacts.get_set_other. intros ->. apply Hk. left. reflexivity.
Qed.

Lemma get_assign_in (s : object) (k : string) :
  k <> "__proto__" -> NoDup (keys s) -> In k (keys s) ->
  forall t, get (assign t s) k = get s k.
Proof.
  intros Hp.
  induction s as [|[k' v] s IH]; intros Hnd Hk t; [destruct Hk|].
  change (assign t ((k', v) :: s)) with (assign (set t k' v) s).
  inversion Hnd as [|? ? Hfresh Hnd']; subst. simpl.
  destruct (String.eqb_spec k' k) as [->|Hne].
  - rewrite get_assign_out by exact Hfresh.
    apply FlattenFacts.get_set_same, Hp.
  - destruct Hk as [Hk|Hk]; [contradiction|].
    apply IH; assumption.
Qed.

Lemma flattenMapping_NoDup (obj : object) (prefix : string) :
  NoDup (keys (flattenMapping obj prefix)).
Proof.
  rewrite FlattenFacts.flattenMapping_leaves.
  apply FlattenFacts.assign_NoDup. constructor.
Qed.

(** [augmentWithUnits] returns when every unit is an object or a
    primitive, and throws a [TypeError] when one is [null] or
    [undefined]. *)
Theorem augmentWithUnits_returns_iff (baseRecord : object)
    (units : list value) :
  ((exists augmented, augmentWithUnits baseRecord units = Return augmented)
   <-> forallb readable units = true) /\
  (augmentWithUnits baseRecord units = Throw TypeError
   <-> forallb readable units = false).
Proof.
  unfold augmentWithUnits.
  destruct (forallb readable units) eqn:H.
  - destruct (RecordsFacts.augmentFrom_readable units H 0%nat baseRecord)
      as [r Hr].
    split; split; try discriminate.
    + reflexivity.
    + intros _. exists r. exact Hr.
    + rewrite Hr. discriminate.
  - rewrite (augmentFrom_unreadable units H). split; split.
    + intros [r Hr]. discriminate.
    + discriminate.
    + reflexivity.
    + reflexivity.
Qed.

(** The unit at position [i] (from 0) is found under the keys
    [price_(i+1)], [beds_(i+1)] and [bathrooms_(i+1)] of the augmented
    record, whatever the units after it hold; a field the unit does not
    define leaves the key as the base record has it. *)
Theorem augmentWithUnits_stores_units
    (baseRecord augmented : object) (units : list value)
    (i : nat) (unit : value) (name : string) :
  augmentWithUnits baseRecord units = Return augmented ->
  nth_error units i = Some unit ->
  In name unitFields ->
  get augmented (indexed name (i + 1))
  = defined_or (member unit name)
      (get baseRecord (indexed name (i + 1))).
Proof.
  intros H Hi Hn.
  exact (augmentFrom_lookup units 0 i baseRecord augmented unit name
           H Hi Hn).
Qed.

(** Every key that is not an indexed key of one of the units keeps the
    value the base record has under it. *)
Theorem augmentWithUnits_keeps_base
    (baseRecord augmented : object) (units : list value) (k : string) :
  augmentWithUnits baseRecord units = Return augmented ->
  (forall name j, In name unitFields ->
     (1 <= j <= List.length units)%nat -> k <> indexed name j) ->
  get augmented k = get baseRecord k.
Proof.
  intros H Hk.
  apply (augmentFrom_frame units 0 baseRecord augmented k H).
  intros name j Hn Hj. apply Hk; [exact Hn|lia].
Qed.

Section Schema.
Variable z_number_accepts : number -> bool.

Lemma schema_reads_schemaKeys (o o' : object) :
  (forall k, In k schemaKeys -> get o k = get o' k) ->
  ZillowPropertySchema z_number_accepts o
  = ZillowPropertySchema z_number_accepts o'.
Proof.
  intros H. unfold ZillowPropertySchema.
  rewrite !H by (unfold schemaKeys; simpl; tauto). reflexivity.
Qed.

(** The indexed fields that the multi-unit branch adds never reach the
    validated property: for a record with a non-empty, readable
    sequence of units the outcome of the turn is that of parsing the
    flattened record with [units] set. *)
Theorem toProperty_ignores_indexed_fields
    (record : object) (us : list value) :
  get record "units" = Arr us ->
  us <> [] ->
  forallb readable us = true ->
  toProperty z_number_accepts record
  = ZillowPropertySchema z_number_accepts
      (set (flattenMapping record "") "units" (Arr us)).
Proof.
  intros Hu Hne Hr. unfold toProperty, prepareRecord. rewrite Hu.
  destruct us as [|u us]; [contradiction|].
  destruct (RecordsFacts.augmentFrom_readable (u :: us) Hr 0%nat
              (flattenMapping record "")) as [aug Haug].
  unfold augmentWithUnits. rewrite Haug. simpl bind. cbv iota.
  apply schema_reads_schemaKeys. intros k Hk.
  destruct (String.eqb_spec "units" k) as [<-|Hku].
  - rewrite !FlattenFacts.get_set_same by discriminate. reflexivity.
  - rewrite !FlattenFacts.get_set_other by exact Hku.
    assert (Hframe : get aug k = get (flattenMapping record "") k).
    { apply (augmentFrom_frame (u :: us) 0 _ aug k Haug).
      intros name j Hn _. apply schemaKey_not_indexed; assumption. }
    destruct (in_dec string_dec k (keys aug)) as [Hin|Hout].
    + rewrite get_assign_in; [exact Hframe| | |exact Hin].
      * intros ->. unfold schemaKeys in Hk. simpl in Hk.
        intuition discriminate.
      * apply (augmentFrom_NoDup (u :: us) 0 _ aug Haug).
        apply flattenMapping_NoDup.
    + apply get_assign_out. exact Hout.
Qed.
End Schema.

End UnitsFacts.

(** ** What [fetchPage] and [iteratePages] do against any API *)

Module BoundsFacts.
Import JSNumber JS Fetcher Runs FetchPageFacts IteratePagesFacts.
Local Open Scope string_scope.
Local Open Scope Z_scope.

Lemma since_after (w : world) (n : nat) (evs : list event) :
  since w (after w n evs) = evs.
Proof.
  unfold since, after. cbn [trace].
  rewrite skipn_app, skipn_all, Nat.sub_diag. reflexivity.
Qed.

Lemma waits_app (tr1 tr2 : list event) :
  waits (tr1 ++ tr2) = (waits tr1 ++ waits tr2)%list.
Proof.
  induction tr1 as [|[rp| |ms|results] tr1 IH]; simpl; rewrite ?IH;
    reflexivity.
Qed.

Lemma yielded_retried (rp : object) (cooldown : Z) (k : nat) :
  forall attempt, yielded (retried rp cooldown attempt k) = [].
Proof. induction k as [|k IH]; intros attempt; simpl; auto. Qed.

Lemma total_waits_retried (rp : object) (cooldown : Z) (k : nat) :
  forall attempt,
    2 * total (waits (retried rp cooldown attempt k))
    = cooldown * 1000 * Z.of_nat k * (2 * attempt + Z.of_nat k - 1).
Proof.
  induction k as [|k IH]; intros attempt.
  - simpl. lia.
  - cbn [retried waits total fold_right]. fold (total (waits (retried rp cooldown (attempt + 1) k))).
    specialize (IH (attempt + 1)). nia.
Qed.

Section AnyApi.
Variable api : nat -> object -> outcome.
Variable ToString : value -> option string.

(** The loop of [fetchPage], entered with attempts left: some
    attempts that are retried, then one that ends the call. *)
Lemma fetchPage_attempts_shape (fuel : nat) :
  forall (rp : object) (attempt retries cooldown : Z) (w : world),
    attempt <= retries ->
    retries - attempt < Z.of_nat fuel ->
    exists j : nat,
      attempt + Z.of_nat j <= retries /\
      snd (fetchPage_attempts api ToString fuel rp attempt retries cooldown w)
      = after w (j + 1) (retried rp cooldown attempt j ++ [Request rp])%list.
Proof.
  induction fuel as [|fuel IH]; intros rp attempt retries cooldown w Hle Hf;
    [lia|].
  assert (Hstop : exists j : nat,
             attempt + Z.of_nat j <= retries /\
             after w 1 [Request rp]
             = after w (j + 1)
                 (retried rp cooldown attempt j ++ [Request rp])%list).
  { exists 0%nat. split; [lia|reflexivity]. }
  assert (Hretry : attempt < retries ->
            exists j : nat,
              attempt + Z.of_nat j <= retries /\
              snd (fetchPage_attempts api ToString fuel rp (attempt + 1) retries
                     cooldown
                     (sleep (cooldown * attempt * 1000)
                        (emit Warn (after w 1 [Request rp]))))
              = after w (j + 1)
                  (retried rp cooldown attempt j ++ [Request rp])%list).
  { intros Hlt.
    destruct (IH rp (attempt + 1) retries cooldown
                (sleep (cooldown * attempt * 1000)
                   (emit Warn (after w 1 [Request rp]))))
      as (j & Hj & E); [lia|lia|].
    exists (S j). split; [lia|]. rewrite E.
    unfold sleep, emit, after. cbn [sent trace retried].
    f_equal; [lia|]. rewrite <- !app_assoc. reflexivity. }
  cbn [fetchPage_attempts]. unfold client_get.
  assert (E1 : {| sent := S (sent w);
                  trace := (trace w ++ [Request rp])%list |}
               = after w 1 [Request rp]).
  { unfold after. f_equal. lia. }
  rewrite E1.
  destruct (Z.leb_spec attempt retries); [|lia].
  destruct (api (sent w) rp) as [data|status data|e]; cbn [snd];
    try exact Hstop.
  destruct (status_is status 404); [exact Hstop|].
  destruct (status_is status 401 || status_is status 403);
    [destruct (Errors.messageText ToString data); exact Hstop|].
  destruct (status_is status 429).
  - destruct (Z.ltb_spec attempt retries); [|exact Hstop].
    apply Hretry. assumption.
  - destruct (Z.ltb_spec attempt retries);
      [|destruct (Errors.messageText ToString data); exact Hstop].
    apply Hretry. assumption.
Qed.

Lemma fetchPage_shape (params : object) (page : number)
    (retries cooldown : Z) (w : world) :
  1 <= retries ->
  exists j : nat,
    Z.of_nat j < retries /\
    snd (fetchPage api ToString params page retries cooldown w)
    = after w (j + 1)
        (retried (requestFor params page) cooldown 1 j
         ++ [Request (requestFor params page)])%list.
Proof.
  intros H. unfold fetchPage.
  destruct (fetchPage_attempts_shape (Z.to_nat retries)
              (requestFor params page) 1 retries cooldown w)
    as (j & Hj & E); [lia|lia|].
  exists j. split; [lia|exact E].
Qed.

Lemma fetchPage_idle (params : object) (page : number)
    (retries cooldown : Z) (w : world) :
  retries < 1 ->
  fetchPage api ToString params page retries cooldown w = (Return Null, w).
Proof.
  intros H. unfold fetchPage.
  destruct (Z.to_nat retries); [reflexivity|].
  cbn [fetchPage_attempts].
  destruct (Z.leb_spec 1 retries); [lia|reflexivity].
Qed.

(** Whatever the API answers, [fetchPage] adds to the trace and
    never rewrites it; it sends at most [retries] requests, all for
    the page [safePageNumber page]; it yields nothing; and with a
    cooldown that is not negative it waits at most
    [cooldown * (1 + ... + (retries - 1))] seconds in all. *)
Theorem fetchPage_bounded (params : object) (page : number)
    (retries cooldown : Z) (w : world) :
  0 <= cooldown ->
  let w' := snd (fetchPage api ToString params page retries cooldown w) in
  let added := since w w' in
  trace w' = (trace w ++ added)%list /\
  (sent w' <= sent w + Z.to_nat retries)%nat /\
  requested added
  = repeat (Num (safePageNumber page)) (sent w' - sent w) /\
  yielded added = [] /\
  total (waits added) <= cooldown * 500 * retries * (retries - 1).
Proof.
  intros Hc w' added.
  destruct (Z.lt_ge_cases retries 1) as [Hidle|Hsome].
  - assert (E : w' = after w 0 []).
    { unfold w'. rewrite fetchPage_idle by exact Hidle.
      symmetry. apply after_0. }
    unfold added. rewrite E, since_after. cbn [after sent trace].
    rewrite app_nil_r, Nat.add_0_r, Nat.sub_diag.
    repeat split; try reflexivity; [lia|].
    cbn [waits total fold_right]. nia.
  - destruct (fetchPage_shape params page retries cooldown w Hsome)
      as (j & Hj & E).
    fold w' in E. unfold added. rewrite E, since_after.
    cbn [after sent trace].
    repeat split.
    + lia.
    + rewrite requested_app, requested_retried. cbn [requested].
      rewrite requestFor_page.
      replace (sent w + (j + 1) - sent w)%nat with (S j) by lia.
      cbn [repeat]. rewrite repeat_cons. reflexivity.
    + rewrite yielded_app, yielded_retried. reflexivity.
    + rewrite waits_app. cbn [waits]. rewrite app_nil_r.
      pose proof (total_waits_retried (requestFor params page)
                    cooldown j 1) as Hsum.
      nia.
Qed.

Variable ToNumber : value -> option number.
Variables (params : object) (maxPages rateLimitWait : Z).

Lemma emit_after (ev : event) (w : world) (n : nat) (evs : list event) :
  emit ev (after w n evs) = after w n (evs ++ [ev])%list.
Proof.
  unfold emit, after. cbn [sent trace]. rewrite app_assoc. reflexivity.
Qed.

Lemma iteratePages_from_shape (fuel : nat) :
  forall (page : Z) (w : world),
    exists (n : nat) (evs : list event),
      snd (iteratePages_from api ToString ToNumber fuel params page maxPages
             rateLimitWait w) = after w n evs /\
      (n <= Z.to_nat Config.DEFAULT_RETRIES * fuel)%nat /\
      (List.length (yielded evs) <= fuel)%nat /\
      Forall (fun batch => batch <> []) (yielded evs) /\
      Forall (allowed maxPages page) (requested evs).
Proof.
  induction fuel as [|fuel IH]; intros page w.
  { exists 0%nat, []. rewrite after_0. simpl. repeat split; auto. }
  cbn [iteratePages_from].
  destruct (Z.leb_spec page maxPages) as [Hle|Hgt].
  2:{ exists 0%nat, []. rewrite after_0. simpl. repeat split; auto; lia. }
  destruct (fetchPage_shape params (of_Z page) Config.DEFAULT_RETRIES 5 w)
    as (j & Hj & E); [unfold Config.DEFAULT_RETRIES; lia|].
  unfold Config.DEFAULT_RETRIES in Hj.
  set (rp := requestFor params (of_Z page)) in *.
  set (evs1 := (retried rp 5 1 j ++ [Request rp])%list) in *.
  assert (Hy1 : yielded evs1 = []).
  { unfold evs1. rewrite yielded_app, yielded_retried. reflexivity. }
  assert (Hr1 : Forall (allowed maxPages page) (requested evs1)).
  { unfold evs1. rewrite requested_app, requested_retried.
    cbn [requested]. unfold rp. rewrite requestFor_page.
    apply Forall_app. split.
    - apply Forall_forall. intros v Hv. apply repeat_spec in Hv.
      subst v. exists page. split; [lia|reflexivity].
    - constructor; [|constructor].
      exists page. split; [lia|reflexivity]. }
  assert (Hend : exists (n : nat) (evs : list event),
             after w (j + 1) evs1 = after w n evs /\
             (n <= Z.to_nat 4 * S fuel)%nat /\
             (List.length (yielded evs) <= S fuel)%nat /\
             Forall (fun batch => batch <> []) (yielded evs) /\
             Forall (allowed maxPages page) (requested evs)).
  { exists (j + 1)%nat, evs1. rewrite Hy1.
    repeat split; auto; simpl; lia. }
  destruct (fetchPage api ToString params (of_Z page) Config.DEFAULT_RETRIES 5 w)
    as [r w1].
  cbn [snd] in E. subst w1.
  destruct r as [payload|e]; [|exact Hend].
  destruct (negb (truthy payload)); [exact Hend|].
  destruct (Z.eqb_spec (Z.of_nat (List.length (extractResults payload))) 0)
    as [Hz|Hnz]; [exact Hend|].
  set (results := extractResults payload) in *.
  set (tail := if page <? maxPages then [Sleep rateLimitWait] else []).
  assert (E3 : (if page <? maxPages
                then sleep rateLimitWait
                       (emit (Yield results) (after w (j + 1) evs1))
                else emit (Yield results) (after w (j + 1) evs1))
               = after w (j + 1) (evs1 ++ Yield results :: tail)%list).
  { unfold tail, sleep. destruct (page <? maxPages);
      rewrite !emit_after; rewrite <- ?app_assoc; reflexivity. }
  rewrite E3.
  assert (Hyt : yielded tail = [] /\ requested tail = []).
  { unfold tail. destruct (page <? maxPages); split; reflexivity. }
  destruct Hyt as [Hyt Hrt].
  assert (Hres : results <> []).
  { intros Hnil. apply Hnz. rewrite Hnil. reflexivity. }
  assert (Hhere : exists (n : nat) (evs : list event),
             after w (j + 1) (evs1 ++ Yield results :: tail)%list
             = after w n evs /\
             (n <= Z.to_nat 4 * S fuel)%nat /\
             (List.length (yielded evs) <= S fuel)%nat /\
             Forall (fun batch => batch <> []) (yielded evs) /\
             Forall (allowed maxPages page) (requested evs)).
  { exists (j + 1)%nat, (evs1 ++ Yield results :: tail)%list.
    rewrite yielded_app, requested_app, Hy1. cbn [yielded requested app].
    rewrite Hyt, Hrt, app_nil_r.
    repeat split; auto; simpl; lia. }
  destruct (reachedTotalPages ToNumber page payload) as [[|]|err];
    [exact Hhere| |exact Hhere].
  destruct (IH (page + 1)
              (after w (j + 1) (evs1 ++ Yield results :: tail)%list))
    as (n & evs & En & Hn & Hy & Hne & Hreq).
  exists (j + 1 + n)%nat, ((evs1 ++ Yield results :: tail) ++ evs)%list.
  rewrite En, after_after.
  split; [reflexivity|].
  rewrite !yielded_app, !requested_app, Hy1.
  cbn [yielded requested app]. rewrite Hyt, Hrt, app_nil_r. cbn [app].
  unfold Config.DEFAULT_RETRIES in *.
  repeat split.
  - lia.
  - simpl. lia.
  - constructor; assumption.
  - apply Forall_app. split; [exact Hr1|].
    eapply Forall_impl; [|exact Hreq].
    intros v (p & Hp & ->). exists p. split; [lia|reflexivity].
Qed.

(** Whatever the API answers, [iteratePages] adds to the trace and
    never rewrites it; it sends at most [DEFAULT_RETRIES] requests a
    page, so at most [DEFAULT_RETRIES * maxPages] in all; it yields at
    most [maxPages] batches, none of them empty; and every page it
    asks for is the safe number of an integer from 1 to
    [maxPages]. *)
Theorem iteratePages_bounded (w : world) :
  let w' := snd (iteratePages api ToString ToNumber params maxPages
                   rateLimitWait w) in
  let added := since w w' in
  trace w' = (trace w ++ added)%list /\
  (sent w' <= sent w
              + Z.to_nat Config.DEFAULT_RETRIES * Z.to_nat maxPages)%nat /\
  (List.length (yielded added) <= Z.to_nat maxPages)%nat /\
  Forall (fun batch => batch <> []) (yielded added) /\
  Forall (fun v => exists p, 1 <= p <= maxPages /\
                             v = Num (safePageNumber (of_Z p)))
    (requested added).
Proof.
  intros w' added.
  destruct (iteratePages_from_shape (Z.to_nat maxPages) 1 w)
    as (n & evs & E & Hn & Hy & Hne & Hreq).
  subst added w'. unfold iteratePages. rewrite E, since_after.
  cbn [after sent trace].
  repeat split; try assumption. lia.
Qed.

Variable payloadOf : Z -> value.

(** After [k] pages that were answered at once and after which the
    iteration went on, whatever [fetchPage] throws for page [k + 1]
    is what the iteration throws, in the world [fetchPage] left: the
    batches of the [k] pages have been yielded, and no later page is
    asked for. *)
Theorem iteratePages_rethrows (w w1 : world) (k : nat) (e : error) :
  let page := 1 + Z.of_nat k in
  let events := pagesEvents params maxPages rateLimitWait payloadOf 1 k in
  (forall i, (i < k)%nat ->
     api (sent w + i)%nat (requestFor params (of_Z (1 + Z.of_nat i)))
     = Response (payloadOf (1 + Z.of_nat i)) /\
     continues ToNumber (1 + Z.of_nat i) (payloadOf (1 + Z.of_nat i))
     = true) ->
  page <= maxPages ->
  fetchPage api ToString params (of_Z page) Config.DEFAULT_RETRIES 5
    (after w k events) = (Throw e, w1) ->
  iteratePages api ToString ToNumber params maxPages rateLimitWait w
  = (Some e, w1).
Proof.
  intros page events Hgood Hle Hthrow.
  assert (E : exists fuel, Z.to_nat maxPages = (k + S fuel)%nat)
    by (exists (Z.to_nat maxPages - k - 1)%nat; lia).
  destruct E as [fuel E].
  unfold iteratePages. rewrite E.
  rewrite (pages_continue api ToString ToNumber params maxPages rateLimitWait
             payloadOf k (S fuel) 1 w); [|lia|exact Hgood].
  fold page events. cbn [iteratePages_from].
  destruct (Z.leb_spec page maxPages); [|lia].
  rewrite Hthrow. reflexivity.
Qed.

End AnyApi.

End BoundsFacts.

(** ** [iteratePages] over what [fetchPage] returns *)

Module IterationFacts.
Import JSNumber JS Fetcher Runs Iteration.
Import FetchPageFacts IteratePagesFacts BoundsFacts.
Local Open Scope string_scope.
Local Open Scope Z_scope.

Section Turns.
Variable api : nat -> object -> outcome.
Variable ToString : value -> option string.
Variable ToNumber : value -> option number.
Variables (params : object) (maxPages rateLimitWait : Z).

(** A fetch adds requests, warnings and waits, and yields nothing. *)
Lemma fetched_shape (page : Z) (w : world) :
  exists (n : nat) (evs : list event),
    snd (fetched api ToString params page w) = after w n evs /\
    yielded evs = [].
Proof.
  unfold Iteration.fetched.
  destruct (fetchPage_shape api ToString params (of_Z page)
              Config.DEFAULT_RETRIES 5 w)
    as (j & _ & E); [unfold Config.DEFAULT_RETRIES; lia|].
  eexists. eexists. split; [exact E|].
  rewrite yielded_app, yielded_retried. reflexivity.
Qed.

Lemma turn_shape (page : Z) (w : world) (payload : value) :
  fst (fetched api ToString params page w) = Return payload ->
  exists (n : nat) (evs : list event),
    turn api ToString params maxPages rateLimitWait page w = after w n evs /\
    yielded evs = [extractResults payload].
Proof.
  intros H. unfold Iteration.turn.
  destruct (fetched_shape page w) as (n & evs & E & Hy).
  destruct (fetched api ToString params page w) as [r w1].
  cbn [fst snd] in *. subst r w1.
  exists n.
  exists (evs ++ Yield (extractResults payload)
                 :: (if page <? maxPages then [Sleep rateLimitWait]
                     else []))%list.
  split.
  - unfold sleep. destruct (page <? maxPages);
      rewrite !emit_after; rewrite <- ?app_assoc; reflexivity.
  - rewrite yielded_app, Hy. cbn [yielded app].
    destruct (page <? maxPages); reflexivity.
Qed.

Lemma turns_shape (k : nat) :
  forall (page : Z) (w : world),
    goesOn api ToString ToNumber params maxPages rateLimitWait k page w
    = true ->
    exists (n : nat) (evs : list event),
      turns api ToString params maxPages rateLimitWait k page w
      = after w n evs /\
      yielded evs
      = batchesOf api ToString params maxPages rateLimitWait k page w.
Proof.
  induction k as [|k IH]; intros page w H.
  - exists 0%nat, []. rewrite after_0. split; reflexivity.
  - cbn [Iteration.goesOn Iteration.turns Iteration.batchesOf] in *.
    destruct (fst (fetched api ToString params page w)) as [payload|e] eqn:E;
      [|discriminate].
    apply andb_true_iff in H. destruct H as [_ H].
    destruct (turn_shape page w payload E) as (n1 & evs1 & E1 & Hy1).
    destruct (IH _ _ H) as (n2 & evs2 & E2 & Hy2).
    exists (n1 + n2)%nat, (evs1 ++ evs2)%list. split.
    + rewrite E2, E1, after_after. reflexivity.
    + rewrite yielded_app, Hy1, Hy2. reflexivity.
Qed.

Lemma batchesOf_some (k : nat) :
  forall (page : Z) (w : world),
    goesOn api ToString ToNumber params maxPages rateLimitWait k page w
    = true ->
    List.length
      (batchesOf api ToString params maxPages rateLimitWait k page w)
    = k /\
    Forall (fun batch => batch <> [])
      (batchesOf api ToString params maxPages rateLimitWait k page w).
Proof.
  induction k as [|k IH]; intros page w H.
  - split; [reflexivity|constructor].
  - cbn [Iteration.goesOn Iteration.batchesOf] in *.
    destruct (fst (fetched api ToString params page w)) as [payload|e];
      [|discriminate].
    apply andb_true_iff in H. destruct H as [Hc H].
    destruct (IH _ _ H) as [Hlen Hall].
    cbn [List.length]. split; [f_equal; exact Hlen|].
    constructor; [|exact Hall].
    unfold continues in Hc. apply andb_true_iff in Hc.
    destruct Hc as [Hc _]. apply andb_true_iff in Hc.
    destruct Hc as [_ Hne]. apply negb_true_iff, Z.eqb_neq in Hne.
    intros Hnil. apply Hne. rewrite Hnil. reflexivity.
Qed.

(** The loop follows the pages that go on. *)
Lemma goesOn_run (k : nat) :
  forall (fuel : nat) (page : Z) (w : world),
    goesOn api ToString ToNumber params maxPages rateLimitWait k page w
    = true ->
    page + Z.of_nat k - 1 <= maxPages ->
    iteratePages_from api ToString ToNumber (k + fuel) params page
      maxPages rateLimitWait w
    = iteratePages_from api ToString ToNumber fuel params
        (page + Z.of_nat k) maxPages rateLimitWait
        (turns api ToString params maxPages rateLimitWait k page w).
Proof.
  induction k as [|k IH]; intros fuel page w H Hle.
  - simpl. rewrite Z.add_0_r. reflexivity.
  - change (S k + fuel)%nat with (S (k + fuel)).
    cbn [Iteration.goesOn Iteration.turns] in *.
    cbn [iteratePages_from].
    destruct (Z.leb_spec page maxPages); [|lia].
    unfold Iteration.turn in *. unfold Iteration.fetched in *.
    destruct (fetchPage api ToString params (of_Z page)
                Config.DEFAULT_RETRIES 5 w) as [r w1].
    cbn [fst] in H. destruct r as [payload|e]; [|discriminate].
    apply andb_true_iff in H. destruct H as [Hc H].
    unfold continues in Hc. apply andb_true_iff in Hc.
    destruct Hc as [Hc Hr]. apply andb_true_iff in Hc.
    destruct Hc as [Htr Hne]. apply negb_true_iff in Hne.
    rewrite Htr, Hne. cbn [negb].
    destruct (reachedTotalPages ToNumber page payload) as [[|]|];
      try discriminate.
    rewrite (IH fuel _ _ H) by lia. f_equal. lia.
Qed.

(** C4: let the first [k] pages be fetched, each after as many
    attempts as it takes, with payloads after which the iteration goes
    on (truthy, with results, the total-page count not reached).  Then
    their [k] batches, none of them empty, are what has been yielded,
    in order, and
    - if page [k + 1] is allowed and [fetchPage] returns for it a
      payload that is falsy or has no results, the iteration ends in
      the world that fetch left: the page is fetched and nothing more
      is yielded;
    - if page [k + 1] is allowed and [fetchPage] returns for it a
      payload that has results and whose total-page count the page
      has reached, its batch is yielded and the iteration ends there;
    - if [k] is [maxPages], the iteration ends after these [k] pages.
    A total-page count that is a number [n] is reached when it is
    truthy and [page >= n]; one that is absent is never reached. *)
Theorem iteratePages_stops (w w1 : world) (k : nat) (payload : value) :
  let page := 1 + Z.of_nat k in
  let reached := turns api ToString params maxPages rateLimitWait k 1 w in
  let batches :=
    batchesOf api ToString params maxPages rateLimitWait k 1 w in
  let run :=
    iteratePages api ToString ToNumber params maxPages rateLimitWait w in
  goesOn api ToString ToNumber params maxPages rateLimitWait k 1 w = true ->
  yielded (since w reached) = batches /\
  List.length batches = k /\
  Forall (fun batch => batch <> []) batches /\
  (page <= maxPages ->
   fetched api ToString params page reached = (Return payload, w1) ->
   (truthy payload = false \/ extractResults payload = [] ->
    run = (None, w1) /\
    yielded (since w w1) = batches) /\
   (truthy payload = true -> extractResults payload <> [] ->
    reachedTotalPages ToNumber page payload = Return true ->
    run = (None,
           after w1 0
             (lastEvents maxPages rateLimitWait page payload)) /\
    yielded (since w (snd run))
    = (batches ++ [extractResults payload])%list)) /\
  (Z.of_nat k = maxPages -> run = (None, reached)) /\
  (forall n, member payload "totalPages" = Num n ->
     reachedTotalPages ToNumber page payload
     = Return (JSNumber.truthy n && geb (of_Z page) n)) /\
  (member payload "totalPages" = Undefined ->
   reachedTotalPages ToNumber page payload = Return false).
Proof.
  intros page reached batches run Hgood.
  destruct (turns_shape k 1 w Hgood) as (n & evs & Ereached & Hy).
  fold reached in Ereached. fold batches in Hy.
  destruct (batchesOf_some k 1 w Hgood) as [Hlen Hall].
  fold batches in Hlen, Hall.
  split; [rewrite Ereached, since_after; exact Hy|].
  split; [exact Hlen|]. split; [exact Hall|].
  split; [|split; [|split]].
  - intros Hle Hfetched.
    assert (E : exists fuel, Z.to_nat maxPages = (k + S fuel)%nat)
      by (exists (Z.to_nat maxPages - k - 1)%nat; lia).
    destruct E as [fuel E].
    assert (Hrun : run
              = iteratePages_from api ToString ToNumber (S fuel) params
                  page maxPages rateLimitWait reached).
    { unfold run, iteratePages. rewrite E.
      apply goesOn_run; [exact Hgood|lia]. }
    destruct (fetched_shape page reached) as (n1 & evs1 & E1 & Hy1).
    rewrite Hfetched in E1. cbn [snd] in E1.
    assert (Hw1 : w1 = after w (n + n1) (evs ++ evs1)%list).
    { rewrite E1, Ereached, after_after. reflexivity. }
    unfold Iteration.fetched in Hfetched.
    cbn [iteratePages_from] in Hrun.
    destruct (Z.leb_spec page maxPages); [|lia].
    rewrite Hfetched in Hrun.
    split.
    + intros Hstop.
      assert (Hend : run = (None, w1)).
      { rewrite Hrun. destruct (truthy payload); [|reflexivity].
        cbn [negb]. destruct Hstop as [Hf|He]; [discriminate|].
        rewrite He. reflexivity. }
      split; [exact Hend|].
      rewrite Hw1, since_after, yielded_app, Hy, Hy1.
      apply app_nil_r.
    + intros Htr Hne Hreached.
      assert (Hend : run
                = (None,
                   after w1 0
                     (lastEvents maxPages rateLimitWait page payload))).
      { rewrite Hrun, Htr. cbn [negb].
        destruct (extractResults payload) as [|r rs] eqn:Er;
          [contradiction|].
        cbn [List.length]. rewrite Hreached.
        replace (Z.of_nat (S (List.length rs)) =? 0) with false
          by (symmetry; apply Z.eqb_neq; lia).
        f_equal. unfold lastEvents, sleep, emit, after. rewrite Er.
        destruct (page <? maxPages); cbn [sent trace]; f_equal;
          rewrite <- ?app_assoc; reflexivity || lia. }
      split; [exact Hend|].
      rewrite Hend. cbn [snd].
      rewrite Hw1, after_after, since_after, !yielded_app, Hy, Hy1.
      unfold lastEvents. cbn [yielded app]. rewrite app_nil_r.
      destruct (page <? maxPages); reflexivity.
  - intros Hk. unfold run, iteratePages.
    replace (Z.to_nat maxPages) with (k + 0)%nat by lia.
    rewrite (goesOn_run k 0 1 w Hgood) by lia. reflexivity.
  - intros m. apply TotalPagesFacts.reachedTotalPages_number.
  - apply TotalPagesFacts.reachedTotalPages_absent.
Qed.

(** After [k] pages that were fetched and after which the iteration
    went on, a 404 for page [k + 1], at its first attempt or after
    failures that are retried, ends the iteration as an empty page
    does: without an error, with nothing yielded for that page,
    without a wait after the answer, and with no later page asked
    for. *)
Theorem iteratePages_ends_on_404
    (w : world) (k j : nat) (data : value) :
  let page := 1 + Z.of_nat k in
  let reached := turns api ToString params maxPages rateLimitWait k 1 w in
  let batches :=
    batchesOf api ToString params maxPages rateLimitWait k 1 w in
  let rp := requestFor params (of_Z page) in
  let run :=
    iteratePages api ToString ToNumber params maxPages rateLimitWait w in
  goesOn api ToString ToNumber params maxPages rateLimitWait k 1 w = true ->
  page <= maxPages ->
  Z.of_nat j < Config.DEFAULT_RETRIES ->
  (forall i, (i < j)%nat ->
     retryable (api (sent reached + i)%nat rp) = true) ->
  api (sent reached + j)%nat rp = AxiosError (Some 404) data ->
  run = (None,
         after reached (j + 1) (retried rp 5 1 j ++ [Request rp])%list) /\
  yielded (since w (snd run)) = batches.
Proof.
  intros page reached batches rp run Hgood Hle Hj Hretried Hapi.
  destruct (turns_shape k 1 w Hgood) as (n & evs & Ereached & Hy).
  fold reached in Ereached. fold batches in Hy.
  assert (E : exists fuel, Z.to_nat maxPages = (k + S fuel)%nat)
    by (exists (Z.to_nat maxPages - k - 1)%nat; lia).
  destruct E as [fuel E].
  assert (Hrun : run
            = (None,
               after reached (j + 1)
                 (retried rp 5 1 j ++ [Request rp])%list)).
  { unfold run, iteratePages. rewrite E.
    rewrite (goesOn_run k (S fuel) 1 w Hgood) by lia.
    fold page reached. cbn [iteratePages_from].
    destruct (Z.leb_spec page maxPages); [|lia].
    destruct (fetchPage_enters api ToString params (of_Z page)
                Config.DEFAULT_RETRIES 5 reached j Hj Hretried)
      as [fuel' ->].
    fold rp.
    destruct (attempt_final api ToString fuel' rp (1 + Z.of_nat j)
                Config.DEFAULT_RETRIES 5
                (after reached j (retried rp 5 1 j)))
      as (_ & H404 & _); [lia|].
    cbn [after sent] in H404.
    rewrite (H404 data) by exact Hapi.
    cbn [truthy negb extractResults member get String.eqb]. simpl.
    rewrite after_after. reflexivity. }
  split; [exact Hrun|].
  rewrite Hrun. cbn [snd].
  rewrite Ereached, after_after, since_after, !yielded_app, Hy.
  rewrite yielded_retried. apply app_nil_r.
Qed.

End Turns.

End IterationFacts.

(** ** The constructor of [ZillowFetcher] *)

Module ConstructorFacts.
Import JS Node ZillowFetcher.
Local Open Scope string_scope.

Lemma given_nonempty (k : string) : given (Some k) = true -> k <> "".
Proof.
  simpl. intros H ->. discriminate.
Qed.

Lemma getAPIKey_done (env : environment) (k : string) :
  getAPIKey env = Done k ->
  k <> "" /\
  (env "ZILLOW_RAPIDAPI_KEY" = Some k \/
   given (env "ZILLOW_RAPIDAPI_KEY") = false /\ env "RAPIDAPI_KEY" = Some k).
Proof.
  unfold getAPIKey, or_else.
  destruct (given (env "ZILLOW_RAPIDAPI_KEY")) eqn:Hz.
  - destruct (env "ZILLOW_RAPIDAPI_KEY") as [z|]; [|discriminate].
    rewrite Hz. intros [= ->]. split; [apply given_nonempty, Hz|now left].
  - destruct (env "RAPIDAPI_KEY") as [r|]; [|discriminate].
    destruct (given (Some r)) eqn:Hr; [|discriminate].
    intros [= ->]. split; [apply given_nonempty, Hr|right; now split].
Qed.

Lemma getAPIKey_failed (env : environment) (message : string) :
  getAPIKey env = Failed message ->
  given (env "ZILLOW_RAPIDAPI_KEY") = false /\
  given (env "RAPIDAPI_KEY") = false.
Proof.
  unfold getAPIKey, or_else.
  destruct (given (env "ZILLOW_RAPIDAPI_KEY")) eqn:Hz.
  - destruct (env "ZILLOW_RAPIDAPI_KEY") as [z|]; [|discriminate].
    rewrite Hz. discriminate.
  - destruct (env "RAPIDAPI_KEY") as [r|]; [|now split].
    destruct (given (Some r)) eqn:Hr; [discriminate|now split].
Qed.

(** The key a fetcher works with is never empty, and it is the key its
    client sends: the key passed to the constructor when that is not
    empty, else [ZILLOW_RAPIDAPI_KEY] when that is set and not empty,
    else [RAPIDAPI_KEY] when that is; the constructor throws exactly
    when none of the three is a non-empty string. *)
Theorem constructor_key (key : option string) (env : environment) :
  match constructor key env with
  | Done fetcher =>
      apiKey fetcher <> "" /\
      x_rapidapi_key (client fetcher) = apiKey fetcher /\
      (key = Some (apiKey fetcher) \/
       given key = false /\
       (env "ZILLOW_RAPIDAPI_KEY" = Some (apiKey fetcher) \/
        given (env "ZILLOW_RAPIDAPI_KEY") = false /\
        env "RAPIDAPI_KEY" = Some (apiKey fetcher)))
  | Failed _ =>
      given key = false /\
      given (env "ZILLOW_RAPIDAPI_KEY") = false /\
      given (env "RAPIDAPI_KEY") = false
  end.
Proof.
  unfold constructor.
  assert (Henv : match getAPIKey env with
                 | Done k =>
                     k <> "" /\
                     (env "ZILLOW_RAPIDAPI_KEY" = Some k \/
                      given (env "ZILLOW_RAPIDAPI_KEY") = false /\
                      env "RAPIDAPI_KEY" = Some k)
                 | Failed _ =>
                     given (env "ZILLOW_RAPIDAPI_KEY") = false /\
                     given (env "RAPIDAPI_KEY") = false
                 end).
  { destruct (getAPIKey env) as [k|message] eqn:Hg.
    - exact (getAPIKey_done env k Hg).
    - exact (getAPIKey_failed env message Hg). }
  destruct key as [k|].
  - destruct (given (Some k)) eqn:Hk.
    + simpl. split; [apply given_nonempty, Hk|].
      split; [reflexivity|now left].
    + destruct (getAPIKey env) as [k'|message]; simpl.
      * destruct Henv as [Hne Hsrc].
        split; [exact Hne|]. split; [reflexivity|]. right. now split.
      * destruct Henv as [Hz Hr]. repeat split; assumption.
  - destruct (getAPIKey env) as [k'|message]; simpl.
    + destruct Henv as [Hne Hsrc].
      split; [exact Hne|]. split; [reflexivity|]. right. now split.
    + destruct Henv as [Hz Hr]. repeat split; assumption.
Qed.

End ConstructorFacts.

(** ** [collectProperties] *)

Module CollectFacts.
Import JSNumber JS ZillowTypes Fetcher Runs Node ZillowFetcher.
Import FetchPageFacts IteratePagesFacts BoundsFacts.
Local Open Scope string_scope.

Lemma clientEvents_app (h1 h2 : list entry) :
  clientEvents (h1 ++ h2) = (clientEvents h1 ++ clientEvents h2)%list.
Proof.
  induction h1 as [|[ev|m|m e] h1 IH]; simpl; rewrite ?IH; reflexivity.
Qed.

Lemma clientEvents_warned (n : nat) :
  clientEvents (repeat (Client Warn) n) = repeat Warn n.
Proof. induction n as [|n IH]; simpl; rewrite ?IH; reflexivity. Qed.

Lemma clientWorld_log (message : string) (s : session) :
  clientWorld (log message s) = clientWorld s.
Proof.
  unfold clientWorld, log. cbn [requests history].
  rewrite clientEvents_app. simpl. rewrite app_nil_r. reflexivity.
Qed.

Lemma consume_spec (evs : list event) :
  forall allRecords,
    clientEvents (fst (consume evs allRecords)) = evs /\
    snd (consume evs allRecords)
    = (allRecords ++ List.concat (yielded evs))%list.
Proof.
  induction evs as [|ev evs IH]; intros allRecords.
  - simpl. rewrite app_nil_r. split; reflexivity.
  - destruct ev as [rp| |ms|results]; cbn [consume];
      try (destruct (IH allRecords) as [H1 H2];
           destruct (consume evs allRecords) as [es final];
           cbn [fst snd clientEvents yielded] in *;
           rewrite H1, H2; split; reflexivity).
    destruct (IH (allRecords ++ results)%list) as [H1 H2].
    destruct (consume evs (allRecords ++ results)) as [es final].
    cbn [fst snd clientEvents yielded List.concat] in *.
    rewrite H1, H2, <- app_assoc. split; reflexivity.
Qed.

Section Frame.
Variable api : nat -> object -> outcome.
Variable ToString : value -> option string.
Variable ToNumber : value -> option number.

Lemma prepend_emit (t : list event) (ev : event) (w : world) :
  emit ev (prepend t w) = prepend t (emit ev w).
Proof.
  unfold emit, prepend. cbn [sent trace]. rewrite app_assoc.
  reflexivity.
Qed.

(** The events that came before have no part in what [fetchPage]
    does. *)
Lemma fetchPage_attempts_prepend (t : list event) (fuel : nat) :
  forall (rp : object) (attempt retries cooldown : Z) (w : world),
    fetchPage_attempts api ToString fuel rp attempt retries cooldown (prepend t w)
    = (fst (fetchPage_attempts api ToString fuel rp attempt retries cooldown w),
       prepend t
         (snd (fetchPage_attempts api ToString fuel rp attempt retries cooldown
                 w))).
Proof.
  induction fuel as [|fuel IH]; intros rp attempt retries cooldown w;
    [reflexivity|].
  cbn [fetchPage_attempts]. unfold client_get.
  destruct (attempt <=? retries)%Z; [|reflexivity].
  assert (E : {| sent := S (sent (prepend t w));
                 trace := (trace (prepend t w) ++ [Request rp])%list |}
              = prepend t
                  {| sent := S (sent w);
                     trace := (trace w ++ [Request rp])%list |}).
  { unfold prepend. cbn [sent trace]. rewrite app_assoc. reflexivity. }
  rewrite E. cbn [sent prepend].
  destruct (api (sent w) rp) as [data|status data|e]; try reflexivity.
  destruct (status_is status 404); [reflexivity|].
  destruct (status_is status 401 || status_is status 403);
    [destruct (Errors.messageText ToString data); reflexivity|].
  unfold sleep.
  destruct (status_is status 429);
    (destruct (attempt <? retries)%Z;
     [|try reflexivity;
       destruct (Errors.messageText ToString data); reflexivity]);
    rewrite !prepend_emit; apply IH.
Qed.

Lemma iteratePages_from_prepend (t : list event)
    (params : object) (maxPages rateLimitWait : Z) (fuel : nat) :
  forall (page : Z) (w : world),
    iteratePages_from api ToString ToNumber fuel params page maxPages
      rateLimitWait (prepend t w)
    = (fst (iteratePages_from api ToString ToNumber fuel params page maxPages
              rateLimitWait w),
       prepend t
         (snd (iteratePages_from api ToString ToNumber fuel params page maxPages
                 rateLimitWait w))).
Proof.
  induction fuel as [|fuel IH]; intros page w; [reflexivity|].
  cbn [iteratePages_from].
  destruct (page <=? maxPages)%Z; [|reflexivity].
  unfold fetchPage. rewrite fetchPage_attempts_prepend.
  destruct (fetchPage_attempts api ToString (Z.to_nat Config.DEFAULT_RETRIES)
              (set params "page" (Num (safePageNumber (of_Z page))))
              1 Config.DEFAULT_RETRIES 5 w) as [r w1].
  cbn [fst snd].
  destruct r as [payload|e]; [|reflexivity].
  destruct (negb (truthy payload)); [reflexivity|].
  destruct (Z.of_nat (List.length (extractResults payload)) =? 0)%Z;
    [reflexivity|].
  unfold sleep.
  destruct (page <? maxPages)%Z; rewrite !prepend_emit;
    (destruct (reachedTotalPages ToNumber page payload) as [[|]|err];
     [reflexivity|apply IH|reflexivity]).
Qed.

Lemma iteratePages_prepend (t : list event)
    (params : object) (maxPages rateLimitWait : Z) (w : world) :
  iteratePages api ToString ToNumber params maxPages rateLimitWait (prepend t w)
  = (fst (iteratePages api ToString ToNumber params maxPages rateLimitWait w),
     prepend t
       (snd (iteratePages api ToString ToNumber params maxPages rateLimitWait w))).
Proof. apply iteratePages_from_prepend. Qed.

Lemma iteratePages_adds (params : object) (maxPages rateLimitWait : Z)
    (w : world) :
  exists (n : nat) (evs : list event),
    snd (iteratePages api ToString ToNumber params maxPages rateLimitWait w)
    = after w n evs.
Proof.
  destruct (iteratePages_from_shape api ToString ToNumber params maxPages
              rateLimitWait (Z.to_nat maxPages) 1%Z w)
    as (n & evs & E & _).
  exists n, evs. exact E.
Qed.

Variable z_number_accepts : number -> bool.
Variable config : FetchConfig.

Lemma clientWorld_prepend (s : session) :
  clientWorld s
  = prepend (clientEvents (history s))
      {| sent := requests s; trace := [] |}.
Proof.
  unfold clientWorld, prepend. cbn [sent trace]. rewrite app_nil_r.
  reflexivity.
Qed.

Lemma since_prepend (t : list event) (w0 w : world) :
  trace w0 = [] -> since (prepend t w0) (prepend t w) = trace w.
Proof.
  intros H. unfold since, prepend. cbn [trace]. rewrite H, app_nil_r.
  rewrite skipn_app, skipn_all, Nat.sub_diag. reflexivity.
Qed.

Lemma iterateLocations_adds (remaining : list string) :
  forall w,
    exists (n : nat) (evs : list event),
      snd (iterateLocations api ToString ToNumber config remaining w)
      = after w n evs.
Proof.
  induction remaining as [|location rest IH]; intros w.
  - exists 0%nat, []. simpl. symmetry. apply after_0.
  - cbn [iterateLocations].
    destruct (iteratePages_adds
                (set (baseParams config) "location" (Str location))
                (maxPagesOf config) (rateLimitWaitOf config) w)
      as (n & evs & E).
    destruct (iteratePages api ToString ToNumber
                (set (baseParams config) "location" (Str location))
                (maxPagesOf config) (rateLimitWaitOf config) w)
      as [[e|] w1]; cbn [snd] in *; subst w1.
    + exists n, evs. reflexivity.
    + destruct (IH (after w n evs)) as (n' & evs' & E').
      exists (n + n')%nat, (evs ++ evs')%list.
      rewrite E'. apply after_after.
Qed.

Lemma collectLocation_spec (location : string)
    (allRecords : list value) (s : session) :
  let run :=
    iteratePages api ToString ToNumber
      (set (baseParams config) "location" (Str location))
      (maxPagesOf config) (rateLimitWaitOf config) (clientWorld s) in
  exists s',
    collectLocation api ToString ToNumber config location allRecords s
    = (fst run,
       (allRecords
        ++ List.concat (yielded (since (clientWorld s) (snd run))))%list,
       s') /\
    clientWorld s' = snd run.
Proof.
  intros run. unfold collectLocation. cbn [log requests history].
  unfold run. rewrite clientWorld_prepend, iteratePages_prepend.
  cbn [fst snd].
  destruct (iteratePages api ToString ToNumber
              (set (baseParams config) "location" (Str location))
              (maxPagesOf config) (rateLimitWaitOf config)
              {| sent := requests s; trace := [] |}) as [thrown w].
  cbn [fst snd].
  destruct (consume_spec (trace w) allRecords) as [H1 H2].
  destruct (consume (trace w) allRecords) as [es final].
  cbn [fst snd] in *. subst final.
  rewrite since_prepend by reflexivity.
  eexists. split; [reflexivity|].
  unfold clientWorld, prepend. cbn [requests history sent trace].
  rewrite !clientEvents_app, H1. simpl. rewrite app_nil_r.
  reflexivity.
Qed.

Lemma collectLocations_spec (remaining : list string) :
  forall (allRecords : list value) (s : session),
    let fetched :=
      iterateLocations api ToString ToNumber config remaining (clientWorld s) in
    exists s',
      collectLocations api ToString ToNumber config remaining allRecords s
      = (fst fetched,
         (allRecords
          ++ List.concat
               (yielded (since (clientWorld s) (snd fetched))))%list,
         s') /\
      clientWorld s' = snd fetched.
Proof.
  induction remaining as [|location rest IH]; intros allRecords s fetched.
  - exists s. unfold fetched. cbn [collectLocations iterateLocations fst snd].
    rewrite <- (after_0 (clientWorld s)) at 2.
    rewrite since_after. simpl. rewrite app_nil_r. split; reflexivity.
  - unfold fetched. cbn [collectLocations iterateLocations].
    destruct (collectLocation_spec location allRecords s)
      as (s1 & E1 & Hw1).
    rewrite E1.
    destruct (iteratePages_adds
                (set (baseParams config) "location" (Str location))
                (maxPagesOf config) (rateLimitWaitOf config)
                (clientWorld s)) as (n & evs & Eadd).
    destruct (iteratePages api ToString ToNumber
                (set (baseParams config) "location" (Str location))
                (maxPagesOf config) (rateLimitWaitOf config)
                (clientWorld s)) as [[e|] w1];
      cbn [fst snd] in *.
    + exists s1. cbn [isNotFoundError]. split; [reflexivity|exact Hw1].
    + rewrite Eadd in Hw1 |- *. clear E1 Eadd w1.
      destruct (IH (allRecords
                    ++ List.concat
                         (yielded
                            (since (clientWorld s)
                               (after (clientWorld s) n evs))))%list
                  s1) as (s2 & E2 & Hw2).
      rewrite Hw1 in E2, Hw2.
      exists s2. split; [|exact Hw2]. rewrite E2.
      destruct (iterateLocations_adds rest (after (clientWorld s) n evs))
        as (n' & evs' & Eadd').
      rewrite Eadd'.
      rewrite !since_after, after_after, since_after, yielded_app,
        concat_app, app_assoc.
      reflexivity.
Qed.

(** [collectProperties] makes the client iterate the pages of the
    locations one after the other; the first error of an iteration
    is thrown, and whatever was fetched is lost; otherwise the
    result is that of [recordsToProperties] on the batches yielded,
    joined in their order, the client having done nothing more than
    these iterations but warn once for each record that was
    dropped. *)
Theorem collectProperties_composes (s : session) :
  let w := clientWorld s in
  let fetched :=
    iterateLocations api ToString ToNumber config (locations config) w in
  let records := List.concat (yielded (since w (snd fetched))) in
  let run := collectProperties api ToString ToNumber z_number_accepts config s in
  match fst fetched with
  | Some e =>
      fst run = Throw e /\ clientWorld (snd run) = snd fetched
  | None =>
      fst run = fst (recordsToProperties z_number_accepts records) /\
      clientWorld (snd run)
      = after (snd fetched) 0
          (repeat Warn
             (snd (recordsToProperties z_number_accepts records)))
  end.
Proof.
  intros w fetched records run.
  destruct (collectLocations_spec (locations config) [] s)
    as (s' & E & Hw).
  fold w fetched in E, Hw. cbn [app] in E. fold records in E.
  unfold run, collectProperties. rewrite E.
  destruct (fst fetched) as [e|].
  - split; [reflexivity|exact Hw].
  - destruct (recordsToProperties z_number_accepts records)
      as [r warnings].
    cbn [fst snd].
    assert (Hwarned : clientWorld (warned warnings s')
                      = after (snd fetched) 0 (repeat Warn warnings)).
    { unfold clientWorld, warned, after. cbn [requests history].
      rewrite clientEvents_app, clientEvents_warned, <- Hw.
      unfold clientWorld. cbn [sent trace]. f_equal. lia. }
    destruct r as [properties|e]; cbn [fst snd].
    + rewrite clientWorld_log. split; [reflexivity|exact Hwarned].
    + split; [reflexivity|exact Hwarned].
Qed.

End Frame.

End CollectFacts.

(** ** [persistProperties] and [uppercaseRecord] *)

Module PersistFacts.
Import JSNumber JS ZillowTypes Node Migrator DatabaseMigrator.
Local Open Scope string_scope.

Lemma deduplicate_nonempty (records : list NashvilleRental) :
  records <> [] -> deduplicateByDetailUrl records <> [].
Proof.
  intros Hne Hnil. destruct records as [|r rest]; [contradiction|].
  pose proof (DedupFacts.deduplicate_urls (r :: rest)) as H.
  rewrite Hnil in H. simpl in H. discriminate.
Qed.

Lemma deduplicate_subset (records : list NashvilleRental)
    (r : NashvilleRental) :
  In r (deduplicateByDetailUrl records) -> In r records.
Proof.
  intros H. apply DedupFacts.deduplicate_last in H.
  apply DedupFacts.lastWith_url in H. exact (proj2 H).
Qed.

Section Supabase.
Variable upsert : list NashvilleRental -> reply.
Variable today : string.

(** For properties that are not none, [persistProperties] sends one
    batch to the database.  No two records of the batch have the
    same detail URL; the URLs are those of the properties, each at
    its first place; and every record is the record of one of the
    properties, dated with the ingestion date, or with today's date
    when none (or an empty one) is passed. *)
Theorem persistProperties_sends_distinct
    (properties : list ZillowProperty) (ingestionDate : option string) :
  properties <> [] ->
  let date := dateOf today ingestionDate in
  exists batch,
    snd (persistProperties upsert today properties ingestionDate)
    = [batch] /\
    batch <> [] /\
    NoDup (map detail_url batch) /\
    map detail_url batch = firstOccurrences (map detailUrl properties) /\
    (forall r, In r batch ->
       exists p, In p properties /\ r = propertyToRecord p date) /\
    (ingestionDate = Some date \/ date = today).
Proof.
  intros Hne date.
  destruct properties as [|p ps]; [contradiction|].
  set (properties := p :: ps) in *.
  set (records := map (fun prop => propertyToRecord prop date) properties).
  exists (deduplicateByDetailUrl records).
  assert (Hurls : map detail_url records = map detailUrl properties).
  { unfold records. rewrite map_map. reflexivity. }
  split; [|split; [|split; [|split; [|split]]]].
  - unfold persistProperties, properties. fold properties date records.
    destruct (error (upsert (deduplicateByDetailUrl records)));
      reflexivity.
  - apply deduplicate_nonempty. unfold records, properties. discriminate.
  - rewrite DedupFacts.deduplicate_urls.
    apply DedupFacts.firstOccurrences_NoDup.
  - rewrite DedupFacts.deduplicate_urls, Hurls. reflexivity.
  - intros r Hr. apply deduplicate_subset in Hr.
    unfold records in Hr. apply in_map_iff in Hr.
    destruct Hr as (q & <- & Hq). exists q. split; [exact Hq|reflexivity].
  - unfold date, dateOf. destruct ingestionDate as [d|]; [|now right].
    destruct (given (Some d)); [now left|now right].
Qed.

(** [persistProperties] sends nothing to the database and returns 0
    for no property.  For properties that are some it sends one batch,
    which is not empty, and throws exactly when the database answers
    that batch with an error, whose message it passes on; otherwise it
    returns the number of rows the database returned, or the size of
    the batch when it returned none: a count that is not 0. *)
Theorem persistProperties_count
    (properties : list ZillowProperty) (ingestionDate : option string) :
  let run := persistProperties upsert today properties ingestionDate in
  (properties = [] <-> run = (Done 0%nat, [])) /\
  (properties <> [] <->
   exists batch,
     snd run = [batch] /\
     batch <> [] /\
     match error (upsert batch) with
     | Some cause =>
         fst run = Failed ("Failed to persist properties: " ++ cause)
     | None =>
         fst run
         = Done (lengthOr (data (upsert batch)) (List.length batch)) /\
         lengthOr (data (upsert batch)) (List.length batch) <> 0%nat
     end).
Proof.
  intros run. subst run.
  destruct properties as [|p ps].
  { simpl. split; [tauto|]. split; [tauto|].
    intros (batch & H & _). discriminate H. }
  unfold persistProperties.
  set (records := map (fun prop => propertyToRecord prop
                                     (dateOf today ingestionDate))
                    (p :: ps)).
  assert (Hne : deduplicateByDetailUrl records <> []).
  { apply deduplicate_nonempty. unfold records. discriminate. }
  split.
  { split; [discriminate|].
    destruct (error (upsert (deduplicateByDetailUrl records)));
      discriminate. }
  split; [intros _|discriminate].
  exists (deduplicateByDetailUrl records).
  destruct (error (upsert (deduplicateByDetailUrl records)))
    as [cause|] eqn:He; cbn [fst snd].
  - repeat split; assumption.
  - split; [reflexivity|]. split; [exact Hne|].
    split; [reflexivity|].
    destruct (deduplicateByDetailUrl records) as [|r rs] eqn:Hd;
      [contradiction|].
    unfold lengthOr.
    destruct (data (upsert (r :: rs))) as [[|x xs]|];
      simpl; discriminate.
Qed.
End Supabase.

Lemma filter_idem_stored (r : object) :
  map fst (filter stored r) = filter (fun k => negb (String.eqb k "__proto__"))
                                (map fst r) /\
  filter stored (filter stored r) = filter stored r.
Proof.
  induction r as [|[k v] r [IH1 IH2]]; [split; reflexivity|].
  assert (Hs : stored (k, v) = negb (String.eqb k "__proto__"))
    by reflexivity.
  cbn [filter map fst]. rewrite Hs.
  destruct (negb (String.eqb k "__proto__")) eqn:E;
    cbn [filter map fst]; rewrite ?Hs, ?E, IH1, IH2; split; reflexivity.
Qed.

Lemma NoDup_filter_keys (r : object) :
  NoDup (Fetcher.keys r) -> NoDup (Fetcher.keys (filter stored r)).
Proof.
  unfold Fetcher.keys. rewrite (proj1 (filter_idem_stored r)).
  apply NoDup_filter.
Qed.

Section Uppercase.
Variable toUpperCase : string -> string.

Lemma uppercaseRecord_assign (record : object) :
  forall acc,
    fold_left
      (fun acc kv => set acc (fst kv) (uppercased toUpperCase (snd kv)))
      record acc
    = assign acc
        (map (fun kv => (fst kv, uppercased toUpperCase (snd kv)))
           record).
Proof.
  induction record as [|kv record IH]; intros acc; [reflexivity|].
  simpl. rewrite IH. reflexivity.
Qed.

(** For a record whose entries are given in the order of their
    enumeration, [uppercaseRecord] keeps the keys and their order,
    except the key [__proto__], which the assignment does not store;
    it replaces each string by its upper case and leaves every other
    value, nested ones included, as it is.  So applying it twice is
    applying it once, when that is so of [toUpperCase]. *)
Theorem uppercaseRecord_maps (record : object) :
  NoDup (Fetcher.keys record) ->
  enumerated record = true ->
  uppercaseRecord toUpperCase record
  = map (fun kv => (fst kv, uppercased toUpperCase (snd kv)))
      (filter stored record) /\
  ((forall s, toUpperCase (toUpperCase s) = toUpperCase s) ->
   uppercaseRecord toUpperCase (uppercaseRecord toUpperCase record)
   = uppercaseRecord toUpperCase record).
Proof.
  intros Hnd Hen.
  set (f := fun kv : string * value =>
              (fst kv, uppercased toUpperCase (snd kv))).
  assert (Hkeys : forall r : object,
             Fetcher.keys (map f r) = Fetcher.keys r).
  { intros r. unfold Fetcher.keys. rewrite map_map. reflexivity. }
  assert (Hfilter : forall r : object,
             filter stored (map f r) = map f (filter stored r)).
  { induction r as [|[k v] r IH]; [reflexivity|].
    assert (Hs : stored (f (k, v)) = stored (k, v)) by reflexivity.
    cbn [filter map]. rewrite Hs.
    destruct (stored (k, v)); cbn [map]; rewrite IH; reflexivity. }
  assert (Hmap : forall r : object,
             NoDup (Fetcher.keys r) -> enumerated r = true ->
             uppercaseRecord toUpperCase r = map f (filter stored r)).
  { intros r Hr He. unfold uppercaseRecord.
    rewrite uppercaseRecord_assign. fold f.
    rewrite (FlattenFacts.assign_enumerated (map f r) (Some 0%N)).
    - apply Hfilter.
    - rewrite Hkeys. exact Hr.
    - rewrite (FlattenFacts.enumeratedFrom_keys (map f r) r (Hkeys r)).
      exact He. }
  split; [exact (Hmap record Hnd Hen)|].
  intros Hidem. rewrite (Hmap record Hnd Hen).
  rewrite Hmap.
  - rewrite Hfilter, (proj2 (filter_idem_stored record)), map_map.
    apply map_ext. intros [k v].
    unfold f. simpl. f_equal.
    destruct v; simpl; try reflexivity. rewrite Hidem. reflexivity.
  - rewrite Hkeys. apply NoDup_filter_keys, Hnd.
  - unfold enumerated.
    rewrite (FlattenFacts.enumeratedFrom_keys _ _
               (Hkeys (filter stored record))).
    apply FlattenFacts.enumeratedFrom_stored, Hen.
Qed.
End Uppercase.

End PersistFacts.

(** ** The migration script *)

Module MigrateScriptFacts.
Import JSNumber ZillowTypes Node Migrator MigrateScript.
Local Open Scope string_scope.

Section Convert.
Variable parseFloat : string -> number.
Variable today : string.

(** A row without a record id gets the id the pipeline gives to a
    property with the same detail URL; a row with one keeps it. *)
Theorem convertRow_record_id (row : SQLiteRow) (p : ZillowProperty)
    (date : string) :
  detailUrl p = DETAILURL row ->
  (given (RECORD_ID row) = false ->
   record_id (convertRow parseFloat today row)
   = record_id (propertyToRecord p date)) /\
  (forall id, RECORD_ID row = Some id -> id <> "" ->
     record_id (convertRow parseFloat today row) = id) /\
  detail_url (convertRow parseFloat today row)
  = detail_url (propertyToRecord p date).
Proof.
  intros Hurl. split; [|split].
  - intros Hid. cbn [convertRow propertyToRecord record_id].
    unfold Migrator.generateRecordId, MigrateScript.generateRecordId.
    rewrite RecordIdFacts.seedOf_detailUrl, Hurl.
    destruct (RECORD_ID row) as [id|]; [|reflexivity].
    rewrite Hid. reflexivity.
  - intros id Hid Hne. cbn [convertRow record_id]. rewrite Hid.
    simpl. destruct (String.eqb_spec id ""); [contradiction|reflexivity].
  - cbn [convertRow propertyToRecord detail_url]. symmetry. exact Hurl.
Qed.

(** A price text that [parseFloat] reads as a number [p] is stored as
    [Math.round(p * 100)], zero included; this is what the pipeline
    stores for the price [p] exactly when [p] is not zero. *)
Theorem convertRow_price (row : SQLiteRow) (s : string) (p : number) :
  PRICE row = Some s ->
  s <> "" ->
  parseFloat s = p ->
  is_nan p = false ->
  Migrator.price (convertRow parseFloat today row)
  = Some (Math.round (mul p (of_Z 100))) /\
  (Migrator.price (convertRow parseFloat today row)
   = Migrator.priceInCents (present p)
   <-> truthy p = true).
Proof.
  intros Hprice Hne Hp Hnan.
  assert (E : Migrator.price (convertRow parseFloat today row)
              = Some (Math.round (mul p (of_Z 100)))).
  { cbn [convertRow Migrator.price].
    unfold MigrateScript.priceInCents, parseNumber. rewrite Hprice.
    simpl. destruct (String.eqb_spec s ""); [contradiction|].
    simpl. rewrite Hp, Hnan. reflexivity. }
  split; [exact E|]. rewrite E. unfold Migrator.priceInCents.
  destruct (truthy p); split; intros H;
    try reflexivity; discriminate.
Qed.
End Convert.

End MigrateScriptFacts.

(** ** The sync route *)

Module SyncFacts.
Import JSNumber JS ZillowTypes Fetcher Runs Node ZillowFetcher Next.
Import SyncRoute FetchPageFacts.
Local Open Scope string_scope.

Lemma rejects_status (o : outcome) :
  rejects o = true ->
  exists data,
    o = AxiosError (Some 401%Z) data \/ o = AxiosError (Some 403%Z) data.
Proof.
  destruct o as [data|status data|e]; simpl; try discriminate.
  intros H. exists data. apply orb_true_iff in H.
  destruct status as [code|]; simpl in H;
    [|destruct H; discriminate].
  destruct H as [H|H]; apply Z.eqb_eq in H; subst code; auto.
Qed.

Lemma slice_nonempty (i : nat) :
  (i < List.length Constants.LOCATIONS)%nat ->
  exists l rest,
    slice Constants.LOCATIONS i (i + Constants.BATCH_SIZE) = l :: rest.
Proof.
  intros H. unfold slice.
  replace (i + Constants.BATCH_SIZE - i)%nat with Constants.BATCH_SIZE
    by lia.
  destruct (skipn i Constants.LOCATIONS) as [|l rest] eqn:E.
  - apply (f_equal (@List.length string)) in E.
    rewrite length_skipn in E.
    change (List.length Constants.LOCATIONS) with 12%nat in *.
    cbn [List.length] in E. lia.
  - exists l. simpl. eexists. reflexivity.
Qed.

Section Route.
Variable api : nat -> object -> outcome.
Variable ToString : value -> option string.
Variable ToNumber : value -> option number.
Variable z_number_accepts : number -> bool.
Variable upsert :
  list Migrator.NashvilleRental -> DatabaseMigrator.reply.
Variable today : string.
Variable env : environment.

(** A key the API does not accept ends the iteration at its first
    request. *)
Lemma iteratePages_rejected (params : object)
    (maxPages rateLimitWait : Z) (w : world) :
  (1 <= maxPages)%Z ->
  rejects (api (sent w) (requestFor params (of_Z 1))) = true ->
  exists e,
    iteratePages api ToString ToNumber params maxPages rateLimitWait w
    = (Some e, after w 1 [Request (requestFor params (of_Z 1))]).
Proof.
  intros Hmax Hrej.
  destruct (rejects_status _ Hrej) as [data Hapi].
  exists (match Errors.messageText ToString data with
          | Return _ => AuthenticationError data
          | Throw e => e
          end).
  unfold iteratePages.
  destruct (Z.to_nat maxPages) as [|fuel] eqn:E; [lia|].
  cbn [iteratePages_from].
  destruct (Z.leb_spec 1 maxPages); [|lia].
  destruct (fetchPage_enters api ToString params (of_Z 1)
              Config.DEFAULT_RETRIES 5 w 0)
    as [fuel' ->]; [reflexivity|intros i Hi; lia|].
  rewrite after_0.
  destruct (attempt_final api ToString fuel' (requestFor params (of_Z 1))
              (1 + Z.of_nat 0) Config.DEFAULT_RETRIES 5 w)
    as (_ & _ & Hauth & _); [unfold Config.DEFAULT_RETRIES; lia|].
  rewrite (Hauth data) by exact Hapi.
  destruct (Errors.messageText ToString data); reflexivity.
Qed.

Hypothesis rejected : forall n requestParams,
  rejects (api n requestParams) = true.

Lemma collectProperties_rejected (config : FetchConfig) (s : session)
    (l : string) (rest : list string) :
  (1 <= maxPagesOf config)%Z ->
  locations config = l :: rest ->
  exists e s',
    collectProperties api ToString ToNumber z_number_accepts config s
    = (Throw e, s') /\
    requests s' = S (requests s).
Proof.
  intros Hmax Hloc. unfold collectProperties. rewrite Hloc.
  cbn [collectLocations]. unfold collectLocation.
  cbn [log requests history].
  destruct (iteratePages_rejected
              (set (baseParams config) "location" (Str l))
              (maxPagesOf config) (rateLimitWaitOf config)
              {| sent := requests s; trace := [] |} Hmax
              (rejected _ _)) as [data E].
  rewrite E. cbn [after sent trace app consume isNotFoundError].
  exists data. eexists. split; [reflexivity|]. cbn [requests]. lia.
Qed.

Lemma batches_rejected (fuel : nat) :
  forall (i : nat) (allProperties : list ZillowProperty) (s : session),
    exists s',
      batches api ToString ToNumber z_number_accepts fuel i allProperties s
      = (allProperties, s') /\
      requests s' = (requests s + turns fuel i)%nat.
Proof.
  induction fuel as [|fuel IH]; intros i allProperties s.
  - exists s. split; [reflexivity|simpl; lia].
  - cbn [batches turns].
    destruct (Nat.ltb_spec i (List.length Constants.LOCATIONS))
      as [Hlt|Hge].
    2:{ exists s. split; [reflexivity|lia]. }
    destruct (slice_nonempty i Hlt) as (l & rest & Hslice).
    match goal with
    | |- context [collectProperties _ _ _ _ ?config ?s1] =>
        destruct (collectProperties_rejected config s1 l rest)
          as (data & s2 & E & Hreq);
          [unfold maxPagesOf, Config.MAX_PAGES; simpl; lia
          |exact Hslice|]
    end.
    rewrite E.
    match goal with
    | |- context [batches _ _ _ _ fuel ?j allProperties ?s3] =>
        destruct (IH j allProperties s3) as (s' & E' & Hreq')
    end.
    exists s'. split; [exact E'|].
    rewrite Hreq'. cbn [report requests]. rewrite Hreq.
    cbn [log requests]. lia.
Qed.

(** When the API accepts no request (it answers 401 or 403 to each),
    every batch fails at its first request, and [POST] still reports
    success: it answers 200 with [success: true], nothing collected
    and nothing persisted, having sent one request for each of the
    three batches and nothing to the database. *)
Theorem POST_succeeds_when_key_rejected (s : session) (key : string) :
  getAPIKey env = Done key ->
  let '(response, s', stored) :=
    POST api ToString ToNumber z_number_accepts upsert today env s in
  response
  = json [("success", Bool true);
          ("message", Str "Sync completed successfully");
          ("collected", count 0);
          ("persisted", count 0);
          ("ingestionDate", Str today)] /\
  requests s' = (requests s + 3)%nat /\
  stored = [].
Proof.
  intros Hkey. unfold POST, createZillowFetcher, constructor.
  rewrite Hkey.
  destruct (batches_rejected (List.length Constants.LOCATIONS) 0 [] s)
    as (s1 & E & Hreq).
  rewrite E. cbn [DatabaseMigrator.persistProperties List.length].
  repeat split. cbn [log requests]. rewrite Hreq. reflexivity.
Qed.

End Route.

Section Status.
Variable api : nat -> object -> outcome.
Variable ToString : value -> option string.
Variable ToNumber : value -> option number.
Variable z_number_accepts : number -> bool.
Variable upsert :
  list Migrator.NashvilleRental -> DatabaseMigrator.reply.
Variable today : string.
Variable env : environment.

(** Whatever the API answers, [POST] answers 200 or 500, and 500 in
    two cases only: no API key is set, and then nothing is fetched
    and nothing is sent to the database; or the database answers the
    one batch it is sent with an error. *)
Theorem POST_fails_only_without_key_or_database (s : session) :
  let '(response, s', stored) :=
    POST api ToString ToNumber z_number_accepts upsert today env s in
  (status response = 200%Z \/ status response = 500%Z) /\
  (status response = 500%Z <->
   (given (env "ZILLOW_RAPIDAPI_KEY") = false /\
    given (env "RAPIDAPI_KEY") = false) \/
   (exists batch cause,
       stored = [batch] /\
       DatabaseMigrator.error (upsert batch) = Some cause)) /\
  (given (env "ZILLOW_RAPIDAPI_KEY") = false ->
   given (env "RAPIDAPI_KEY") = false ->
   requests s' = requests s /\ stored = []) /\
  (List.length stored <= 1)%nat.
Proof.
  unfold POST, createZillowFetcher, constructor.
  destruct (getAPIKey env) as [key|message] eqn:Hkey.
  - destruct (ConstructorFacts.getAPIKey_done env key Hkey)
      as [Hne Hsrc].
    assert (Hgiven : given (env "ZILLOW_RAPIDAPI_KEY") = true \/
                     given (env "RAPIDAPI_KEY") = true).
    { destruct Hsrc as [Hz|[_ Hr]]; [left; rewrite Hz|right; rewrite Hr];
        simpl; destruct (String.eqb_spec key "");
        try contradiction; reflexivity. }
    assert (Hnokey : ~ (given (env "ZILLOW_RAPIDAPI_KEY") = false /\
                        given (env "RAPIDAPI_KEY") = false)).
    { intros [Hz Hr]. destruct Hgiven as [H|H]; congruence. }
    destruct (batches api ToString ToNumber z_number_accepts
                (List.length Constants.LOCATIONS) 0 [] s)
      as [allProperties s1].
    unfold DatabaseMigrator.persistProperties.
    destruct allProperties as [|p ps].
    + cbn [status json List.length].
      split; [now left|]. split; [|split].
      * split; [discriminate|].
        intros [H|(batch & cause & H & _)];
          [contradiction|discriminate].
      * intros Hz Hr. exfalso. apply Hnokey. now split.
      * lia.
    + set (batch :=
             Migrator.deduplicateByDetailUrl
               (map (fun prop =>
                       Migrator.propertyToRecord prop
                         (DatabaseMigrator.dateOf today (Some today)))
                  (p :: ps))).
      destruct (DatabaseMigrator.error (upsert batch)) as [cause|] eqn:He;
        cbn [status json List.length].
      * split; [now right|]. split; [|split].
        -- split; [|reflexivity].
           intros _. right. exists batch, cause. now split.
        -- intros Hz Hr. exfalso. apply Hnokey. now split.
        -- lia.
      * split; [now left|]. split; [|split].
        -- split; [discriminate|].
           intros [H|(batch' & cause & H & He')]; [contradiction|].
           injection H as <-. congruence.
        -- intros Hz Hr. exfalso. apply Hnokey. now split.
        -- lia.
  - destruct (ConstructorFacts.getAPIKey_failed env message Hkey)
      as [Hz Hr].
    cbn [status List.length report requests].
    split; [now right|]. split; [|split].
    + split; [|reflexivity]. intros _. left. now split.
    + intros _ _. split; reflexivity.
    + lia.
Qed.
End Status.

End SyncFacts.

(** ** The cron route *)

Module CronFacts.
Import JS Node Next CronRoute.
Local Open Scope string_scope.

Lemma optionEqb_spec (a : option string) (b : string) :
  optionEqb a b = true <-> a = Some b.
Proof.
  destruct a as [s|]; simpl; [|split; discriminate].
  split.
  - intros H. apply String.eqb_eq in H. congruence.
  - intros [= ->]. apply String.eqb_refl.
Qed.

Section Route.
Variable env : environment.
Variable fetch : string -> fetched.

(** [GET] triggers the sync exactly when the request carries the
    header [authorization] with the text [Bearer] followed by a space
    and [CRON_SECRET]; any other request, one without the header
    included, is answered 401 and nothing is fetched.  With
    [CRON_SECRET] unset the expected text is [Bearer undefined]. *)
Theorem GET_requires_secret (authorization : option string) :
  (authorization = Some (expectedAuth env) ->
   snd (GET env fetch authorization) = [syncUrl env]) /\
  (authorization <> Some (expectedAuth env) ->
   GET env fetch authorization
   = ({| status := 401; body := [("error", Str "Unauthorized")] |}, [])) /\
  (env "CRON_SECRET" = None -> expectedAuth env = "Bearer undefined").
Proof.
  unfold GET. split; [|split].
  - intros H. apply optionEqb_spec in H. rewrite H. cbn [negb].
    destruct (fetch (syncUrl env)) as [m|ok result|ok m];
      try reflexivity.
    destruct ok; reflexivity.
  - intros H.
    destruct (optionEqb authorization (expectedAuth env)) eqn:E;
      [|reflexivity].
    apply optionEqb_spec in E. contradiction.
  - intros H. unfold expectedAuth. rewrite H. reflexivity.
Qed.

(** [GET] answers 200 exactly when the request is authorised and the
    sync endpoint answered with an ok status and a JSON body, which
    is passed on under [syncResult]; otherwise it answers 401 or
    500. *)
Theorem GET_ok_iff_sync_ok (authorization : option string) :
  let response := fst (GET env fetch authorization) in
  (status response = 200%Z <->
   authorization = Some (expectedAuth env) /\
   exists result, fetch (syncUrl env) = Responded true result /\
                  get (body response) "syncResult" = result) /\
  (status response = 200%Z \/ status response = 401%Z \/
   status response = 500%Z).
Proof.
  unfold GET.
  destruct (optionEqb authorization (expectedAuth env)) eqn:E;
    cbn [negb].
  - apply optionEqb_spec in E.
    destruct (fetch (syncUrl env)) as [m|ok result|ok m];
      cbn [fst status failure].
    + split; [|auto]. split; [discriminate|].
      intros (_ & result & H & _). discriminate.
    + destruct ok; cbn [negb fst status json body].
      * split; [|auto]. split; [|reflexivity].
        intros _. split; [exact E|]. exists result.
        split; reflexivity.
      * split; [|auto]. split; [discriminate|].
        intros (_ & r & H & _). discriminate.
    + split; [|auto]. split; [discriminate|].
      intros (_ & result & H & _). discriminate.
  - cbn [fst status]. split; [|auto]. split; [discriminate|].
    intros [H _]. apply optionEqb_spec in H. congruence.
Qed.
End Route.

End CronFacts.

(** ** The status code of the errors [fetchPage] throws *)

Module StatusFacts.
Import JSNumber JS Fetcher Errors FetchPageFacts.
Local Open Scope string_scope.
Local Open Scope Z_scope.

(** Where the message of the error can be built from the payload of
    the answer: the error [fetchPage] throws for a 403 is an
    [AuthenticationError], whose status code is 401, not 403; and the
    error it throws when the last attempt fails with a status that is
    none of 404, 401, 403 and 429 has the status of that answer, or
    none when the request got no response.  The error it throws when
    the last attempt is answered 429 has the code 429. *)
Theorem fetchPage_status_codes
    (ToString : value -> option string)
    (api : nat -> object -> outcome) (params : object) (page : number)
    (retries cooldown : Z) (w : world) (k : nat)
    (status : option Z) (data : value) :
  let rp := requestFor params page in
  let thrown := fst (fetchPage api ToString params page retries cooldown w) in
  Z.of_nat k < retries ->
  (forall i, (i < k)%nat -> retryable (api (sent w + i)%nat rp) = true) ->
  api (sent w + k)%nat rp = AxiosError status data ->
  (status = Some 403 ->
   describable ToString data ->
   thrown = Throw (AuthenticationError data) /\
   statusCode (AuthenticationError data) = Some 401) /\
  (Z.of_nat k + 1 = retries -> status = Some 429 ->
   thrown = Throw (RateLimitError data) /\
   statusCode (RateLimitError data) = Some 429) /\
  (Z.of_nat k + 1 = retries ->
   retryable (AxiosError status data) = true ->
   rateLimited (AxiosError status data) = false ->
   describable ToString data ->
   thrown = Throw (ZillowAPIError status data) /\
   statusCode (ZillowAPIError status data) = status).
Proof.
  intros rp thrown Hk Hr Hapi.
  destruct (fetchPage_enters api ToString params page retries cooldown w k Hk Hr)
    as [fuel E].
  fold rp in E.
  destruct (attempt_final api ToString fuel rp (1 + Z.of_nat k) retries cooldown
              (after w k (retried rp cooldown 1 k)))
    as (_ & _ & Hauth & Hlimit & Hlast); [lia|].
  cbn [after sent] in Hauth, Hlimit, Hlast.
  split; [|split].
  - intros -> Hd. split; [|reflexivity].
    apply ErrorsFacts.describable_text in Hd. destruct Hd as [text Hd].
    unfold thrown. rewrite E, (Hauth data) by (right; exact Hapi).
    rewrite Hd. reflexivity.
  - intros Hend ->. split; [|reflexivity].
    unfold thrown. rewrite E, (Hlimit data) by (try lia; exact Hapi).
    reflexivity.
  - intros Hend Hretry Hlim Hd. split; [|reflexivity].
    apply ErrorsFacts.describable_text in Hd. destruct Hd as [text Hd].
    unfold thrown.
    rewrite E, (Hlast status data) by (try lia; assumption).
    rewrite Hd. reflexivity.
Qed.

End StatusFacts.

(** ** The Supabase clients *)

Module SupabaseFacts.
Import Node SupabaseClient.
Local Open Scope string_scope.

Lemma valueOf_some (s : option string) (v : string) :
  valueOf s = Some v -> s = Some v /\ v <> "" /\ given s = true.
Proof.
  destruct s as [x|]; simpl; [|discriminate].
  destruct (String.eqb_spec x ""); simpl; [discriminate|].
  intros [= ->]. repeat split; assumption.
Qed.

Lemma valueOf_none (s : option string) :
  valueOf s = None -> given s = false.
Proof.
  destruct s as [x|]; simpl; [|reflexivity].
  destruct (String.eqb x ""); simpl; [reflexivity|discriminate].
Qed.

Section Library.
Variable handle : Type.
Variable createClient : nat -> string -> string -> attempt handle.

(** Loading the module throws in four cases only, each with its
    message: the URL is missing or empty; the anonymous key is; the
    library refuses to make the public client; or it refuses to make
    the admin client.  Otherwise the public client is made from the URL
    and the anonymous key of the environment, neither of them empty,
    and the admin client from the URL and the service role key, or
    from the anonymous key when the service role key is missing or
    empty.  The warning is written exactly when the public client was
    made and the service role key is missing or empty, also when the
    admin client then cannot be made. *)
Theorem load_clients (env : environment) :
  let url := env "NEXT_PUBLIC_SUPABASE_URL" in
  let anon := env "NEXT_PUBLIC_SUPABASE_ANON_KEY" in
  let service := env "SUPABASE_SERVICE_ROLE_KEY" in
  let made := fst (load handle createClient env) in
  let warned := snd (load handle createClient env) in
  (given url = false ->
   made = Failed "Missing NEXT_PUBLIC_SUPABASE_URL environment variable"
   /\ warned = false) /\
  (given url = true -> given anon = false ->
   made
   = Failed "Missing NEXT_PUBLIC_SUPABASE_ANON_KEY environment variable"
   /\ warned = false) /\
  (forall u a,
      url = Some u -> anon = Some a ->
      given url = true -> given anon = true ->
      match createClient 0 u a with
      | Failed message => made = Failed message /\ warned = false
      | Done public =>
          warned = negb (given service) /\
          (given service = false \/ service = Some (adminKey env a)) /\
          adminKey env a <> "" /\
          match createClient 1 u (adminKey env a) with
          | Failed message => made = Failed message
          | Done admin =>
              made = Done {| supabase := public; supabaseAdmin := admin |}
          end
      end).
Proof.
  intros url anon service made warned.
  subst made warned. unfold load.
  split; [|split].
  - intros Hu. subst url.
    destruct (env "NEXT_PUBLIC_SUPABASE_URL") as [u|]; simpl in *;
      [|split; reflexivity].
    rewrite Hu. split; reflexivity.
  - intros Hu Ha. subst url anon.
    destruct (env "NEXT_PUBLIC_SUPABASE_URL") as [u|]; simpl in *;
      [|discriminate].
    rewrite Hu.
    destruct (env "NEXT_PUBLIC_SUPABASE_ANON_KEY") as [a|]; simpl in *;
      [|split; reflexivity].
    rewrite Ha. split; reflexivity.
  - intros u a Eu Ea Hu Ha. subst url anon service.
    rewrite Eu, Ea in *.
    assert (Vu : valueOf (Some u) = Some u)
      by (unfold valueOf; rewrite Hu; reflexivity).
    assert (Va : valueOf (Some a) = Some a)
      by (unfold valueOf; rewrite Ha; reflexivity).
    rewrite Vu, Va.
    destruct (createClient 0 u a) as [public|message];
      [|split; reflexivity].
    unfold adminKey.
    destruct (valueOf (env "SUPABASE_SERVICE_ROLE_KEY")) as [k|] eqn:Hk.
    + destruct (valueOf_some _ _ Hk) as (Ek & Hne & Hg).
      rewrite Hg. cbn [fst snd negb].
      split; [reflexivity|]. split; [right; exact Ek|].
      split; [exact Hne|].
      destruct (createClient 1 u k); reflexivity.
    + rewrite (valueOf_none _ Hk). cbn [fst snd negb].
      split; [reflexivity|]. split; [left; reflexivity|].
      split.
      * intros ->. simpl in Ha. discriminate.
      * destruct (createClient 1 u a); reflexivity.
Qed.
End Library.

End SupabaseFacts.

(** ** More on [deduplicateByDetailUrl] and on raw records *)

Module RawRecordsFacts.
Import JSNumber JS ZillowTypes Fetcher Node Migrator.
Local Open Scope string_scope.

Lemma firstOccurrences_length (l : list string) :
  (List.length (firstOccurrences l) <= List.length l)%nat.
Proof.
  induction l as [|x l IH]; simpl; [lia|].
  pose proof (filter_length_le (fun y => negb (String.eqb x y))
                (firstOccurrences l)).
  lia.
Qed.

(** Deduplicating twice is deduplicating once, and the output is never
    longer than the input. *)
Theorem deduplicate_idempotent (records : list NashvilleRental) :
  deduplicateByDetailUrl (deduplicateByDetailUrl records)
  = deduplicateByDetailUrl records /\
  (List.length (deduplicateByDetailUrl records) <= List.length records)%nat.
Proof.
  split.
  - apply DedupFacts.deduplicate_distinct.
    rewrite DedupFacts.deduplicate_urls.
    apply DedupFacts.firstOccurrences_NoDup.
  - rewrite <- (length_map detail_url (deduplicateByDetailUrl records)).
    rewrite DedupFacts.deduplicate_urls.
    rewrite <- (length_map detail_url records).
    apply firstOccurrences_length.
Qed.

Lemma augmentFrom_throws (units : list value) :
  forall index augmented e,
    augmentFrom index units augmented = Throw e -> e = TypeError.
Proof.
  induction units as [|unit rest IH]; intros index augmented e H;
    [discriminate|].
  destruct unit; simpl in H; try (injection H as <-; reflexivity);
    exact (IH _ _ _ H).
Qed.

Section Records.
Variable z_number_accepts : number -> bool.

Lemma prepareRecord_throws (record : object) (e : error) :
  prepareRecord record = Throw e -> e = TypeError.
Proof.
  unfold prepareRecord, augmentWithUnits.
  destruct (get record "units") as [| | | | |[|u us]|]; try discriminate.
  destruct (augmentFrom 0 (u :: us) (flattenMapping record ""))
    as [aug|e'] eqn:E; simpl; [discriminate|].
  intros [= <-]. exact (augmentFrom_throws _ _ _ _ E).
Qed.

Lemma recordsToProperties_loop_throws (records : list object) :
  forall properties warnings e n,
    recordsToProperties_loop z_number_accepts records properties warnings
    = (Throw e, n) -> e = TypeError.
Proof.
  induction records as [|record rest IH];
    intros properties warnings e n H; [discriminate|].
  cbn [recordsToProperties_loop] in H.
  destruct (prepareRecord record) as [flattened|e'] eqn:E.
  - destruct (ZillowPropertySchema z_number_accepts flattened);
      exact (IH _ _ _ _ H).
  - injection H as <- _. exact (prepareRecord_throws record e' E).
Qed.

Lemma entriesWhile_unreadable (records : list value) :
  forallb readable records = false ->
  snd (ZillowFetcher.entriesWhile records) = true.
Proof.
  induction records as [|record rest IH]; simpl; [discriminate|].
  intros H. apply andb_false_iff in H.
  destruct record; simpl in *;
    try reflexivity;
    (destruct H as [H|H]; [discriminate|]);
    specialize (IH H);
    destruct (ZillowFetcher.entriesWhile rest) as [os threw];
    exact IH.
Qed.

Lemma entriesWhile_mappings (os : list object) :
  ZillowFetcher.entriesWhile (map Obj os) = (os, false).
Proof.
  induction os as [|o os IH]; simpl; [reflexivity|].
  rewrite IH. reflexivity.
Qed.

(** On raw records that are all mappings [recordsToProperties] is the
    loop over mappings; and one record that is [null] or [undefined]
    makes it throw a [TypeError], whatever the other records are: no
    property is returned. *)
Theorem recordsToProperties_raw (records : list value) :
  (forall os, records = map Obj os ->
     ZillowFetcher.recordsToProperties z_number_accepts records
     = Fetcher.recordsToProperties z_number_accepts os) /\
  (forallb readable records = false ->
   fst (ZillowFetcher.recordsToProperties z_number_accepts records)
   = Throw TypeError).
Proof.
  split.
  - intros os ->. unfold ZillowFetcher.recordsToProperties.
    rewrite entriesWhile_mappings.
    destruct (Fetcher.recordsToProperties z_number_accepts os)
      as [[properties|e] warnings]; reflexivity.
  - intros H. unfold ZillowFetcher.recordsToProperties.
    pose proof (entriesWhile_unreadable records H) as Hthrew.
    destruct (ZillowFetcher.entriesWhile records) as [os threw].
    cbn [snd] in Hthrew. subst threw.
    unfold Fetcher.recordsToProperties.
    destruct (recordsToProperties_loop z_number_accepts os [] 0)
      as [[properties|e] warnings] eqn:E; cbn [fst]; [reflexivity|].
    f_equal. exact (recordsToProperties_loop_throws os _ _ _ _ E).
Qed.
End Records.

End RawRecordsFacts.

(** ** The properties above at concrete inputs *)

Module Instances.
Import JSNumber JS ZillowTypes Fetcher Runs Node Migrator Samples Scenarios.
Local Open Scope string_scope.

Lemma extractErrorMessage_usable_witness :
  exists v,
    Errors.extractErrorMessage noText (Obj [("detail", Str "Not allowed")])
    = Return v /\
    (truthy v = true \/ Obj [("detail", Str "Not allowed")] = Str "").
Proof.
  apply (ErrorsFacts.extractErrorMessage_usable noText
           (Obj [("detail", Str "Not allowed")])).
  reflexivity.
Defined.

Lemma extractErrorMessage_unreadable_entry_witness :
  Errors.extractErrorMessage noText
    (Obj [("errors", Arr [Obj [("message", Str "Invalid zip")]; Null])])
  = Throw TypeError.
Proof.
  apply (ErrorsFacts.extractErrorMessage_unreadable_entry noText
           (Obj [("errors", Arr [Obj [("message", Str "Invalid zip")]; Null])])
           [Obj [("message", Str "Invalid zip")]; Null]);
    reflexivity.
Defined.

Lemma extractErrorMessage_joins_errors_witness :
  Errors.extractErrorMessage noText
    (Obj [("errors",
           Arr [Obj [("message", Str "Invalid zip")]; Str "Try again"])])
  = Return (Str "Invalid zip; Try again").
Proof.
  apply (ErrorsFacts.extractErrorMessage_joins_errors noText
           (Obj [("errors",
                  Arr [Obj [("message", Str "Invalid zip")];
                       Str "Try again"])])
           [Obj [("message", Str "Invalid zip")]; Str "Try again"]
           ["Invalid zip"; "Try again"]);
    try reflexivity.
  constructor.
  - right. split; [reflexivity|discriminate].
  - constructor; [left; reflexivity|constructor].
Defined.

Lemma augmentWithUnits_stores_units_witness :
  augmentWithUnits duplexBase duplexUnits = Return duplexAugmented /\
  get duplexAugmented "price_2" = Num (of_Z 1800) /\
  get duplexAugmented "beds_2" = Undefined.
Proof.
  split; [reflexivity|]. split.
  - exact (UnitsFacts.augmentWithUnits_stores_units
             duplexBase duplexAugmented duplexUnits 1
             (Obj [("price", Num (of_Z 1800))]) "price"
             eq_refl eq_refl (or_introl eq_refl)).
  - exact (UnitsFacts.augmentWithUnits_stores_units
             duplexBase duplexAugmented duplexUnits 1
             (Obj [("price", Num (of_Z 1800))]) "beds"
             eq_refl eq_refl (or_intror (or_introl eq_refl))).
Defined.

Lemma augmentWithUnits_keeps_base_witness :
  get duplexAugmented "detailUrl"
  = Str "https://zillow.com/property/7".
Proof.
  apply (UnitsFacts.augmentWithUnits_keeps_base
           duplexBase duplexAugmented duplexUnits "detailUrl" eq_refl).
  intros name j Hn _.
  apply UnitsFacts.schemaKey_not_indexed; [simpl; tauto|exact Hn].
Defined.

Lemma toProperty_ignores_indexed_fields_witness :
  toProperty notNaN duplex
  = Some {| ZillowTypes.longitude := absent;
            ZillowTypes.latitude := absent;
            ZillowTypes.detailUrl := "https://zillow.com/property/7";
            ZillowTypes.price := absent;
            ZillowTypes.bedrooms := absent;
            ZillowTypes.bathrooms := absent;
            ZillowTypes.livingArea := absent;
            ZillowTypes.propertyType := absent;
            ZillowTypes.address := absent;
            ZillowTypes.units :=
              present [{| unit_price := Some (of_Z 1500);
                          unit_beds := None;
                          unit_bathrooms := None |}] |}.
Proof.
  rewrite (UnitsFacts.toProperty_ignores_indexed_fields notNaN duplex
             [Obj [("price", Num (of_Z 1500))]] eq_refl).
  - reflexivity.
  - discriminate.
  - reflexivity.
Defined.

Lemma fetchPage_bounded_witness :
  (sent (snd (fetchPage serverError noText [] (of_Z 1) 4 5 start)) <= 4)%nat /\
  (total (waits (since start
                   (snd (fetchPage serverError noText [] (of_Z 1) 4 5 start))))
   <= 30000)%Z.
Proof.
  pose proof (BoundsFacts.fetchPage_bounded serverError noText [] (of_Z 1) 4 5
                start) as H.
  cbv zeta in H.
  destruct H as (_ & Hsent & _ & _ & Hwait); [lia|].
  split; [exact Hsent|exact Hwait].
Defined.

Lemma iteratePages_rethrows_witness :
  iteratePages expiring noText noCoercion [] 10 5000 start
  = (Some (AuthenticationError Null),
     {| sent := 2;
        trace := [Request (requestFor [] (of_Z 1));
                  Yield [Str "listing 1"]; Sleep 5000;
                  Request (requestFor [] (of_Z 2))] |}).
Proof.
  apply (BoundsFacts.iteratePages_rethrows expiring noText noCoercion [] 10 5000
           (fun _ => firstOfMany) start _ 1 (AuthenticationError Null)).
  - intros i Hi. destruct i as [|i]; [split; reflexivity|lia].
  - lia.
  - reflexivity.
Defined.

Lemma iteratePages_stops_witness :
  iteratePages (pagedApi threePages) noText noCoercion [] 10 5000 start
  = (None,
     {| sent := 3;
        trace := [Request (requestFor [] (of_Z 1));
                  Yield [Str "listing 1"; Str "listing 2"]; Sleep 5000;
                  Request (requestFor [] (of_Z 2));
                  Yield [Str "listing 3"]; Sleep 5000;
                  Request (requestFor [] (of_Z 3))] |}) /\
  fst (iteratePages limitedThenPaged noText noCoercion [] 10 5000 start)
  = None /\
  yielded
    (since start
       (snd (iteratePages limitedThenPaged noText noCoercion [] 10 5000
               start)))
  = [[Str "listing 1"; Str "listing 2"]; [Str "listing 3"]] /\
  requested
    (since start
       (snd (iteratePages limitedThenPaged noText noCoercion [] 10 5000
               start)))
  = [Num (of_Z 1); Num (of_Z 1); Num (of_Z 2); Num (of_Z 3)].
Proof.
  split.
  - destruct (IterationFacts.iteratePages_stops
                (pagedApi threePages) noText noCoercion [] 10 5000 start
                (snd (Iteration.fetched (pagedApi threePages) noText [] 3
                        (Iteration.turns (pagedApi threePages) noText []
                           10 5000 2 1 start)))
                2 (pageOf threePages 3) eq_refl)
      as (_ & _ & _ & Hstop & _).
    destruct Hstop as [[Hrun _] _];
      [discriminate|reflexivity|right; reflexivity|].
    rewrite Hrun. reflexivity.
  - destruct (IterationFacts.iteratePages_stops
                limitedThenPaged noText noCoercion [] 10 5000 start
                (snd (Iteration.fetched limitedThenPaged noText [] 3
                        (Iteration.turns limitedThenPaged noText []
                           10 5000 2 1 start)))
                2 (pageOf threePages 3) eq_refl)
      as (_ & _ & _ & Hstop & _).
    destruct Hstop as [[Hrun Hyielded] _];
      [discriminate|reflexivity|right; reflexivity|].
    rewrite Hrun. cbn [fst snd]. rewrite Hyielded.
    repeat split; reflexivity.
Defined.

Lemma iteratePages_ends_on_404_witness :
  iteratePages pageThenNotFound noText noCoercion [] 10 5000 start
  = (None,
     {| sent := 3;
        trace := [Request (requestFor [] (of_Z 1));
                  Yield [Str "listing 1"; Str "listing 2"]; Sleep 5000;
                  Request (requestFor [] (of_Z 2)); Warn; Sleep 5000;
                  Request (requestFor [] (of_Z 2))] |}).
Proof.
  destruct (IterationFacts.iteratePages_ends_on_404
              pageThenNotFound noText noCoercion [] 10 5000 start 1 1 Null
              eq_refl)
    as [Hrun _].
  - discriminate.
  - reflexivity.
  - intros i Hi. destruct i; [reflexivity|lia].
  - reflexivity.
  - rewrite Hrun. reflexivity.
Defined.

Lemma persistProperties_sends_distinct_witness :
  exists batch,
    snd (DatabaseMigrator.persistProperties accepting "2025-11-10"
           [furnished; bare] None) = [batch] /\
    batch <> [] /\
    NoDup (map detail_url batch) /\
    map detail_url batch
    = firstOccurrences (map detailUrl [furnished; bare]) /\
    (forall r, In r batch ->
       exists p, In p [furnished; bare] /\
                 r = propertyToRecord p
                       (DatabaseMigrator.dateOf "2025-11-10" None)) /\
    (None = Some (DatabaseMigrator.dateOf "2025-11-10" None) \/
     DatabaseMigrator.dateOf "2025-11-10" None = "2025-11-10").
Proof.
  apply (PersistFacts.persistProperties_sends_distinct accepting
           "2025-11-10" [furnished; bare] None).
  discriminate.
Defined.

Lemma uppercaseRecord_maps_witness :
  DatabaseMigrator.uppercaseRecord Crypto.toUpperCase
    [("0", Str "first"); ("address", Str "123 Main St");
     ("__proto__", Num (of_Z 1)); ("price", Num (of_Z 2000))]
  = [("0", Str "FIRST"); ("address", Str "123 MAIN ST");
     ("price", Num (of_Z 2000))].
Proof.
  refine (proj1 (PersistFacts.uppercaseRecord_maps Crypto.toUpperCase
                   [("0", Str "first"); ("address", Str "123 Main St");
                    ("__proto__", Num (of_Z 1));
                    ("price", Num (of_Z 2000))] _ _)).
  - repeat constructor; simpl; intuition discriminate.
  - reflexivity.
Defined.

Lemma convertRow_record_id_witness :
  record_id (MigrateScript.convertRow readsAs "2025-11-10" freeRow)
  = record_id (propertyToRecord bare "2025-11-10").
Proof.
  exact (proj1 (MigrateScriptFacts.convertRow_record_id readsAs
                  "2025-11-10" freeRow bare "2025-11-10" eq_refl)
           eq_refl).
Defined.

Lemma convertRow_price_witness :
  Migrator.price (MigrateScript.convertRow readsAs "2025-11-10" freeRow)
  = Some (of_Z 0).
Proof.
  refine (proj1 (MigrateScriptFacts.convertRow_price readsAs "2025-11-10"
                   freeRow "0" (of_Z 0) eq_refl _ eq_refl eq_refl)).
  discriminate.
Defined.

Lemma POST_succeeds_when_key_rejected_witness :
  let '(response, s', stored) :=
    SyncRoute.POST unauthorized noText noCoercion notNaN accepting "2025-11-10"
      keyOnly {| ZillowFetcher.requests := 0; ZillowFetcher.history := [] |}
  in
  response
  = Next.json [("success", Bool true);
               ("message", Str "Sync completed successfully");
               ("collected", SyncRoute.count 0);
               ("persisted", SyncRoute.count 0);
               ("ingestionDate", Str "2025-11-10")] /\
  ZillowFetcher.requests s' = 3%nat /\
  stored = [].
Proof.
  apply (SyncFacts.POST_succeeds_when_key_rejected unauthorized noText noCoercion
           notNaN accepting "2025-11-10" keyOnly
           (fun _ _ => eq_refl)
           {| ZillowFetcher.requests := 0; ZillowFetcher.history := [] |}
           "secret").
  reflexivity.
Defined.

Lemma fetchPage_status_codes_witness :
  fst (fetchPage (fun _ _ => AxiosError (Some 403%Z) Null) noText [] (of_Z 1) 4 5
         start)
  = Throw (AuthenticationError Null) /\
  Errors.statusCode (AuthenticationError Null) = Some 401%Z.
Proof.
  refine (proj1 (StatusFacts.fetchPage_status_codes noText
                   (fun _ _ => AxiosError (Some 403%Z) Null) [] (of_Z 1)
                   4 5 start 0 (Some 403%Z) Null _ _ eq_refl) eq_refl _).
  - reflexivity.
  - intros i Hi. lia.
  - exists (Str "Unknown API error"), "Unknown API error".
    split; reflexivity.
Defined.

Lemma load_clients_witness :
  snd (SupabaseClient.load (string * string) httpOnly project) = true /\
  fst (SupabaseClient.load (string * string) httpOnly project)
  = Done {| SupabaseClient.supabase :=
              ("https://project.supabase.co", "anon");
            SupabaseClient.supabaseAdmin :=
              ("https://project.supabase.co", "anon") |}.
Proof.
  destruct (SupabaseFacts.load_clients (string * string) httpOnly project)
    as (_ & _ & H).
  specialize (H "https://project.supabase.co" "anon"
                eq_refl eq_refl eq_refl eq_refl).
  cbv in H. destruct H as (Hwarned & _ & _ & Hmade).
  split; [exact Hwarned|exact Hmade].
Defined.

End Instances.
